(** * Colour picker: luminance, tints, shade solver, field rasteriser and
      contrast overlay of [picker.js]

    The development embeds the functions of [src/picker.js] and proves or
    refutes the properties stated about them.

    Number model.  A JavaScript number is an IEEE-754 double.  Here a finite
    double is read as the real number it denotes and arithmetic is exact
    ([R] of the Standard Library); [NaN] is kept as a separate value because
    the code tests for it and because every comparison with it is false.
    Rounding error, overflow, the two infinities and the sign of zero are
    outside the model.  A division whose divisor is zero (an infinity or NaN
    in JavaScript) is given the value [NaN]; the divisors of the embedded
    code are the constants 255, 12.92 and 1.055, the contrast ratio, the
    luminance of a pure tint, which is positive (Lemma
    [calcLuminance_pure_tint]), and the width and height of the rectangle
    of the field, which the statements about the mouse take to be
    positive. *)

From Stdlib Require Import String Ascii.
From Stdlib Require Import ZArith Reals Lra Lia.
From stdpp Require Import base list.

Open Scope R_scope.

(** ** Numbers and values *)

Inductive num : Type :=
| Fin (x : R)
| NaN.

Inductive value : Type :=
| VNum (n : num)
| VStr (s : string)
| VBool (b : bool)
| VUndefined
| VNull.

(** [typeof v], as the string the operator returns. *)
Definition typeof (v : value) : string :=
  match v with
  | VNum _ => "number"
  | VStr _ => "string"
  | VBool _ => "boolean"
  | VUndefined => "undefined"
  | VNull => "object"
  end.

#[global] Instance Rlt_decision (x y : R) : Decision (x < y) := Rlt_dec x y.
#[global] Instance Rle_decision (x y : R) : Decision (x <= y) := Rle_dec x y.
#[global] Instance Req_decision : EqDecision R := Req_dec_T.

Module Num.

Definition lift2 (f : R -> R -> R) (a b : num) : num :=
  match a, b with
  | Fin x, Fin y => Fin (f x y)
  | _, _ => NaN
  end.

Definition add : num -> num -> num := lift2 Rplus.
Definition sub : num -> num -> num := lift2 Rminus.
Definition mul : num -> num -> num := lift2 Rmult.

Definition div (a b : num) : num :=
  match a, b with
  | Fin x, Fin y => if decide (y = 0) then NaN else Fin (x / y)
  | _, _ => NaN
  end.

(** [a < b], [a <= b], [a > b], [a >= b]: false as soon as one side is NaN. *)
Definition ltb (a b : num) : bool :=
  match a, b with
  | Fin x, Fin y => bool_decide (x < y)
  | _, _ => false
  end.

Definition leb (a b : num) : bool :=
  match a, b with
  | Fin x, Fin y => bool_decide (x <= y)
  | _, _ => false
  end.

Definition gtb (a b : num) : bool := ltb b a.
Definition geb (a b : num) : bool := leb b a.

(** [a === b] and [a !== b] on numbers: NaN is different from everything. *)
Definition eqb (a b : num) : bool :=
  match a, b with
  | Fin x, Fin y => bool_decide (x = y)
  | _, _ => false
  end.

Definition neqb (a b : num) : bool := negb (eqb a b).

Definition isNaN (a : num) : bool :=
  match a with
  | NaN => true
  | Fin _ => false
  end.

(** [Math.max], [Math.min]: NaN when an argument is NaN. *)
Definition max : num -> num -> num := lift2 Rmax.
Definition min : num -> num -> num := lift2 Rmin.

(** [Math.pow(b, e)] for a finite exponent [e] that is not an integer (the
    code uses 2.4 and 1 / 2.4): [exp (e * ln b)] on a positive base, 0 at
    base 0 when [e] is positive, NaN on a negative base or a NaN base. *)
Definition pow (b : num) (e : R) : num :=
  match b with
  | Fin x =>
      if decide (0 < x) then Fin (Rpower x e)
      else if decide (x = 0) then (if decide (0 < e) then Fin 0 else NaN)
      else NaN
  | NaN => NaN
  end.

(** [Math.round]: the nearest integer, halves towards plus infinity. *)
Definition round (a : num) : num :=
  match a with
  | Fin x => Fin (IZR (Zfloor (x + / 2)))
  | NaN => NaN
  end.

Definition of_nat (n : nat) : num := Fin (INR n).
Definition of_Z (z : Z) : num := Fin (IZR z).

End Num.

Declare Scope num_scope.
Delimit Scope num_scope with num.
Bind Scope num_scope with num.
Infix "+" := Num.add : num_scope.
Infix "-" := Num.sub : num_scope.
Infix "*" := Num.mul : num_scope.
Infix "/" := Num.div : num_scope.
Infix "<?" := Num.ltb : num_scope.
Infix "<=?" := Num.leb : num_scope.
Infix ">?" := Num.gtb : num_scope.
Infix ">=?" := Num.geb : num_scope.
Infix "===" := Num.eqb (at level 70) : num_scope.
Infix "!==" := Num.neqb (at level 70) : num_scope.

(** A real constant of the source read as a number. *)
Coercion Fin : R >-> num.

(** ** Results: a returned value or a thrown error *)

Inductive result (A : Type) : Type :=
| Ok (a : A)
| Throw (msg : string).
Arguments Ok {A} a.
Arguments Throw {A} msg.

#[global] Instance result_ret : MRet result := fun A a => Ok a.
#[global] Instance result_bind : MBind result := fun A B f m =>
  match m with
  | Ok a => f a
  | Throw e => Throw e
  end.

Definition throws {A} (m : result A) : Prop := exists msg, m = Throw msg.
Definition returns {A} (m : result A) : Prop := exists a, m = Ok a.

(** The guard that opens every colorimetric function:
    [typeof x !== 'number' || x < 0 || x > 1] throws
    ["<name> must be number in range of 0 <= <name> <= 1"].  The comparisons
    are only reached by a value of type number. *)
Definition range_error (name : string) : string :=
  (name ++ " must be number in range of 0 <= " ++ name ++ " <= 1")%string.

Definition check_unit (name : string) (v : value) : result num :=
  match v with
  | VNum x =>
      if (x <? 0)%num || (x >? 1)%num then Throw (range_error name) else Ok x
  | _ => Throw (range_error name)
  end.

(** ** The four colorimetric functions *)

Definition linearize (colourValue : value) : result num :=
  c ← check_unit "colourValue" colourValue;
  if (c <=? 0.03928)%num then Ok (c / 12.92)%num
  else Ok (Num.pow ((c + 0.055) / 1.055)%num 2.4).

Definition calcLuminance (red green blue : value) : result num :=
  r ← check_unit "red" red;
  g ← check_unit "green" green;
  b ← check_unit "blue" blue;
  lr ← linearize (VNum r);
  lg ← linearize (VNum g);
  lb ← linearize (VNum b);
  Ok (0.2126 * lr + 0.7152 * lg + 0.0722 * lb)%num.

(** A colour: the array [[red, green, blue]]. *)
Abbreviation tint := (num * num * num)%type.

(** [for (let i = 0; i < n; i++) body]. *)
Definition for_upto {S : Type} (n : nat) (body : nat -> S -> S) (s : S) : S :=
  fold_left (fun acc i => body i acc) (seq 0 n) s.

Definition hue_error : string :=
  "Specified colour must be a pure hue; one component must always be 1, another in the range of 0 <= N <= 1, and the last 0".

Definition interpolateTints (red green blue : value) : result (list tint) :=
  r ← check_unit "red" red;
  g ← check_unit "green" green;
  b ← check_unit "blue" blue;
  if ((r !== 0) && (g !== 0) && (b !== 0))%num
     || ((r === 1) && (g === 1) && (b === 1))%num
     || ((r !== 1) && (g !== 1) && (b !== 1))%num
  then Throw hue_error
  else
    let delta_red := ((1 - r) / 255)%num in
    let delta_green := ((1 - g) / 255)%num in
    let delta_blue := ((1 - b) / 255)%num in
    Ok (for_upto 256
          (fun i tint_array =>
             tint_array ++
               [(Num.max r (1 - delta_red * Num.of_nat i)%num,
                 Num.max g (1 - delta_green * Num.of_nat i)%num,
                 Num.max b (1 - delta_blue * Num.of_nat i)%num)])
          []).

Definition tint_error : string :=
  "Specified colour must be a pure tint; one colour component must be 1".

Definition shadeToLuminance (targetLuminance red green blue : value)
  : result num :=
  t ← check_unit "targetLuminance" targetLuminance;
  r ← check_unit "red" red;
  g ← check_unit "green" green;
  b ← check_unit "blue" blue;
  if ((r !== 1) && (g !== 1) && (b !== 1))%num then Throw tint_error
  else
    tintLuminance ← calcLuminance (VNum r) (VNum g) (VNum b);
    let scaledLuminance := (t / tintLuminance)%num in
    if (scaledLuminance <? 0.03928 / 12.92)%num
    then Ok (scaledLuminance * 12.92)%num
    else Ok (Num.pow scaledLuminance (1 / 2.4) * 1.055 - 0.055)%num.

(** ** Strings read from the page *)

(** [s.slice(a, b)] for [0 <= a <= b]: the characters at positions [a] to
    [b - 1] that exist. *)
Definition slice (a b : nat) (s : string) : string :=
  substring a (b - a) s.

(** [parseInt(s, 16)].  Strings are sequences of code units below 256.
    Leading white space is skipped, then an optional sign, then an optional
    [0x] or [0X]; the longest run of hexadecimal digits that follows is the
    value, and NaN is returned when that run is empty. *)
Definition is_white_space (c : ascii) : bool :=
  let n := nat_of_ascii c in
  Nat.eqb n 9 || Nat.eqb n 10 || Nat.eqb n 11 || Nat.eqb n 12
  || Nat.eqb n 13 || Nat.eqb n 32 || Nat.eqb n 160.

Fixpoint trim_start (s : string) : string :=
  match s with
  | String c s' => if is_white_space c then trim_start s' else s
  | EmptyString => s
  end.

Definition hex_digit (c : ascii) : option Z :=
  let n := Z.of_nat (nat_of_ascii c) in
  if ((48 <=? n) && (n <=? 57))%Z then Some (n - 48)%Z
  else if ((97 <=? n) && (n <=? 102))%Z then Some (n - 87)%Z
  else if ((65 <=? n) && (n <=? 70))%Z then Some (n - 55)%Z
  else None.

Fixpoint hex_digits (s : string) (acc : option Z) : option Z :=
  match s with
  | String c s' =>
      match hex_digit c with
      | Some d => hex_digits s' (Some (16 * default 0%Z acc + d)%Z)
      | None => acc
      end
  | EmptyString => acc
  end.

Definition parseInt16 (s : string) : num :=
  let s1 := trim_start s in
  let '(negative, s2) :=
    match s1 with
    | String "-" rest => (true, rest)
    | String "+" rest => (false, rest)
    | _ => (false, s1)
    end in
  let s3 :=
    match s2 with
    | String "0" (String "x" rest) => rest
    | String "0" (String "X" rest) => rest
    | _ => s2
    end in
  match hex_digits s3 None with
  | Some z => Num.of_Z (if negative : bool then - z else z)
  | None => NaN
  end.

(** ** The page and the variables of the [DOMContentLoaded] closure *)

(** The text of a read-only gauge: [x.toFixed(digits)], or
    ["N/A (" + x.toFixed(digits) + ")"]. *)
Inductive text : Type :=
| Fixed (x : num) (digits : nat)
| NotAvailable (x : num) (digits : nat).

(** Calls on the 2d context of the overlay canvas. *)
Inductive canvas_op : Type :=
| ClearRect (x y w h : num)
| SetStyle (property : string) (setting : string)
| BeginPath
| MoveTo (x y : num)
| LineTo (x y : num)
| Stroke
| ClosePath
| Fill.

Record picker : Type := {
  (* variables *)
  current_hue : tint;
  current_tints : list tint;
  current_colour : tint;
  current_luminance : num;
  line_mode : string;
  position_left : num;
  position_bottom : num;
  contrast_ratio : num;
  contrast_upper_luminance : num;
  contrast_lower_luminance : num;
  (* elements of the page *)
  selected_colour : tint;           (* --selected-colour: rgb(r, g, b) *)
  preview_luminance : text;
  indicator_border : string;        (* colour_indicator.style.borderColor *)
  contrast_colour_input : string;   (* .value *)
  contrast_minimum_luminance : text;
  contrast_maximum_luminance : text;
  chart_image : list Z;             (* image data put on #saturation-chart *)
  line_width : num;                 (* line_canvas.width *)
  line_height : num;                (* line_canvas.height *)
  line_calls : list canvas_op       (* context calls of the last render *)
}.

Definition set_colour (s : picker) (colour : tint) (luminance : num)
    (css : tint) (shown : text) (border : string) : picker :=
  {| current_hue := current_hue s;
     current_tints := current_tints s;
     current_colour := colour;
     current_luminance := luminance;
     line_mode := line_mode s;
     position_left := position_left s;
     position_bottom := position_bottom s;
     contrast_ratio := contrast_ratio s;
     contrast_upper_luminance := contrast_upper_luminance s;
     contrast_lower_luminance := contrast_lower_luminance s;
     selected_colour := css;
     preview_luminance := shown;
     indicator_border := border;
     contrast_colour_input := contrast_colour_input s;
     contrast_minimum_luminance := contrast_minimum_luminance s;
     contrast_maximum_luminance := contrast_maximum_luminance s;
     chart_image := chart_image s;
     line_width := line_width s;
     line_height := line_height s;
     line_calls := line_calls s |}.

Definition set_chart (s : picker) (image : list Z) : picker :=
  {| current_hue := current_hue s;
     current_tints := current_tints s;
     current_colour := current_colour s;
     current_luminance := current_luminance s;
     line_mode := line_mode s;
     position_left := position_left s;
     position_bottom := position_bottom s;
     contrast_ratio := contrast_ratio s;
     contrast_upper_luminance := contrast_upper_luminance s;
     contrast_lower_luminance := contrast_lower_luminance s;
     selected_colour := selected_colour s;
     preview_luminance := preview_luminance s;
     indicator_border := indicator_border s;
     contrast_colour_input := contrast_colour_input s;
     contrast_minimum_luminance := contrast_minimum_luminance s;
     contrast_maximum_luminance := contrast_maximum_luminance s;
     chart_image := image;
     line_width := line_width s;
     line_height := line_height s;
     line_calls := line_calls s |}.

Definition set_contrast (s : picker) (upper lower : num)
    (minimum maximum : text) : picker :=
  {| current_hue := current_hue s;
     current_tints := current_tints s;
     current_colour := current_colour s;
     current_luminance := current_luminance s;
     line_mode := line_mode s;
     position_left := position_left s;
     position_bottom := position_bottom s;
     contrast_ratio := contrast_ratio s;
     contrast_upper_luminance := upper;
     contrast_lower_luminance := lower;
     selected_colour := selected_colour s;
     preview_luminance := preview_luminance s;
     indicator_border := indicator_border s;
     contrast_colour_input := contrast_colour_input s;
     contrast_minimum_luminance := minimum;
     contrast_maximum_luminance := maximum;
     chart_image := chart_image s;
     line_width := line_width s;
     line_height := line_height s;
     line_calls := line_calls s |}.

Definition set_lines (s : picker) (calls : list canvas_op) : picker :=
  {| current_hue := current_hue s;
     current_tints := current_tints s;
     current_colour := current_colour s;
     current_luminance := current_luminance s;
     line_mode := line_mode s;
     position_left := position_left s;
     position_bottom := position_bottom s;
     contrast_ratio := contrast_ratio s;
     contrast_upper_luminance := contrast_upper_luminance s;
     contrast_lower_luminance := contrast_lower_luminance s;
     selected_colour := selected_colour s;
     preview_luminance := preview_luminance s;
     indicator_border := indicator_border s;
     contrast_colour_input := contrast_colour_input s;
     contrast_minimum_luminance := contrast_minimum_luminance s;
     contrast_maximum_luminance := contrast_maximum_luminance s;
     chart_image := chart_image s;
     line_width := line_width s;
     line_height := line_height s;
     line_calls := calls |}.

(** ** [recalculateColour]

    A thrown error aborts the handler; the assignments made before it are
    not kept in the model.  The hexadecimal and decimal texts of the preview
    are renderings of [selected_colour] and are not modelled. *)
Definition recalculateColour (s : picker) : result picker :=
  let '(hue_red, hue_green, hue_blue) := current_hue s in
  let tint_red := (1 + (hue_red - 1) * position_left s)%num in
  let tint_green := (1 + (hue_green - 1) * position_left s)%num in
  let tint_blue := (1 + (hue_blue - 1) * position_left s)%num in
  let colour_red := (tint_red * (1 - position_bottom s))%num in
  let colour_green := (tint_green * (1 - position_bottom s))%num in
  let colour_blue := (tint_blue * (1 - position_bottom s))%num in
  let clamp component := (Num.round (component * 255) / 255)%num in
  let red := clamp colour_red in
  let green := clamp colour_green in
  let blue := clamp colour_blue in
  luminance ← calcLuminance (VNum red) (VNum green) (VNum blue);
  Ok (set_colour s (red, green, blue) luminance
        (red * 255, green * 255, blue * 255)%num
        (Fixed luminance 5)
        (if (luminance <? 0.1792)%num then "white" else "black")).

(** ** [renderChart] *)

(** Monadic loops: [for (let i = 0; i < n; i++)] and
    [for (let i = n - 1; i >= 0; i--)] with a body that may throw. *)
Fixpoint foldM {S : Type} (body : nat -> S -> result S) (l : list nat) (s : S)
  : result S :=
  match l with
  | [] => Ok s
  | i :: rest => s' ← body i s; foldM body rest s'
  end.

Definition for_upto_m {S : Type} (n : nat) (body : nat -> S -> result S)
  : S -> result S := foldM body (seq 0 n).

Definition for_downto_m {S : Type} (n : nat) (body : nat -> S -> result S)
  : S -> result S := foldM body (rev (seq 0 n)).

(** Reading a component of [tints[i]], or spreading it: a TypeError when the
    index is past the end ([tints[i]] is [undefined]). *)
Definition tint_at (tints : list tint) (i : nat) : result tint :=
  match tints !! i with
  | Some t => Ok t
  | None => Throw "TypeError"
  end.

(** Storing a number in a [Uint8ClampedArray]: NaN becomes 0, the value is
    clamped to 0..255 and rounded to the nearest integer, halves to even. *)
Definition toUint8Clamp (a : num) : Z :=
  match a with
  | NaN => 0%Z
  | Fin x =>
      if decide (x <= 0) then 0%Z
      else if decide (255 <= x) then 255%Z
      else
        let f := Zfloor x in
        if decide (IZR f + / 2 < x) then (f + 1)%Z
        else if decide (x < IZR f + / 2) then f
        else if Z.even f then f else (f + 1)%Z
  end.

Definition put_pixel (tints deltas : list tint) (i j : nat) (data : list Z)
  : result (list Z) :=
  let idx := ((i * 256 + j) * 4)%nat in
  '(tr, tg, tb) ← tint_at tints j;
  '(dr, dg, db) ← tint_at deltas j;
  let r := (tr - dr * Num.of_nat i)%num in
  let g := (tg - dg * Num.of_nat i)%num in
  let b := (tb - db * Num.of_nat i)%num in
  Ok (<[(idx + 3)%nat := 255%Z]>
        (<[(idx + 2)%nat := toUint8Clamp (b * 255)]>
           (<[(idx + 1)%nat := toUint8Clamp (g * 255)]>
              (<[idx := toUint8Clamp (r * 255)]> data)))).

(** [context.createImageData(256, 256)]: transparent black. *)
Definition createImageData (w h : nat) : list Z := replicate (w * h * 4) 0%Z.

Definition chart_data (tints : list tint) : result (list Z) :=
  let imageData := createImageData 256 256 in
  let deltas :=
    map (fun '(r, g, b) => (r / 255, g / 255, b / 255)%num) tints in
  for_upto_m 256
    (fun i => for_upto_m 256 (fun j => put_pixel tints deltas i j))
    imageData.

Definition renderChart (s : picker) : result picker :=
  data ← chart_data (current_tints s);
  Ok (set_chart s data).

(** ** [renderLines] *)

Definition shade_at (tints : list tint) (target : num) (i : nat)
  : result num :=
  '(r, g, b) ← tint_at tints i;
  shadeToLuminance (VNum target) (VNum r) (VNum g) (VNum b).

(** The body of the three drawing loops:
    [lineTo(i / (current_tints.length - 1) * width, (1 - shade) * height)]. *)
Definition line_to_column (tints : list tint) (width height target : num)
    (i : nat) (calls : list canvas_op) : result (list canvas_op) :=
  shade ← shade_at tints target i;
  Ok (calls ++
        [LineTo (Num.of_nat i / (Num.of_nat (length tints) - 1) * width)%num
                ((1 - shade) * height)%num]).

(** [moveTo(0, (1 - shade) * height)] with the shade of [current_tints[1]],
    then one [lineTo] per column. *)
Definition trace_curve (tints : list tint) (width height target : num)
    (calls : list canvas_op) : result (list canvas_op) :=
  shade ← shade_at tints target 1;
  for_upto_m (length tints) (line_to_column tints width height target)
    (calls ++ [MoveTo 0 ((1 - shade) * height)%num]).

Definition line_calls_of (s : picker) : result (list canvas_op) :=
  let width := line_width s in
  let height := line_height s in
  let tints := current_tints s in
  let upper := contrast_upper_luminance s in
  let lower := contrast_lower_luminance s in
  let calls0 :=
    [ClearRect 0 0 width height;
     SetStyle "lineWidth" "2"; SetStyle "strokeStyle" "black"] in
  if String.eqb (line_mode s) "NONE" then Ok calls0
  else if String.eqb (line_mode s) "B/W" then
    calls ← trace_curve tints width height 0.1795
      (calls0 ++ [SetStyle "shadowColor" "white"; SetStyle "shadowBlur" "1";
                  SetStyle "shadowOffsetY" "2"; BeginPath]);
    Ok (calls ++ [Stroke; SetStyle "shadowColor" "null";
                  SetStyle "shadowBlur" "null";
                  SetStyle "shadowOffsetY" "null"])
  else if String.eqb (line_mode s) "COLOUR" then
    let calls1 := calls0 ++ [SetStyle "fillStyle" "black"; BeginPath] in
    if (upper <=? 0)%num || (lower >=? 1)%num then Ok calls1
    else
      calls2 ←
        (if (upper >=? 1)%num
         then Ok (calls1 ++ [MoveTo 0 0; LineTo width 0])
         else trace_curve tints width height upper calls1);
      calls3 ←
        (if (lower <=? 0)%num
         then Ok (calls2 ++ [LineTo width height; LineTo 0 height])
         else for_downto_m (length tints)
                (line_to_column tints width height lower) calls2);
      Ok (calls3 ++ [ClosePath; Fill])
  else Ok calls0.

Definition renderLines (s : picker) : result picker :=
  calls ← line_calls_of s;
  Ok (set_lines s calls).

(** The vertices of the path built by a sequence of context calls. *)
Definition path_points (calls : list canvas_op) : list (num * num) :=
  omap (fun c =>
          match c with
          | MoveTo x y => Some (x, y)
          | LineTo x y => Some (x, y)
          | _ => None
          end) calls.

(** ** [recalculateContrast] *)

Definition recalculateContrast (s : picker) : result picker :=
  let input := contrast_colour_input s in
  let r := Num.max 0 (Num.min 255 (parseInt16 (slice 1 3 input))) in
  let g := Num.max 0 (Num.min 255 (parseInt16 (slice 3 5 input))) in
  let b := Num.max 0 (Num.min 255 (parseInt16 (slice 5 7 input))) in
  if Num.isNaN r || Num.isNaN g || Num.isNaN b then Ok s
  else
    colour_luminance ←
      calcLuminance (VNum (r / 255)%num) (VNum (g / 255)%num)
        (VNum (b / 255)%num);
    let ratio := contrast_ratio s in
    let upper := (0.05 * (20 * colour_luminance * ratio + ratio - 1))%num in
    let lower := ((colour_luminance - 0.05 * ratio + 0.05) / ratio)%num in
    let minimum :=
      if (upper >=? 0)%num && (upper <=? 1)%num
      then Fixed upper 5 else NotAvailable upper 3 in
    let maximum :=
      if (lower >=? 0)%num && (lower <=? 1)%num
      then Fixed lower 5 else NotAvailable lower 3 in
    renderLines (set_contrast s upper lower minimum maximum).

(** * Vocabulary of the statements *)

(** The value [linearize] returns on a real of the unit interval. *)
Definition linear (c : R) : R :=
  if decide (c <= 0.03928) then c / 12.92
  else Rpower ((c + 0.055) / 1.055) 2.4.

(** The value [calcLuminance] returns on reals of the unit interval. *)
Definition luminance (r g b : R) : R :=
  0.2126 * linear r + 0.7152 * linear g + 0.0722 * linear b.

(** A pure tint has at least one component equal to 1. *)
Definition pure_tint (r g b : R) : Prop :=
  (0 <= r <= 1 /\ 0 <= g <= 1 /\ 0 <= b <= 1) /\ (r = 1 \/ g = 1 \/ b = 1).

(** A pure hue, as the documentation of [interpolateTints] describes it: the
    components lie in the unit interval, one of them is 1 and another is 0. *)
Definition pure_hue (r g b : R) : Prop :=
  (0 <= r <= 1 /\ 0 <= g <= 1 /\ 0 <= b <= 1)
  /\ (r = 0 \/ g = 0 \/ b = 0) /\ (r = 1 \/ g = 1 \/ b = 1).

(** Entry [i] of the tint array, from the body of the loop. *)
Definition tint_channel (c : R) (i : nat) : R :=
  Rmax c (1 - (1 - c) / 255 * INR i).

Definition tint_entry (r g b : R) (i : nat) : tint :=
  (Fin (tint_channel r i), Fin (tint_channel g i), Fin (tint_channel b i)).

(** Componentwise order on tints, with the comparison of the language. *)
Definition tint_le (s t : tint) : Prop :=
  let '(sr, sg, sb) := s in
  let '(tr, tg, tb) := t in
  (sr <=? tr)%num = true /\ (sg <=? tg)%num = true /\ (sb <=? tb)%num = true.

(** The value [shadeToLuminance] returns on a real target and a pure tint. *)
Definition shade (t r g b : R) : R :=
  let scaledLuminance := t / luminance r g b in
  if decide (scaledLuminance < 0.03928 / 12.92) then scaledLuminance * 12.92
  else Rpower scaledLuminance (1 / 2.4) * 1.055 - 0.055.

(** A state of the page for examples: the given variables, and elements as
    they are before any handler has run (the style sheet starts
    [--selected-colour] at aqua and the indicator border at black; nothing is
    drawn yet). *)
Definition page (hue : tint) (tints : list tint) (left bottom : num)
    (mode : string) (ratio upper lower : num) (input : string)
    (width height : num) : picker :=
  {| current_hue := hue;
     current_tints := tints;
     current_colour := (Fin 1, Fin 1, Fin 1);
     current_luminance := Fin 1;
     line_mode := mode;
     position_left := left;
     position_bottom := bottom;
     contrast_ratio := ratio;
     contrast_upper_luminance := upper;
     contrast_lower_luminance := lower;
     selected_colour := (Fin 0, Fin 255, Fin 255);
     preview_luminance := Fixed (Fin 1) 5;
     indicator_border := "black";
     contrast_colour_input := input;
     contrast_minimum_luminance := Fixed upper 5;
     contrast_maximum_luminance := Fixed lower 5;
     chart_image := [];
     line_width := width;
     line_height := height;
     line_calls := [] |}.

(** Pure red with the pointer at left = 0, bottom = 0. *)
Definition red_at_left_0 : picker :=
  page (Fin 1, Fin 0, Fin 0) [] (Fin 0) (Fin 0) "NONE"
    (Fin 4.5) (Fin 1) (Fin 0) "#FFFFFF" (Fin 256) (Fin 256).

(** A tint of finite components that form a pure tint. *)
Definition is_pure_tint (t : tint) : Prop :=
  exists r g b : R, t = (Fin r, Fin g, Fin b) /\ pure_tint r g b.

(** A target that passes the range guard: NaN, or a real of the unit
    interval. *)
Definition passes_guard (t : num) : Prop :=
  t = NaN \/ exists x : R, t = Fin x /\ 0 <= x <= 1.

(** A reference colour whose green component is not hexadecimal. *)
Definition unparsable_reference : picker :=
  page (Fin 0, Fin 1, Fin 1) [] (Fin 1) (Fin 0) "COLOUR"
    (Fin 4.5) (Fin 1) (Fin 0) "#12zz56" (Fin 256) (Fin 256).

(** Reference colour white at ratio 21, over the tints of aqua. *)
Definition white_reference_21 : picker :=
  page (Fin 0, Fin 1, Fin 1) (map (tint_entry 0 1 1) (seq 0 256))
    (Fin 1) (Fin 0) "COLOUR" (Fin 21) (Fin 1) (Fin 0) "#FFFFFF"
    (Fin 256) (Fin 256).

(** The vertex the overlay places on column [j] for a real target: abscissa
    [j / 255 * width], ordinate [(1 - shade) * height] with the shade of
    tint [j]. *)
Definition overlay_point (r g b target : R) (width height : num) (j : nat)
  : num * num :=
  ((Fin (INR j / 255) * width)%num,
   (Fin (1 - shade target (tint_channel r j) (tint_channel g j)
                 (tint_channel b j)) * height)%num).

(** [lineTo] to a vertex. *)
Definition line_to_point (p : num * num) : canvas_op := LineTo p.1 p.2.

(** Pure red in black/white mode on a 256 x 256 overlay. *)
Definition bw_red : picker :=
  page (Fin 1, Fin 0, Fin 0) (map (tint_entry 1 0 0) (seq 0 256))
    (Fin 1) (Fin 0) "B/W" (Fin 4.5) (Fin 1) (Fin 0) "#FFFFFF"
    (Fin 256) (Fin 256).

(** The byte [renderChart] stores for one channel [t] of a tint in row [i]. *)
Definition chart_channel (t : num) (i : nat) : Z :=
  toUint8Clamp ((t - t / 255 * Num.of_nat i) * 255)%num.

(** Index of the first byte of pixel (row [i], column [j]). *)
Definition pixel_index (i j : nat) : nat := ((i * 256 + j) * 4)%nat.

(** The four bytes at [idx] are those of tint [t] in row [i], opaque. *)
Definition pixel_is (data : list Z) (idx : nat) (t : tint) (i : nat) : Prop :=
  let '(tr, tg, tb) := t in
  data !! idx = Some (chart_channel tr i)
  /\ data !! (idx + 1)%nat = Some (chart_channel tg i)
  /\ data !! (idx + 2)%nat = Some (chart_channel tb i)
  /\ data !! (idx + 3)%nat = Some 255%Z.

(** Pure red, for the chart. *)
Definition red_chart : picker :=
  page (Fin 1, Fin 0, Fin 0) (map (tint_entry 1 0 0) (seq 0 256))
    (Fin 1) (Fin 0) "NONE" (Fin 4.5) (Fin 1) (Fin 0) "#FFFFFF"
    (Fin 256) (Fin 256).

(** An argument the range guard rejects: not of type number, or a real
    below 0 or above 1. *)
Definition rejected (v : value) : Prop :=
  typeof v <> "number"%string
  \/ exists x : R, v = VNum (Fin x) /\ (x < 0 \/ 1 < x).

(** The value of [Math.round(component * 255) / 255] on a real. *)
Definition clamp8 (x : R) : R := IZR (Zfloor (x * 255 + / 2)) / 255.

(** The component [recalculateColour] computes before rounding, for the hue
    component [h] and the position [(left, bottom)]. *)
Definition blend (h left bottom : R) : R := (1 + (h - 1) * left) * (1 - bottom).

(** The hue orange with the pointer in the top right corner. *)
Definition orange_at_top_right : picker :=
  page (Fin (255 / 255), Fin (128 / 255), Fin (0 / 255)) [] (Fin 1) (Fin 0)
    "NONE" (Fin 4.5) (Fin 1) (Fin 0) "#FFFFFF" (Fin 256) (Fin 256).




(** A three-digit colour text in the reference field. *)
Definition short_reference : picker :=
  page (Fin 0, Fin 1, Fin 1) [] (Fin 1) (Fin 0) "COLOUR"
    (Fin 4.5) (Fin 1) (Fin 0) "#FFF" (Fin 256) (Fin 256).


(** Pure red in colour mode with both bounds inside the unit interval. *)
Definition colour_red : picker :=
  page (Fin 1, Fin 0, Fin 0) (map (tint_entry 1 0 0) (seq 0 256))
    (Fin 1) (Fin 0) "COLOUR" (Fin 4.5) (Fin 0.5) (Fin 0.1) "#FFFFFF"
    (Fin 256) (Fin 256).

(** Orange [(255, 128, 0)] with its tints, the pointer at column 100 and
    row 50 of the 256 x 256 grid. *)
Definition orange_field : picker :=
  page (Fin (INR 255 / 255), Fin (INR 128 / 255), Fin (INR 0 / 255))
    (map (tint_entry (INR 255 / 255) (INR 128 / 255) (INR 0 / 255))
       (seq 0 256))
    (Fin (INR 100 / 255)) (Fin (INR 50 / 255)) "NONE"
    (Fin 4.5) (Fin 1) (Fin 0) "#FFFFFF" (Fin 256) (Fin 256).

(** ** The event handlers and the page around them *)

(** Assignment to [position_left] and [position_bottom]. *)
Definition set_position (s : picker) (left bottom : num) : picker :=
  {| current_hue := current_hue s;
     current_tints := current_tints s;
     current_colour := current_colour s;
     current_luminance := current_luminance s;
     line_mode := line_mode s;
     position_left := left;
     position_bottom := bottom;
     contrast_ratio := contrast_ratio s;
     contrast_upper_luminance := contrast_upper_luminance s;
     contrast_lower_luminance := contrast_lower_luminance s;
     selected_colour := selected_colour s;
     preview_luminance := preview_luminance s;
     indicator_border := indicator_border s;
     contrast_colour_input := contrast_colour_input s;
     contrast_minimum_luminance := contrast_minimum_luminance s;
     contrast_maximum_luminance := contrast_maximum_luminance s;
     chart_image := chart_image s;
     line_width := line_width s;
     line_height := line_height s;
     line_calls := line_calls s |}.

(** Assignment to [contrast_ratio]. *)
Definition set_ratio (s : picker) (ratio : num) : picker :=
  {| current_hue := current_hue s;
     current_tints := current_tints s;
     current_colour := current_colour s;
     current_luminance := current_luminance s;
     line_mode := line_mode s;
     position_left := position_left s;
     position_bottom := position_bottom s;
     contrast_ratio := ratio;
     contrast_upper_luminance := contrast_upper_luminance s;
     contrast_lower_luminance := contrast_lower_luminance s;
     selected_colour := selected_colour s;
     preview_luminance := preview_luminance s;
     indicator_border := indicator_border s;
     contrast_colour_input := contrast_colour_input s;
     contrast_minimum_luminance := contrast_minimum_luminance s;
     contrast_maximum_luminance := contrast_maximum_luminance s;
     chart_image := chart_image s;
     line_width := line_width s;
     line_height := line_height s;
     line_calls := line_calls s |}.

(** Assignment to [line_mode]. *)
Definition set_mode (s : picker) (mode : string) : picker :=
  {| current_hue := current_hue s;
     current_tints := current_tints s;
     current_colour := current_colour s;
     current_luminance := current_luminance s;
     line_mode := mode;
     position_left := position_left s;
     position_bottom := position_bottom s;
     contrast_ratio := contrast_ratio s;
     contrast_upper_luminance := contrast_upper_luminance s;
     contrast_lower_luminance := contrast_lower_luminance s;
     selected_colour := selected_colour s;
     preview_luminance := preview_luminance s;
     indicator_border := indicator_border s;
     contrast_colour_input := contrast_colour_input s;
     contrast_minimum_luminance := contrast_minimum_luminance s;
     contrast_maximum_luminance := contrast_maximum_luminance s;
     chart_image := chart_image s;
     line_width := line_width s;
     line_height := line_height s;
     line_calls := line_calls s |}.

(** Assignment to [current_hue] and [current_tints]. *)
Definition set_hue (s : picker) (hue : tint) (tints : list tint) : picker :=
  {| current_hue := hue;
     current_tints := tints;
     current_colour := current_colour s;
     current_luminance := current_luminance s;
     line_mode := line_mode s;
     position_left := position_left s;
     position_bottom := position_bottom s;
     contrast_ratio := contrast_ratio s;
     contrast_upper_luminance := contrast_upper_luminance s;
     contrast_lower_luminance := contrast_lower_luminance s;
     selected_colour := selected_colour s;
     preview_luminance := preview_luminance s;
     indicator_border := indicator_border s;
     contrast_colour_input := contrast_colour_input s;
     contrast_minimum_luminance := contrast_minimum_luminance s;
     contrast_maximum_luminance := contrast_maximum_luminance s;
     chart_image := chart_image s;
     line_width := line_width s;
     line_height := line_height s;
     line_calls := line_calls s |}.

(** The text of the reference colour field after the user has edited it. *)
Definition set_reference (s : picker) (text : string) : picker :=
  {| current_hue := current_hue s;
     current_tints := current_tints s;
     current_colour := current_colour s;
     current_luminance := current_luminance s;
     line_mode := line_mode s;
     position_left := position_left s;
     position_bottom := position_bottom s;
     contrast_ratio := contrast_ratio s;
     contrast_upper_luminance := contrast_upper_luminance s;
     contrast_lower_luminance := contrast_lower_luminance s;
     selected_colour := selected_colour s;
     preview_luminance := preview_luminance s;
     indicator_border := indicator_border s;
     contrast_colour_input := text;
     contrast_minimum_luminance := contrast_minimum_luminance s;
     contrast_maximum_luminance := contrast_maximum_luminance s;
     chart_image := chart_image s;
     line_width := line_width s;
     line_height := line_height s;
     line_calls := line_calls s |}.

(** The event of a mouse listener, and the rectangle
    [saturation_element.getBoundingClientRect()] at that moment. *)
Record mouse : Type := { clientX : num; clientY : num }.

Record rect : Type := {
  rect_left : num; rect_right : num; rect_top : num; rect_bottom : num
}.

(** The page: the variables and elements of [picker], and what the other
    handlers read and write.  [contrast_ratio_field] is the number that
    [parseFloat] reads in the ratio field; [position_style] is the pair of
    percentages in [colour_position.style.left] and [.top];
    [indicator_size] is [colour_indicator.style.width] and [.height];
    [cursor_pointer] tells whether the body has the class [cursor-pointer];
    [onmousemove] and [onmouseup] tell whether [document.onmousemove] is
    [moveIndicator] and whether [document.onmouseup] is the release
    handler. *)
Record document : Type := {
  vars : picker;
  hue_slider_value : string;
  hue_input_value : string;
  contrast_ratio_field : num;
  position_style : num * num;
  indicator_size : string;
  cursor_pointer : bool;
  onmousemove : bool;
  onmouseup : bool
}.

(** The page with new variables. *)
Definition with_vars (d : document) (s : picker) : document :=
  {| vars := s;
     hue_slider_value := hue_slider_value d;
     hue_input_value := hue_input_value d;
     contrast_ratio_field := contrast_ratio_field d;
     position_style := position_style d;
     indicator_size := indicator_size d;
     cursor_pointer := cursor_pointer d;
     onmousemove := onmousemove d;
     onmouseup := onmouseup d |}.

(** Assignment to [colour_position.style.left] and [.top]. *)
Definition with_position_style (d : document) (left top : num) : document :=
  {| vars := vars d;
     hue_slider_value := hue_slider_value d;
     hue_input_value := hue_input_value d;
     contrast_ratio_field := contrast_ratio_field d;
     position_style := (left, top);
     indicator_size := indicator_size d;
     cursor_pointer := cursor_pointer d;
     onmousemove := onmousemove d;
     onmouseup := onmouseup d |}.

(** The ratio field holding the text of [value]. *)
Definition with_ratio_field (d : document) (value : num) : document :=
  {| vars := vars d;
     hue_slider_value := hue_slider_value d;
     hue_input_value := hue_input_value d;
     contrast_ratio_field := value;
     position_style := position_style d;
     indicator_size := indicator_size d;
     cursor_pointer := cursor_pointer d;
     onmousemove := onmousemove d;
     onmouseup := onmouseup d |}.

(** The hue slider holding [value]. *)
Definition with_hue_slider (d : document) (value : string) : document :=
  {| vars := vars d;
     hue_slider_value := value;
     hue_input_value := hue_input_value d;
     contrast_ratio_field := contrast_ratio_field d;
     position_style := position_style d;
     indicator_size := indicator_size d;
     cursor_pointer := cursor_pointer d;
     onmousemove := onmousemove d;
     onmouseup := onmouseup d |}.

(** The hue number field holding [value]. *)
Definition with_hue_input (d : document) (value : string) : document :=
  {| vars := vars d;
     hue_slider_value := hue_slider_value d;
     hue_input_value := value;
     contrast_ratio_field := contrast_ratio_field d;
     position_style := position_style d;
     indicator_size := indicator_size d;
     cursor_pointer := cursor_pointer d;
     onmousemove := onmousemove d;
     onmouseup := onmouseup d |}.

(** The end of [saturation_element.onmousedown]: both document handlers installed, the indicator enlarged, the pointer cursor on. *)
Definition pressed (d : document) : document :=
  {| vars := vars d;
     hue_slider_value := hue_slider_value d;
     hue_input_value := hue_input_value d;
     contrast_ratio_field := contrast_ratio_field d;
     position_style := position_style d;
     indicator_size := "2em";
     cursor_pointer := true;
     onmousemove := true;
     onmouseup := true |}.

(** The handler installed in [document.onmouseup]: [document.onmousemove] is reset, the indicator shrinks, the pointer cursor goes. *)
Definition released (d : document) : document :=
  {| vars := vars d;
     hue_slider_value := hue_slider_value d;
     hue_input_value := hue_input_value d;
     contrast_ratio_field := contrast_ratio_field d;
     position_style := position_style d;
     indicator_size := "1em";
     cursor_pointer := false;
     onmousemove := false;
     onmouseup := onmouseup d |}.

(** [moveIndicator] (lines 162-171). *)
Definition moveIndicator (e : mouse) (r : rect) (d : document)
  : result document :=
  let left :=
    Num.max
      (Num.min ((clientX e - rect_left r) / (rect_right r - rect_left r))%num
         1) 0 in
  let bottom :=
    Num.max
      (Num.min ((clientY e - rect_top r) / (rect_bottom r - rect_top r))%num
         1) 0 in
  s' ← recalculateColour (set_position (vars d) left bottom);
  Ok (with_vars (with_position_style d (left * 100)%num (bottom * 100)%num) s').

(** [saturation_element.onmousedown] (lines 173-186). *)
Definition onmousedown (e : mouse) (r : rect) (d : document)
  : result document :=
  d' ← moveIndicator e r d;
  Ok (pressed d').

(** A [mousemove] on the document: [document.onmousemove], when set. *)
Definition document_mousemove (e : mouse) (r : rect) (d : document)
  : result document :=
  if onmousemove d then moveIndicator e r d else Ok d.

(** A [mouseup] on the document: [document.onmouseup], when set. *)
Definition document_mouseup (d : document) : result document :=
  if onmouseup d then Ok (released d) else Ok d.

(** The [input] listener of the ratio field (lines 300-307); [value] is
    [parseFloat(e.currentTarget.value)]. *)
Definition ratio_oninput (value : num) (d : document) : result document :=
  let d := with_ratio_field d value in
  if negb (Num.isNaN value) then
    let ratio := Num.max 1 (Num.min 21 value) in
    s' ← recalculateContrast (set_ratio (vars d) ratio);
    Ok (with_vars (with_ratio_field d ratio) s')
  else Ok d.

(** The [input] listener of the reference colour field (line 308), the
    field holding [text]. *)
Definition colour_oninput (text : string) (d : document) : result document :=
  s' ← recalculateContrast (set_reference (vars d) text);
  Ok (with_vars d s').

(** The [change] listener of a line radio button (lines 390-393). *)
Definition radio_onchange (value : string) (d : document) : result document :=
  s' ← renderLines (set_mode (vars d) value);
  Ok (with_vars d s').

(** [recalculateHue] (lines 137-150) after the style engine has done its
    part: [captures] are the three groups of
    [/rgb\((\d+), (\d+), (\d+)\)/] in the computed background colour of
    the field, read by [parseInt], or [None] when the expression does not
    match ([hue_rgb_array] is then [null]). *)
Definition recalculateHue (captures : option (nat * nat * nat)) (s : picker)
  : result picker :=
  match captures with
  | None => Throw "TypeError"
  | Some (r, g, b) =>
      let hue :=
        (Num.of_nat r / 255, Num.of_nat g / 255, Num.of_nat b / 255)%num in
      let '(red, green, blue) := hue in
      tints ← interpolateTints (VNum red) (VNum green) (VNum blue);
      s1 ← recalculateColour (set_hue s hue tints);
      s2 ← renderChart s1;
      renderLines s2
  end.

Section Browser.

(** The style engine: for the text [v] of the hue slider, the captures found
    in the computed background colour once [--selected-hue] is
    [hsl(parseFloat(v), 100%, 50%)]. *)
Variable computed_hue : string -> option (nat * nat * nat).

(** The value an element takes when a script assigns a text to it. *)
Variable slider_takes : string -> string.
Variable input_takes : string -> string.

(** An [input] event on the slider, which holds [value]: [recalculateHue],
    then the copy to the number field (lines 152 and 154). *)
Definition hue_slider_oninput (value : string) (d : document)
  : result document :=
  let d := with_hue_slider d value in
  s' ← recalculateHue (computed_hue (hue_slider_value d)) (vars d);
  Ok (with_hue_input (with_vars d s') (input_takes value)).

(** An [input] event on the number field, which holds [value]:
    [recalculateHue], then the copy to the slider (lines 153 and 155). *)
Definition hue_input_oninput (value : string) (d : document)
  : result document :=
  let d := with_hue_input d value in
  s' ← recalculateHue (computed_hue (hue_slider_value d)) (vars d);
  Ok (with_hue_slider (with_vars d s') (slider_takes value)).

(** The events of the page. *)
Inductive event : Type :=
| MouseDown (e : mouse) (r : rect)
| MouseMove (e : mouse) (r : rect)
| MouseUp
| RatioInput (value : num)
| ColourInput (text : string)
| RadioChange (value : string)
| HueSliderInput (value : string)
| HueFieldInput (value : string).

Definition handle (ev : event) (d : document) : result document :=
  match ev with
  | MouseDown e r => onmousedown e r d
  | MouseMove e r => document_mousemove e r d
  | MouseUp => document_mouseup d
  | RatioInput value => ratio_oninput value d
  | ColourInput text => colour_oninput text d
  | RadioChange value => radio_onchange value d
  | HueSliderInput value => hue_slider_oninput value d
  | HueFieldInput value => hue_input_oninput value d
  end.

(** A sequence of events, handled in order until one throws. *)
Fixpoint run (evs : list event) (d : document) : result document :=
  match evs with
  | [] => Ok d
  | ev :: rest => d' ← handle ev d; run rest d'
  end.

(** The end of the [DOMContentLoaded] listener (lines 156 and 395-399): the
    number field takes the slider's value, then the five calls. *)
Definition startup (d : document) : result document :=
  let d := with_hue_input d (input_takes (hue_slider_value d)) in
  s1 ← recalculateHue (computed_hue (hue_slider_value d)) (vars d);
  s2 ← recalculateColour s1;
  s3 ← recalculateContrast s2;
  s4 ← renderChart s3;
  s5 ← renderLines s4;
  Ok (with_vars d s5).

End Browser.

(** The variables as the listener initialises them (lines 126-131, 160-161
    and 266-268), for given contents of the page. *)
Definition initial_picker (reference : string) (width height : num)
    (minimum maximum shown : text) (border : string) : picker :=
  {| current_hue := (Fin 0, Fin 1, Fin 1);
     current_tints :=
       match interpolateTints (VNum (Fin 0)) (VNum (Fin 1)) (VNum (Fin 1)) with
       | Ok tints => tints
       | Throw _ => []
       end;
     current_colour := (Fin 1, Fin 1, Fin 1);
     current_luminance := Fin 1;
     line_mode := "NONE";
     position_left := Fin 1;
     position_bottom := Fin 0;
     contrast_ratio := Fin 4.5;
     contrast_upper_luminance := Fin 1;
     contrast_lower_luminance := Fin 0;
     selected_colour := (Fin 0, Fin 255, Fin 255);
     preview_luminance := shown;
     indicator_border := border;
     contrast_colour_input := reference;
     contrast_minimum_luminance := minimum;
     contrast_maximum_luminance := maximum;
     chart_image := [];
     line_width := width;
     line_height := height;
     line_calls := [] |}.

(** ** Valid states *)

(** The tints are those of the current hue, a pure hue. *)
Definition tints_of_hue (s : picker) : Prop :=
  exists r g b : R,
    pure_hue r g b
    /\ current_hue s = (Fin r, Fin g, Fin b)
    /\ current_tints s = map (tint_entry r g b) (seq 0 256).

(** The pointer is inside the unit square. *)
Definition pointer_in_field (s : picker) : Prop :=
  exists p q : R,
    position_left s = Fin p /\ 0 <= p <= 1
    /\ position_bottom s = Fin q /\ 0 <= q <= 1.

(** The contrast ratio lies in [1, 21]. *)
Definition ratio_in_range (s : picker) : Prop :=
  exists ratio : R, contrast_ratio s = Fin ratio /\ 1 <= ratio <= 21.

(** The current colour is 8-bit and the current luminance is its
    luminance. *)
Definition colour_consistent (s : picker) : Prop :=
  exists (kr kg kb : Z),
    (0 <= kr <= 255)%Z /\ (0 <= kg <= 255)%Z /\ (0 <= kb <= 255)%Z
    /\ current_colour s
       = (Fin (IZR kr / 255), Fin (IZR kg / 255), Fin (IZR kb / 255))
    /\ calcLuminance (VNum (Fin (IZR kr / 255))) (VNum (Fin (IZR kg / 255)))
         (VNum (Fin (IZR kb / 255))) = Ok (current_luminance s).

Definition valid (s : picker) : Prop :=
  tints_of_hue s /\ pointer_in_field s /\ ratio_in_range s
  /\ colour_consistent s.

(** Captures that are the bytes of a pure hue. *)
Definition pure_captures (captures : option (nat * nat * nat)) : Prop :=
  exists r g b : nat,
    captures = Some (r, g, b)
    /\ (r <= 255)%nat /\ (g <= 255)%nat /\ (b <= 255)%nat
    /\ (r = 0 \/ g = 0 \/ b = 0)%nat /\ (r = 255 \/ g = 255 \/ b = 255)%nat.

(** A mouse event with real coordinates over a rectangle of positive
    size. *)
Definition over_field (e : mouse) (r : rect) : Prop :=
  exists x y rl rr rt rb : R,
    clientX e = Fin x /\ clientY e = Fin y
    /\ rect_left r = Fin rl /\ rect_right r = Fin rr
    /\ rect_top r = Fin rt /\ rect_bottom r = Fin rb
    /\ rl < rr /\ rt < rb.

(** An event the page can receive while the style engine yields a pure hue
    for the slider text that [recalculateHue] is going to read. *)
Definition well_formed (computed_hue : string -> option (nat * nat * nat))
    (slider_takes : string -> string) (ev : event) : Prop :=
  match ev with
  | MouseDown e r => over_field e r
  | MouseMove e r => over_field e r
  | MouseUp => True
  | RatioInput value => True
  | ColourInput text => True
  | RadioChange value => True
  | HueSliderInput value => pure_captures (computed_hue value)
  | HueFieldInput value => pure_captures (computed_hue (slider_takes value))
  end.

(** A valid page: valid variables, and a slider text for which the style
    engine yields a pure hue. *)
Definition valid_document (computed_hue : string -> option (nat * nat * nat))
    (d : document) : Prop :=
  valid (vars d) /\ pure_captures (computed_hue (hue_slider_value d)).

(** A page over given variables, before any mouse button was pressed. *)
Definition page_of (s : picker) (slider : string) : document :=
  {| vars := s;
     hue_slider_value := slider;
     hue_input_value := slider;
     contrast_ratio_field := contrast_ratio s;
     position_style := (Fin 100, Fin 0);
     indicator_size := "1em";
     cursor_pointer := false;
     onmousemove := false;
     onmouseup := false |}.

(** A click at (300, 120) on a field that occupies (100, 50)-(500, 450). *)
Definition sample_click : mouse := {| clientX := Fin 300; clientY := Fin 120 |}.

Definition sample_rect : rect :=
  {| rect_left := Fin 100; rect_right := Fin 500;
     rect_top := Fin 50; rect_bottom := Fin 450 |}.

(** A style engine that answers aqua for every slider text. *)
Definition always_aqua (v : string) : option (nat * nat * nat) :=
  Some (0, 255, 255)%nat.

(** * Properties *)

(** ** Comparisons and the range guard *)

Ltac num_unfold :=
  unfold Num.gtb, Num.geb, Num.neqb, Num.max, Num.min, Num.add, Num.sub,
    Num.mul, Num.isNaN, Num.of_nat, Num.of_Z in *;
  unfold Num.ltb, Num.leb, Num.eqb, Num.div, Num.lift2, Num.pow in *;
  cbv beta iota in *.

Ltac num_cases :=
  cbn [mbind result_bind] in *; num_unfold;
  repeat first
    [ case_bool_decide
    | case_decide
    | progress cbn [negb andb orb] in * ];
  try lra; try congruence; try reflexivity; try (f_equal; lra).

Lemma check_unit_fin (name : string) (x : R) :
  0 <= x <= 1 -> check_unit name (VNum (Fin x)) = Ok (Fin x).
Proof. intros H. unfold check_unit. num_cases. Qed.

Lemma check_unit_nan (name : string) : check_unit name (VNum NaN) = Ok NaN.
Proof. reflexivity. Qed.

Lemma check_unit_out (name : string) (x : R) :
  x < 0 \/ 1 < x -> check_unit name (VNum (Fin x)) = Throw (range_error name).
Proof. intros H. unfold check_unit. num_cases. Qed.

(** ** [linearize] and [calcLuminance] on the reals of the unit interval *)

Lemma linearize_fin (c : R) :
  0 <= c <= 1 -> linearize (VNum (Fin c)) = Ok (Fin (linear c)).
Proof.
  intros H. unfold linearize. rewrite (check_unit_fin _ _ H).
  unfold linear. num_cases.
Qed.

Lemma Rpower_1_l (e : R) : Rpower 1 e = 1.
Proof. unfold Rpower. rewrite ln_1, Rmult_0_r. apply exp_0. Qed.

Lemma linear_0 : linear 0 = 0.
Proof. unfold linear. case_decide; lra. Qed.

Lemma linear_1 : linear 1 = 1.
Proof.
  unfold linear. case_decide; [lra|].
  replace ((1 + 0.055) / 1.055) with 1 by lra. apply Rpower_1_l.
Qed.

Lemma linear_bounds (c : R) : 0 <= c <= 1 -> 0 <= linear c <= 1.
Proof.
  intros H. unfold linear. case_decide; [lra|].
  assert (Hb : 0 < (c + 0.055) / 1.055 <= 1).
  { lra. }
  split.
  - left. apply exp_pos.
  - rewrite <- (Rpower_1_l 2.4). apply Rle_Rpower_l; lra.
Qed.

Lemma linear_lt_1 (c : R) : 0 <= c < 1 -> linear c < 1.
Proof.
  intros H. unfold linear. case_decide; [lra|].
  rewrite <- (Rpower_1_l 2.4). apply Rlt_Rpower_l; [lra|].
  lra.
Qed.

Lemma calcLuminance_fin (r g b : R) :
  0 <= r <= 1 -> 0 <= g <= 1 -> 0 <= b <= 1 ->
  calcLuminance (VNum (Fin r)) (VNum (Fin g)) (VNum (Fin b))
  = Ok (Fin (luminance r g b)).
Proof.
  intros Hr Hg Hb. unfold calcLuminance.
  rewrite !check_unit_fin by assumption. cbn [mbind result_bind].
  rewrite !linearize_fin by assumption. reflexivity.
Qed.

Lemma luminance_bounds (r g b : R) :
  0 <= r <= 1 -> 0 <= g <= 1 -> 0 <= b <= 1 -> 0 <= luminance r g b <= 1.
Proof.
  intros Hr Hg Hb. unfold luminance.
  pose proof (linear_bounds r Hr). pose proof (linear_bounds g Hg).
  pose proof (linear_bounds b Hb). lra.
Qed.

Lemma calcLuminance_pure_tint (r g b : R) :
  pure_tint r g b -> 0 < luminance r g b <= 1.
Proof.
  intros [(Hr & Hg & Hb) H1].
  pose proof (luminance_bounds r g b Hr Hg Hb) as HL.
  split; [|lra]. unfold luminance.
  pose proof (linear_bounds r Hr). pose proof (linear_bounds g Hg).
  pose proof (linear_bounds b Hb).
  destruct H1 as [-> | [-> | ->]]; rewrite linear_1; lra.
Qed.

(** ** [interpolateTints] *)

Lemma for_upto_push {A : Type} (f : nat -> A) (n : nat) (l : list A) :
  for_upto n (fun i acc => acc ++ [f i]) l = l ++ map f (seq 0 n).
Proof.
  unfold for_upto. generalize 0%nat. revert l.
  induction n as [|n IH]; intros l k; cbn [seq fold_left map].
  - by rewrite app_nil_r.
  - rewrite IH, <- app_assoc. reflexivity.
Qed.

Lemma interpolateTints_fin (r g b : R) :
  pure_hue r g b ->
  interpolateTints (VNum (Fin r)) (VNum (Fin g)) (VNum (Fin b))
  = Ok (map (tint_entry r g b) (seq 0 256)).
Proof.
  intros ((Hr & Hg & Hb) & H0 & H1). unfold interpolateTints.
  rewrite !check_unit_fin by assumption. cbn [mbind result_bind].
  replace (_ || _ || _) with false.
  2:{ num_cases; exfalso; intuition lra. }

  rewrite for_upto_push. cbn [app]. f_equal.
  apply map_ext. intros i. unfold tint_entry, tint_channel. num_cases.
Qed.

Lemma interpolateTints_lookup (r g b : R) (i : nat) :
  (i <= 255)%nat ->
  map (tint_entry r g b) (seq 0 256) !! i = Some (tint_entry r g b i).
Proof.
  intros Hi. rewrite list_lookup_fmap, lookup_seq_lt by lia. reflexivity.
Qed.

Lemma tint_entry_first (r g b : R) :
  0 <= r <= 1 -> 0 <= g <= 1 -> 0 <= b <= 1 ->
  tint_entry r g b 0 = (Fin 1, Fin 1, Fin 1).
Proof.
  intros Hr Hg Hb. unfold tint_entry, tint_channel. cbn [INR].
  rewrite !Rmult_0_r, !Rminus_0_r, !Rmax_right by lra. reflexivity.
Qed.

Lemma tint_entry_last (r g b : R) :
  tint_entry r g b 255 = (Fin r, Fin g, Fin b).
Proof.
  unfold tint_entry, tint_channel. rewrite INR_IZR_INZ. change (Z.of_nat 255) with 255%Z.
  rewrite !Rmax_left by lra. reflexivity.
Qed.

Lemma tint_entry_antitone (r g b : R) (i j : nat) :
  0 <= r <= 1 -> 0 <= g <= 1 -> 0 <= b <= 1 ->
  (i <= j)%nat -> tint_le (tint_entry r g b j) (tint_entry r g b i).
Proof.
  intros Hr Hg Hb Hij. apply le_INR in Hij.
  pose proof (pos_INR i) as Hi.
  unfold tint_le, tint_entry, tint_channel, Num.leb.
  rewrite !bool_decide_eq_true.
  repeat split; apply Rmax_case; try apply Rmax_l;
    (eapply Rle_trans; [|apply Rmax_r]); nra.
Qed.

Lemma Ok_inj {A : Type} (a b : A) : Ok a = Ok b -> a = b.
Proof. by intros [= ->]. Qed.

Lemma pure_hue_red : pure_hue 1 0 0.
Proof. unfold pure_hue. lra. Defined.

(** C1 (as amended).  For every pure hue, [interpolateTints] returns 256
    entries; entry 0 is white (1, 1, 1); every channel is non-increasing as
    the index grows and never falls below the channel of the hue; entry 255,
    the end next to the hue, is the triple of
    [max(c, 1 - ((1 - c) / 255) * 255)] over the channels [c] of the hue. *)
Theorem interpolateTints_white_to_hue (r g b : R) :
  pure_hue r g b ->
  exists l : list tint,
    interpolateTints (VNum (Fin r)) (VNum (Fin g)) (VNum (Fin b)) = Ok l
    /\ length l = 256%nat
    /\ l !! 0%nat = Some (Fin 1, Fin 1, Fin 1)
    /\ l !! 255%nat
       = Some (Fin (Rmax r (1 - (1 - r) / 255 * 255)),
               Fin (Rmax g (1 - (1 - g) / 255 * 255)),
               Fin (Rmax b (1 - (1 - b) / 255 * 255)))
    /\ (forall (i : nat) (ti : tint),
          l !! i = Some ti -> tint_le (Fin r, Fin g, Fin b) ti)
    /\ forall (i j : nat) (ti tj : tint),
         (i <= j)%nat -> l !! i = Some ti -> l !! j = Some tj ->
         tint_le tj ti.
Proof.
  intros H. pose proof H as ((Hr & Hg & Hb) & _).
  eexists. split; [apply interpolateTints_fin, H|].
  split; [by rewrite length_map, length_seq|].
  split; [rewrite interpolateTints_lookup by lia;
          by rewrite tint_entry_first|].
  split.
  { rewrite interpolateTints_lookup by lia.
    unfold tint_entry, tint_channel. rewrite INR_IZR_INZ.
    reflexivity. }
  split.
  - intros i ti Hi.
    assert (Hi' : (i <= 255)%nat).
    { apply lookup_lt_Some in Hi. rewrite length_map, length_seq in Hi. lia. }
    rewrite interpolateTints_lookup in Hi by lia. injection Hi as <-.
    unfold tint_le, tint_entry, tint_channel, Num.leb.
    rewrite !bool_decide_eq_true. repeat split; apply Rmax_l.
  - intros i j ti tj Hij Hi Hj.
    assert (Hj' : (j <= 255)%nat).
    { apply lookup_lt_Some in Hj. rewrite length_map, length_seq in Hj. lia. }
    rewrite interpolateTints_lookup in Hi, Hj by lia.
    injection Hi as <-. injection Hj as <-.
    by apply tint_entry_antitone.
Qed.

Lemma interpolateTints_white_to_hue_witness :
  pure_hue 1 0 0 /\
  exists l : list tint,
    interpolateTints (VNum (Fin 1)) (VNum (Fin 0)) (VNum (Fin 0)) = Ok l
    /\ length l = 256%nat
    /\ l !! 0%nat = Some (Fin 1, Fin 1, Fin 1)
    /\ l !! 255%nat
       = Some (Fin (Rmax 1 (1 - (1 - 1) / 255 * 255)),
               Fin (Rmax 0 (1 - (1 - 0) / 255 * 255)),
               Fin (Rmax 0 (1 - (1 - 0) / 255 * 255)))
    /\ (forall (i : nat) (ti : tint),
          l !! i = Some ti -> tint_le (Fin 1, Fin 0, Fin 0) ti)
    /\ forall (i j : nat) (ti tj : tint),
         (i <= j)%nat -> l !! i = Some ti -> l !! j = Some tj ->
         tint_le tj ti.
Proof.
  split; [exact pure_hue_red|].
  exact (interpolateTints_white_to_hue 1 0 0 pure_hue_red).
Defined.

(** C1 as stated fails at pure red: entry 0 of the array is white, not the
    hue. *)
Lemma interpolateTints_first_is_not_hue :
  ~ exists l : list tint,
      interpolateTints (VNum (Fin 1)) (VNum (Fin 0)) (VNum (Fin 0)) = Ok l
      /\ length l = 256%nat
      /\ l !! 0%nat = Some (Fin 1, Fin 0, Fin 0)
      /\ l !! 255%nat = Some (Fin 1, Fin 1, Fin 1)
      /\ forall (i j : nat) (ti tj : tint),
           (i <= j)%nat -> l !! i = Some ti -> l !! j = Some tj ->
           tint_le ti tj.
Proof.
  intros (l & Hl & _ & H0 & _).
  rewrite (interpolateTints_fin 1 0 0 pure_hue_red) in Hl.
  apply Ok_inj in Hl. subst l.
  rewrite interpolateTints_lookup, tint_entry_first in H0 by (lia || lra).
  injection H0 as H0. lra.
Qed.

(** C2.  For every pure hue and every index [i <= 255], entry [i] of the
    array is, in each channel, [max(hue, 1 - (1 - hue) / 255 * i)]; a channel
    whose hue component is 1 is exactly 1 at every index. *)
Theorem interpolateTints_entry (r g b : R) (i : nat) :
  pure_hue r g b -> (i <= 255)%nat ->
  exists l : list tint,
    interpolateTints (VNum (Fin r)) (VNum (Fin g)) (VNum (Fin b)) = Ok l
    /\ l !! i
       = Some (Num.max r (1 - (1 - r) / 255 * Num.of_nat i)%num,
               Num.max g (1 - (1 - g) / 255 * Num.of_nat i)%num,
               Num.max b (1 - (1 - b) / 255 * Num.of_nat i)%num)
    /\ forall tr tg tb : num,
         l !! i = Some (tr, tg, tb) ->
         (r = 1 -> tr = Fin 1) /\ (g = 1 -> tg = Fin 1)
         /\ (b = 1 -> tb = Fin 1).
Proof.
  intros H Hi. pose proof H as ((Hr & Hg & Hb) & _).
  eexists. split; [apply interpolateTints_fin, H|].
  rewrite interpolateTints_lookup by assumption.
  pose proof (pos_INR i) as Hpos.
  split.
  - unfold tint_entry, tint_channel. num_cases.
  - intros tr tg tb [= <- <- <-].
    repeat split; intros ->; f_equal; apply Rmax_left; nra.
Qed.

Lemma interpolateTints_entry_witness :
  pure_hue 1 0 0 /\ (3 <= 255)%nat /\
  exists l : list tint,
    interpolateTints (VNum (Fin 1)) (VNum (Fin 0)) (VNum (Fin 0)) = Ok l
    /\ l !! 3%nat
       = Some (Num.max 1 (1 - (1 - 1) / 255 * Num.of_nat 3)%num,
               Num.max 0 (1 - (1 - 0) / 255 * Num.of_nat 3)%num,
               Num.max 0 (1 - (1 - 0) / 255 * Num.of_nat 3)%num)
    /\ forall tr tg tb : num,
         l !! 3%nat = Some (tr, tg, tb) ->
         (1 = 1 -> tr = Fin 1) /\ (0 = 1 -> tg = Fin 1)
         /\ (0 = 1 -> tb = Fin 1).
Proof.
  split; [exact pure_hue_red|]. split; [lia|].
  apply (interpolateTints_entry 1 0 0 3 pure_hue_red). lia.
Defined.

(** ** [shadeToLuminance] *)

Lemma pure_tint_guard (r g b : R) :
  r = 1 \/ g = 1 \/ b = 1 ->
  ((Fin r !== 1) && (Fin g !== 1) && (Fin b !== 1))%num = false.
Proof. intros H. num_cases; exfalso; intuition lra. Qed.

Lemma shadeToLuminance_fin (t r g b : R) :
  0 <= t <= 1 -> pure_tint r g b ->
  shadeToLuminance (VNum (Fin t)) (VNum (Fin r)) (VNum (Fin g)) (VNum (Fin b))
  = Ok (Fin (shade t r g b)).
Proof.
  intros Ht Hp. pose proof (calcLuminance_pure_tint r g b Hp) as HL.
  destruct Hp as [(Hr & Hg & Hb) H1]. unfold shadeToLuminance.
  rewrite !check_unit_fin by assumption. cbn [mbind result_bind].
  rewrite pure_tint_guard by assumption.
  rewrite calcLuminance_fin by assumption. cbn [mbind result_bind].
  unfold shade. cbv zeta. num_cases.
Qed.

Lemma shadeToLuminance_nan (r g b : R) :
  pure_tint r g b ->
  shadeToLuminance (VNum NaN) (VNum (Fin r)) (VNum (Fin g)) (VNum (Fin b))
  = Ok NaN.
Proof.
  intros Hp. destruct Hp as [(Hr & Hg & Hb) H1]. unfold shadeToLuminance.
  rewrite check_unit_nan, !check_unit_fin by assumption.
  cbn [mbind result_bind].
  rewrite pure_tint_guard by assumption.
  rewrite calcLuminance_fin by assumption. reflexivity.
Qed.

(** C6.  For every pure tint, the shade that reaches the tint's own
    luminance is 1: [shadeToLuminance(calcLuminance(r, g, b), r, g, b)]
    returns exactly 1 in real arithmetic. *)
Theorem shadeToLuminance_round_trip (r g b : R) :
  pure_tint r g b ->
  exists L : num,
    calcLuminance (VNum (Fin r)) (VNum (Fin g)) (VNum (Fin b)) = Ok L
    /\ shadeToLuminance (VNum L) (VNum (Fin r)) (VNum (Fin g)) (VNum (Fin b))
       = Ok (Fin 1).
Proof.
  intros Hp. pose proof (calcLuminance_pure_tint r g b Hp) as HL.
  exists (Fin (luminance r g b)). split.
  - destruct Hp as [(Hr & Hg & Hb) _]. by apply calcLuminance_fin.
  - rewrite shadeToLuminance_fin by (assumption || lra).
    f_equal. unfold shade. cbv zeta.
    replace (luminance r g b / luminance r g b) with 1 by (field; lra).
    case_decide; [exfalso; lra|]. rewrite Rpower_1_l. f_equal. lra.
Qed.


Lemma pure_tint_white : pure_tint 1 1 1.
Proof. unfold pure_tint. lra. Defined.

Lemma shadeToLuminance_round_trip_witness :
  pure_tint 1 1 1 /\
  exists L : num,
    calcLuminance (VNum (Fin 1)) (VNum (Fin 1)) (VNum (Fin 1)) = Ok L
    /\ shadeToLuminance (VNum L) (VNum (Fin 1)) (VNum (Fin 1)) (VNum (Fin 1))
       = Ok (Fin 1).
Proof.
  split; [exact pure_tint_white|].
  exact (shadeToLuminance_round_trip 1 1 1 pure_tint_white).
Defined.

(** ** [recalculateColour] *)

Lemma round_255 : Zfloor (255 + / 2) = 255%Z.
Proof. apply Zfloor_eq. lra. Qed.

Lemma round_0 : Zfloor (0 + / 2) = 0%Z.
Proof. apply Zfloor_eq. lra. Qed.

Lemma luminance_white : luminance 1 1 1 = 1.
Proof. unfold luminance. rewrite linear_1. lra. Qed.

Lemma luminance_black : luminance 0 0 0 = 0.
Proof. unfold luminance. rewrite linear_0. lra. Qed.

(** The 8-bit rounding of [recalculateColour] at the two ends of the range. *)
Lemma clamp_1 : (Num.round (Fin 1 * 255) / 255)%num = Fin 1.
Proof.
  unfold Num.round. num_unfold. case_decide; [lra|].
  replace (1 * 255) with 255 by lra. rewrite round_255. f_equal. lra.
Qed.

Lemma clamp_0 : (Num.round (Fin 0 * 255) / 255)%num = Fin 0.
Proof.
  unfold Num.round. num_unfold. case_decide; [lra|].
  replace (0 * 255) with 0 by lra. rewrite round_0. f_equal. lra.
Qed.

(** Position 0 on the horizontal axis is the white end of the tints: with
    the pointer at left = 0, bottom = 0 every hue gives white. *)
Lemma recalculateColour_left_0 (s : picker) (hr hg hb : R) :
  current_hue s = (Fin hr, Fin hg, Fin hb) ->
  position_left s = Fin 0 -> position_bottom s = Fin 0 ->
  recalculateColour s
  = Ok (set_colour s (Fin 1, Fin 1, Fin 1) (Fin 1)
          (Fin 1 * 255, Fin 1 * 255, Fin 1 * 255)%num
          (Fixed (Fin 1) 5) "black").
Proof.
  intros Hh Hl Hb. unfold recalculateColour. rewrite Hh, Hl, Hb.
  replace (1 + (Fin hr - 1) * Fin 0)%num with (Fin 1) by num_cases.
  replace (1 + (Fin hg - 1) * Fin 0)%num with (Fin 1) by num_cases.
  replace (1 + (Fin hb - 1) * Fin 0)%num with (Fin 1) by num_cases.
  replace (Fin 1 * (1 - Fin 0))%num with (Fin 1) by num_cases.
  cbv zeta. rewrite clamp_1.
  rewrite calcLuminance_fin, luminance_white by lra.
  cbn [mbind result_bind].
  replace (Fin 1 <? 0.1792)%num with false by num_cases.
  reflexivity.
Qed.

(** C3 (as amended).  With the hue pure red and the pointer at left = 0,
    bottom = 0, [recalculateColour] sets the current colour to white
    (1, 1, 1), exactly. *)
Theorem recalculateColour_red_left_0 (s : picker) :
  current_hue s = (Fin 1, Fin 0, Fin 0) ->
  position_left s = Fin 0 -> position_bottom s = Fin 0 ->
  exists s' : picker,
    recalculateColour s = Ok s'
    /\ current_colour s' = (Fin 1, Fin 1, Fin 1)
    /\ current_luminance s' = Fin 1.
Proof.
  intros Hh Hl Hb.
  rewrite (recalculateColour_left_0 s 1 0 0 Hh Hl Hb).
  eexists. split; [reflexivity|].
  cbn [current_colour current_luminance set_colour].
  split; reflexivity.
Qed.

Lemma recalculateColour_red_left_0_witness :
  current_hue red_at_left_0 = (Fin 1, Fin 0, Fin 0) /\
  position_left red_at_left_0 = Fin 0 /\
  position_bottom red_at_left_0 = Fin 0 /\
  exists s' : picker,
    recalculateColour red_at_left_0 = Ok s'
    /\ current_colour s' = (Fin 1, Fin 1, Fin 1)
    /\ current_luminance s' = Fin 1.
Proof.
  repeat (split; [reflexivity|]).
  apply (recalculateColour_red_left_0 red_at_left_0); reflexivity.
Defined.

(** C3 as stated fails: at left = 0, bottom = 0 the current colour is not
    the hue (1, 0, 0). *)
Lemma recalculateColour_red_left_0_is_not_red :
  ~ exists s' : picker,
      recalculateColour red_at_left_0 = Ok s'
      /\ current_colour s' = (Fin 1, Fin 0, Fin 0).
Proof.
  intros (s' & Hs' & Hc).
  rewrite (recalculateColour_left_0 red_at_left_0 1 0 0) in Hs'
    by reflexivity.
  apply Ok_inj in Hs'. subst s'.
  cbn [current_colour set_colour] in Hc. injection Hc; intros; lra.
Qed.

(** The hue itself is the colour at the other end, left = 1. *)
Lemma recalculateColour_red_left_1 (s : picker) :
  current_hue s = (Fin 1, Fin 0, Fin 0) ->
  position_left s = Fin 1 -> position_bottom s = Fin 0 ->
  exists s' : picker,
    recalculateColour s = Ok s'
    /\ current_colour s' = (Fin 1, Fin 0, Fin 0).
Proof.
  intros Hh Hl Hb. unfold recalculateColour. rewrite Hh, Hl, Hb.
  replace (1 + (Fin 1 - 1) * Fin 1)%num with (Fin 1)
    by num_cases.
  replace (1 + (Fin 0 - 1) * Fin 1)%num with (Fin 0)
    by num_cases.
  replace (Fin 1 * (1 - Fin 0))%num with (Fin 1)
    by num_cases.
  replace (Fin 0 * (1 - Fin 0))%num with (Fin 0)
    by num_cases.
  cbv zeta. rewrite clamp_1, clamp_0.
  rewrite calcLuminance_fin by lra.
  eexists. split; reflexivity.
Qed.

(** ** The overlay never throws on the tints of a pure hue *)

Lemma tint_entry_pure (r g b : R) (i : nat) :
  pure_hue r g b -> is_pure_tint (tint_entry r g b i).
Proof.
  intros ((Hr & Hg & Hb) & _ & H1). pose proof (pos_INR i) as Hi.
  do 3 eexists. split; [reflexivity|]. split.
  - repeat split; try (eapply Rle_trans; [|apply Rmax_l]; lra);
      apply Rmax_lub; nra.
  - destruct H1 as [-> | [-> | ->]]; [left | right; left | right; right];
      apply Rmax_left; nra.
Qed.

Lemma interpolateTints_pure (r g b : R) :
  pure_hue r g b -> Forall is_pure_tint (map (tint_entry r g b) (seq 0 256)).
Proof.
  intros H. apply Forall_fmap, Forall_forall. intros i _.
  by apply tint_entry_pure.
Qed.

Lemma shadeToLuminance_returns (t : num) (r g b : R) :
  passes_guard t -> pure_tint r g b ->
  returns
    (shadeToLuminance (VNum t) (VNum (Fin r)) (VNum (Fin g)) (VNum (Fin b))).
Proof.
  intros [-> | (x & -> & Hx)] Hp.
  - rewrite shadeToLuminance_nan by assumption. by eexists.
  - rewrite shadeToLuminance_fin by assumption. by eexists.
Qed.

Lemma shade_at_returns (tints : list tint) (target : num) (i : nat) :
  Forall is_pure_tint tints -> (i < length tints)%nat ->
  passes_guard target -> returns (shade_at tints target i).
Proof.
  intros Hall Hi Ht. unfold shade_at, tint_at.
  destruct (lookup_lt_is_Some_2 tints i Hi) as [t Hlk]. rewrite Hlk.
  destruct (proj1 (Forall_lookup _ _) Hall i t Hlk) as (r & g & b & -> & Hp).
  cbn [mbind result_bind]. by apply shadeToLuminance_returns.
Qed.

Lemma foldM_returns {S : Type} (body : nat -> S -> result S) (l : list nat)
    (s : S) :
  (forall i s', i ∈ l -> returns (body i s')) -> returns (foldM body l s).
Proof.
  revert s. induction l as [|i l IH]; intros s H; cbn [foldM].
  - by eexists.
  - destruct (H i s) as [s' ->]; [by left|]. cbn [mbind result_bind].
    apply IH. intros j s'' Hj. apply H. by right.
Qed.

Lemma line_to_column_returns (tints : list tint) (width height target : num)
    (i : nat) (calls : list canvas_op) :
  Forall is_pure_tint tints -> (i < length tints)%nat ->
  passes_guard target ->
  returns (line_to_column tints width height target i calls).
Proof.
  intros Hall Hi Ht. unfold line_to_column.
  destruct (shade_at_returns tints target i Hall Hi Ht) as [x ->].
  by eexists.
Qed.

Lemma trace_curve_returns (tints : list tint) (width height target : num)
    (calls : list canvas_op) :
  Forall is_pure_tint tints -> (1 < length tints)%nat ->
  passes_guard target ->
  returns (trace_curve tints width height target calls).
Proof.
  intros Hall Hlen Ht. unfold trace_curve.
  destruct (shade_at_returns tints target 1 Hall Hlen Ht) as [x ->].
  cbn [mbind result_bind]. apply foldM_returns. intros i s' Hi.
  apply elem_of_seq in Hi. apply line_to_column_returns; [done|lia|done].
Qed.

Lemma between_passes_guard (t : num) :
  (t <=? 0)%num = false -> (t >=? 1)%num = false -> passes_guard t.
Proof.
  destruct t as [x|]; [|by left]. intros H0 H1. right. exists x.
  split; [reflexivity|]. revert H0 H1. num_cases.
Qed.

Lemma line_calls_of_returns (s : picker) :
  Forall is_pure_tint (current_tints s) ->
  (1 < length (current_tints s))%nat ->
  returns (line_calls_of s).
Proof.
  intros Hall Hlen. unfold line_calls_of. cbv zeta.
  destruct (String.eqb (line_mode s) "NONE"); [by eexists|].
  destruct (String.eqb (line_mode s) "B/W").
  { edestruct trace_curve_returns as [c ->]; [done..| |by eexists].
    right. exists 0.1795. split; [reflexivity | lra]. }
  destruct (String.eqb (line_mode s) "COLOUR"); [|by eexists].
  destruct (contrast_upper_luminance s <=? 0)%num eqn:Hu0; [by eexists|].
  destruct (contrast_lower_luminance s >=? 1)%num eqn:Hl1; [by eexists|].
  cbn [orb].
  assert (Hlower : forall c2 : list canvas_op,
    (contrast_lower_luminance s <=? 0)%num = false ->
    returns (for_downto_m (length (current_tints s))
               (line_to_column (current_tints s) (line_width s)
                  (line_height s) (contrast_lower_luminance s)) c2)).
  { intros c2 Hl0. apply foldM_returns. intros i s' Hi.
    apply list_elem_of_In, in_rev, list_elem_of_In, elem_of_seq in Hi.
    apply line_to_column_returns; [done|lia|].
    by apply between_passes_guard. }
  destruct (contrast_upper_luminance s >=? 1)%num eqn:Hu1.
  - cbn [mbind result_bind].
    destruct (contrast_lower_luminance s <=? 0)%num eqn:Hl0; [by eexists|].
    edestruct Hlower as [c3 ->]; [done|]. by eexists.
  - edestruct trace_curve_returns as [c2 ->]; [done..| |].
    { by apply between_passes_guard. }
    cbn [mbind result_bind].
    destruct (contrast_lower_luminance s <=? 0)%num eqn:Hl0; [by eexists|].
    edestruct Hlower as [c3 ->]; [done|]. by eexists.
Qed.

Lemma renderLines_returns (s : picker) :
  Forall is_pure_tint (current_tints s) ->
  (1 < length (current_tints s))%nat ->
  returns (renderLines s).
Proof.
  intros Hall Hlen. unfold renderLines.
  destruct (line_calls_of_returns s Hall Hlen) as [c ->]. by eexists.
Qed.

(** C9.  For every pure hue, every entry of the array returned by
    [interpolateTints] has a component exactly equal to 1, so each call
    [shadeToLuminance(target, ...tint)] on an entry returns (the pure-tint
    error is not reached), and [renderLines] over these tints returns in every
    mode. *)
Theorem tints_are_pure_tints (r g b : R) :
  pure_hue r g b ->
  exists l : list tint,
    interpolateTints (VNum (Fin r)) (VNum (Fin g)) (VNum (Fin b)) = Ok l
    /\ (forall (i : nat) (tr tg tb : num),
          l !! i = Some (tr, tg, tb) ->
          tr = Fin 1 \/ tg = Fin 1 \/ tb = Fin 1)
    /\ (forall (target : num) (i : nat) (tr tg tb : num),
          passes_guard target -> l !! i = Some (tr, tg, tb) ->
          returns
            (shadeToLuminance (VNum target) (VNum tr) (VNum tg) (VNum tb)))
    /\ (forall s : picker, current_tints s = l -> returns (renderLines s)).
Proof.
  intros H. pose proof (interpolateTints_pure r g b H) as Hall.
  eexists. split; [apply interpolateTints_fin, H|].
  split; [|split].
  - intros i tr tg tb Hlk.
    destruct (proj1 (Forall_lookup _ _) Hall i _ Hlk)
      as (r' & g' & b' & [= -> -> ->] & _ & H1).
    destruct H1 as [-> | [-> | ->]]; auto.
  - intros target i tr tg tb Ht Hlk.
    destruct (proj1 (Forall_lookup _ _) Hall i _ Hlk)
      as (r' & g' & b' & [= -> -> ->] & Hp).
    by apply shadeToLuminance_returns.
  - intros s Hs. apply renderLines_returns; rewrite Hs; [done|].
    rewrite length_map, length_seq. lia.
Qed.

Lemma tints_are_pure_tints_witness :
  pure_hue 1 0 0 /\
  exists l : list tint,
    interpolateTints (VNum (Fin 1)) (VNum (Fin 0)) (VNum (Fin 0)) = Ok l
    /\ (forall (i : nat) (tr tg tb : num),
          l !! i = Some (tr, tg, tb) ->
          tr = Fin 1 \/ tg = Fin 1 \/ tb = Fin 1)
    /\ (forall (target : num) (i : nat) (tr tg tb : num),
          passes_guard target -> l !! i = Some (tr, tg, tb) ->
          returns
            (shadeToLuminance (VNum target) (VNum tr) (VNum tg) (VNum tb)))
    /\ (forall s : picker, current_tints s = l -> returns (renderLines s)).
Proof.
  split; [exact pure_hue_red|].
  exact (tints_are_pure_tints 1 0 0 pure_hue_red).
Defined.

(** ** [recalculateContrast] *)

Lemma clamp_component_nan (n : num) :
  n = NaN -> Num.isNaN (Num.max 0 (Num.min 255 n)) = true.
Proof. by intros ->. Qed.

(** C10.  When one of the three components of the reference colour does not
    parse ([parseInt] gives NaN), [recalculateContrast] returns at once and
    the state, in particular [contrast_upper_luminance] and
    [contrast_lower_luminance], is what it was. *)
Theorem recalculateContrast_invalid_input (s : picker) :
  parseInt16 (slice 1 3 (contrast_colour_input s)) = NaN
  \/ parseInt16 (slice 3 5 (contrast_colour_input s)) = NaN
  \/ parseInt16 (slice 5 7 (contrast_colour_input s)) = NaN ->
  exists s' : picker,
    recalculateContrast s = Ok s'
    /\ s' = s
    /\ contrast_upper_luminance s' = contrast_upper_luminance s
    /\ contrast_lower_luminance s' = contrast_lower_luminance s.
Proof.
  intros H. exists s. split; [|done]. unfold recalculateContrast. cbv zeta.
  destruct H as [H | [H | H]]; rewrite (clamp_component_nan _ H);
    by rewrite ?orb_true_r.
Qed.

Lemma recalculateContrast_invalid_input_witness :
  (parseInt16 (slice 1 3 (contrast_colour_input unparsable_reference)) = NaN
   \/ parseInt16 (slice 3 5 (contrast_colour_input unparsable_reference)) = NaN
   \/ parseInt16 (slice 5 7 (contrast_colour_input unparsable_reference)) = NaN)
  /\ exists s' : picker,
       recalculateContrast unparsable_reference = Ok s'
       /\ s' = unparsable_reference
       /\ contrast_upper_luminance s'
          = contrast_upper_luminance unparsable_reference
       /\ contrast_lower_luminance s'
          = contrast_lower_luminance unparsable_reference.
Proof.
  assert (H : parseInt16 (slice 1 3 (contrast_colour_input unparsable_reference)) = NaN
   \/ parseInt16 (slice 3 5 (contrast_colour_input unparsable_reference)) = NaN
   \/ parseInt16 (slice 5 7 (contrast_colour_input unparsable_reference)) = NaN)
    by (right; left; reflexivity).
  split; [exact H|].
  exact (recalculateContrast_invalid_input unparsable_reference H).
Defined.

Example parseInt16_FF : parseInt16 (slice 1 3 "#FFFFFF") = Num.of_Z 255.
Proof. reflexivity. Qed.

Example parseInt16_lower : parseInt16 "c8" = Num.of_Z 200.
Proof. reflexivity. Qed.

Example parseInt16_prefix : parseInt16 "1g" = Num.of_Z 1.
Proof. reflexivity. Qed.

Example parseInt16_sign : parseInt16 "-a" = Num.of_Z (-10).
Proof. reflexivity. Qed.

Example parseInt16_0x : parseInt16 "0x" = NaN.
Proof. reflexivity. Qed.

Example parseInt16_empty : parseInt16 (slice 5 7 "#FFF") = NaN.
Proof. reflexivity. Qed.


Lemma renderLines_bounds (s s' : picker) :
  renderLines s = Ok s' ->
  contrast_upper_luminance s' = contrast_upper_luminance s
  /\ contrast_lower_luminance s' = contrast_lower_luminance s.
Proof.
  unfold renderLines. destruct (line_calls_of s); [|discriminate].
  cbn [mbind result_bind]. by intros [= <-].
Qed.

(** A parsed component, clamped to 0..255 and scaled to the unit interval. *)
Lemma clamp_component_bounds (x : R) : 0 <= Rmax 0 (Rmin 255 x) / 255 <= 1.
Proof.
  assert (0 <= Rmax 0 (Rmin 255 x) <= 255); [|lra].
  split; [apply Rmax_l|]. apply Rmax_lub; [lra | apply Rmin_l].
Qed.

(** The bounds [recalculateContrast] derives when the three components
    parse: with [L] the luminance of the reference colour and [ratio] the
    contrast ratio, the upper bound is [0.05 * (20 * L * ratio + ratio - 1)]
    and the lower bound is [(L - 0.05 * ratio + 0.05) / ratio]. *)
Lemma recalculateContrast_bounds (s : picker) (zr zg zb : Z) (ratio : R) :
  parseInt16 (slice 1 3 (contrast_colour_input s)) = Num.of_Z zr ->
  parseInt16 (slice 3 5 (contrast_colour_input s)) = Num.of_Z zg ->
  parseInt16 (slice 5 7 (contrast_colour_input s)) = Num.of_Z zb ->
  contrast_ratio s = Fin ratio -> ratio <> 0 ->
  Forall is_pure_tint (current_tints s) ->
  (1 < length (current_tints s))%nat ->
  exists (s' : picker) (L : R),
    L = luminance (Rmax 0 (Rmin 255 (IZR zr)) / 255)
          (Rmax 0 (Rmin 255 (IZR zg)) / 255)
          (Rmax 0 (Rmin 255 (IZR zb)) / 255)
    /\ recalculateContrast s = Ok s'
    /\ contrast_upper_luminance s'
       = Fin (0.05 * (20 * L * ratio + ratio - 1))
    /\ contrast_lower_luminance s' = Fin ((L - 0.05 * ratio + 0.05) / ratio).
Proof.
  intros Hr Hg Hb Hratio Hnz Hall Hlen. unfold recalculateContrast.
  rewrite Hr, Hg, Hb, Hratio. cbv zeta.
  cbn [Num.max Num.min Num.of_Z Num.lift2 Num.isNaN orb].
  assert (Hdiv : forall x : R, (Fin x / 255)%num = Fin (x / 255))
    by (intros x; num_cases).
  rewrite !Hdiv. rewrite calcLuminance_fin by apply clamp_component_bounds.
  cbn [mbind result_bind].
  match goal with
  | |- context [renderLines ?t] =>
      destruct (renderLines_returns t Hall Hlen) as [s' Hs'];
      pose proof (renderLines_bounds _ _ Hs') as [Hu Hl]
  end.
  exists s'. eexists. split; [reflexivity|]. split; [exact Hs'|].
  cbn [contrast_upper_luminance contrast_lower_luminance set_contrast]
    in Hu, Hl.
  rewrite Hu, Hl. split; [reflexivity|]. num_cases.
Qed.

Lemma clamp_255 : Rmax 0 (Rmin 255 255) / 255 = 1.
Proof. rewrite Rmin_left, Rmax_right by lra. lra. Qed.

(** C4 (as amended).  With the reference colour white and the ratio 21,
    [recalculateContrast] derives [contrast_upper_luminance = 22], which is
    at least 1, and a [contrast_lower_luminance] that is at most 0. *)
Theorem recalculateContrast_white_21 (s : picker) :
  contrast_colour_input s = "#FFFFFF"%string ->
  contrast_ratio s = Fin 21 ->
  Forall is_pure_tint (current_tints s) ->
  (1 < length (current_tints s))%nat ->
  exists s' : picker,
    recalculateContrast s = Ok s'
    /\ contrast_upper_luminance s' = Fin 22
    /\ (contrast_upper_luminance s' >=? 1)%num = true
    /\ (contrast_lower_luminance s' <=? 0)%num = true.
Proof.
  intros Hin Hratio Hall Hlen.
  destruct (recalculateContrast_bounds s 255 255 255 21)
    as (s' & L & HL & Hs' & Hu & Hl);
    try (rewrite Hin; reflexivity); try assumption; [lra|].
  rewrite !clamp_255, luminance_white in HL. subst L.
  exists s'. split; [exact Hs'|].
  rewrite Hu, Hl.
  replace (0.05 * (20 * 1 * 21 + 21 - 1)) with 22 by lra.
  split; [reflexivity|]. split; num_cases.
Qed.

Lemma pure_hue_aqua : pure_hue 0 1 1.
Proof. unfold pure_hue. lra. Defined.

Lemma white_reference_21_tints :
  Forall is_pure_tint (current_tints white_reference_21)
  /\ (1 < length (current_tints white_reference_21))%nat.
Proof.
  split.
  - exact (interpolateTints_pure 0 1 1 pure_hue_aqua).
  - cbn [current_tints white_reference_21 page].
    rewrite length_map, length_seq. lia.
Defined.

Lemma recalculateContrast_white_21_witness :
  contrast_colour_input white_reference_21 = "#FFFFFF"%string /\
  contrast_ratio white_reference_21 = Fin 21 /\
  Forall is_pure_tint (current_tints white_reference_21) /\
  (1 < length (current_tints white_reference_21))%nat /\
  exists s' : picker,
    recalculateContrast white_reference_21 = Ok s'
    /\ contrast_upper_luminance s' = Fin 22
    /\ (contrast_upper_luminance s' >=? 1)%num = true
    /\ (contrast_lower_luminance s' <=? 0)%num = true.
Proof.
  split; [reflexivity|]. split; [reflexivity|].
  split; [exact (proj1 white_reference_21_tints)|].
  split; [exact (proj2 white_reference_21_tints)|].
  exact (recalculateContrast_white_21 white_reference_21 eq_refl eq_refl
           (proj1 white_reference_21_tints) (proj2 white_reference_21_tints)).
Defined.

(** C4 as stated fails: the upper bound derived for white at ratio 21 is
    22, not 1. *)
Lemma recalculateContrast_white_21_upper_is_not_1 :
  ~ exists s' : picker,
      recalculateContrast white_reference_21 = Ok s'
      /\ contrast_upper_luminance s' = Fin 1
      /\ (contrast_lower_luminance s' <=? 0)%num = true.
Proof.
  intros (s' & Hs' & Hu & _).
  destruct (recalculateContrast_bounds white_reference_21 255 255 255 21)
    as (s'' & L & HL & Hs'' & Hu' & _);
    try reflexivity;
    [lra | exact (proj1 white_reference_21_tints)
     | exact (proj2 white_reference_21_tints) |].
  rewrite !clamp_255, luminance_white in HL. subst L.
  rewrite Hs' in Hs''. apply Ok_inj in Hs''. subst s''.
  rewrite Hu in Hu'. injection Hu'. lra.
Qed.

(** ** The path drawn in black/white mode *)

Lemma tint_channels_pure (r g b : R) (i : nat) :
  pure_hue r g b ->
  pure_tint (tint_channel r i) (tint_channel g i) (tint_channel b i).
Proof.
  intros H. destruct (tint_entry_pure r g b i H) as (r' & g' & b' & E & Hp).
  unfold tint_entry in E. by injection E as -> -> ->.
Qed.

Lemma shade_at_tints (r g b target : R) (i : nat) :
  pure_hue r g b -> 0 <= target <= 1 -> (i <= 255)%nat ->
  shade_at (map (tint_entry r g b) (seq 0 256)) (Fin target) i
  = Ok (Fin (shade target (tint_channel r i) (tint_channel g i)
               (tint_channel b i))).
Proof.
  intros H Ht Hi. unfold shade_at, tint_at.
  rewrite interpolateTints_lookup by assumption.
  unfold tint_entry. cbn [mbind result_bind].
  apply shadeToLuminance_fin; [assumption|]. by apply tint_channels_pure.
Qed.

Lemma last_column : (Num.of_nat 256 - 1)%num = Fin 255.
Proof.
  unfold Num.of_nat. rewrite INR_IZR_INZ. change (Z.of_nat 256) with 256%Z.
  num_cases.
Qed.

Lemma line_to_column_tints (r g b target : R) (width height : num) (i : nat)
    (calls : list canvas_op) :
  pure_hue r g b -> 0 <= target <= 1 -> (i <= 255)%nat ->
  line_to_column (map (tint_entry r g b) (seq 0 256)) width height
    (Fin target) i calls
  = Ok (calls ++
          [LineTo (overlay_point r g b target width height i).1
                  (overlay_point r g b target width height i).2]).
Proof.
  intros H Ht Hi. unfold line_to_column.
  rewrite shade_at_tints by assumption. cbn [mbind result_bind].
  rewrite length_map, length_seq, last_column.
  unfold overlay_point. cbn [fst snd]. do 4 f_equal. num_cases.
Qed.

Lemma foldM_push {A : Type} (body : nat -> list A -> result (list A))
    (f : nat -> A) (l : list nat) (acc : list A) :
  (forall i acc', i ∈ l -> body i acc' = Ok (acc' ++ [f i])) ->
  foldM body l acc = Ok (acc ++ map f l).
Proof.
  revert acc. induction l as [|i l IH]; intros acc H; cbn [foldM map].
  - by rewrite app_nil_r.
  - rewrite H by (by left). cbn [mbind result_bind].
    rewrite IH by (intros; apply H; by right).
    by rewrite <- app_assoc.
Qed.

Lemma trace_curve_tints (r g b target : R) (width height : num)
    (calls : list canvas_op) :
  pure_hue r g b -> 0 <= target <= 1 ->
  trace_curve (map (tint_entry r g b) (seq 0 256)) width height (Fin target)
    calls
  = Ok (calls
        ++ [MoveTo 0 (overlay_point r g b target width height 1).2]
        ++ map (fun j => line_to_point
                           (overlay_point r g b target width height j))
             (seq 0 256)).
Proof.
  intros H Ht. unfold trace_curve.
  rewrite shade_at_tints by (assumption || lia). cbn [mbind result_bind].
  unfold for_upto_m. rewrite length_map, length_seq.
  rewrite (foldM_push _
             (fun j => line_to_point
                         (overlay_point r g b target width height j))).
  - by rewrite <- app_assoc.
  - intros i acc Hi. apply elem_of_seq in Hi.
    apply line_to_column_tints; [assumption..|lia].
Qed.

Lemma path_points_app (c d : list canvas_op) :
  path_points (c ++ d) = path_points c ++ path_points d.
Proof. apply omap_app. Qed.

Lemma path_points_lines (l : list (num * num)) :
  path_points (map line_to_point l) = l.
Proof.
  induction l as [|[x y] l IH]; [done|].
  change (path_points (map line_to_point ((x, y) :: l)))
    with ((x, y) :: path_points (map line_to_point l)).
  by rewrite IH.
Qed.

(** In black/white mode, over the tints of a pure hue, the path has 257
    vertices: the point of [moveTo], computed from [current_tints[1]] at
    abscissa 0, and then the 256 column points. *)
Lemma renderLines_bw_path (s : picker) (r g b : R) :
  pure_hue r g b ->
  current_tints s = map (tint_entry r g b) (seq 0 256) ->
  line_mode s = "B/W"%string ->
  exists s' : picker,
    renderLines s = Ok s'
    /\ path_points (line_calls s')
       = (Fin 0, (overlay_point r g b 0.1795 (line_width s) (line_height s)
                    1).2)
         :: map (overlay_point r g b 0.1795 (line_width s) (line_height s))
              (seq 0 256).
Proof.
  intros H Ht Hm. unfold renderLines, line_calls_of. rewrite Ht, Hm.
  cbv zeta. cbn [String.eqb Ascii.eqb Bool.eqb].
  rewrite trace_curve_tints by (assumption || lra).
  cbn [mbind result_bind]. eexists. split; [reflexivity|].
  cbn [line_calls set_lines]. rewrite !path_points_app.
  rewrite <- (map_map _ line_to_point), path_points_lines.
  reflexivity.
Qed.

Lemma shade_darker_tint (t r g b r' g' b' : R) :
  0 < t ->
  0.03928 / 12.92 <= t / luminance r g b ->
  0 < luminance r' g' b' < luminance r g b ->
  shade t r g b < shade t r' g' b'.
Proof.
  intros Ht Hk [Hpos Hlt].
  assert (Hs : t / luminance r g b < t / luminance r' g' b').
  { unfold Rdiv. apply Rmult_lt_compat_l; [assumption|].
    apply Rinv_lt_contravar; [|assumption].
    apply Rmult_lt_0_compat; lra. }
  unfold shade. cbv zeta. repeat case_decide; try lra.
  assert (Rpower (t / luminance r g b) (1 / 2.4)
          < Rpower (t / luminance r' g' b') (1 / 2.4)); [|lra].
  apply Rlt_Rpower_l; lra.
Qed.

Lemma tint_channel_0 (c : R) : c <= 1 -> tint_channel c 0 = 1.
Proof.
  intros H. unfold tint_channel. cbn [INR].
  rewrite Rmult_0_r, Rminus_0_r. by apply Rmax_right.
Qed.

Lemma tint_channel_1_1 : tint_channel 1 1 = 1.
Proof. unfold tint_channel. cbn [INR]. apply Rmax_left. lra. Qed.

Lemma tint_channel_0_1 : tint_channel 0 1 = 254 / 255.
Proof. unfold tint_channel. cbn [INR]. rewrite Rmax_right; lra. Qed.

(** For pure red the shade of tint 1 is strictly above the shade of tint 0
    (white) at the target 0.1795. *)
Lemma shade_red_tint_1 :
  shade 0.1795 (tint_channel 1 0) (tint_channel 0 0) (tint_channel 0 0)
  < shade 0.1795 (tint_channel 1 1) (tint_channel 0 1) (tint_channel 0 1).
Proof.
  rewrite !tint_channel_0, tint_channel_1_1, tint_channel_0_1 by lra.
  assert (Hl : 0 <= linear (254 / 255) < 1).
  { split; [apply linear_bounds; lra | apply linear_lt_1; lra]. }
  apply shade_darker_tint; rewrite ?luminance_white; try lra.
  unfold luminance. rewrite linear_1. lra.
Qed.

(** C5.  The code at the failing input: hue pure red, black/white mode, a
    256 x 256 overlay.  The path has 257 vertices; the first, placed by
    [moveTo] from [current_tints[1]], is followed by the 256 column points
    and is not one of them. *)
Theorem renderLines_bw_extra_vertex :
  exists (s' : picker) (p : num * num),
    renderLines bw_red = Ok s'
    /\ path_points (line_calls s')
       = p :: map (overlay_point 1 0 0 0.1795 (Fin 256) (Fin 256)) (seq 0 256)
    /\ length (path_points (line_calls s')) = 257%nat
    /\ p ∉ map (overlay_point 1 0 0 0.1795 (Fin 256) (Fin 256)) (seq 0 256).
Proof.
  destruct (renderLines_bw_path bw_red 1 0 0 pure_hue_red eq_refl eq_refl)
    as (s' & Hs' & Hp).
  exists s'. eexists. split; [exact Hs'|]. split; [exact Hp|]. split.
  - rewrite Hp. cbn [length]. by rewrite length_map, length_seq.
  - intros Hin. apply list_elem_of_fmap in Hin as (j & Hj & _).
    unfold overlay_point in Hj. cbn [fst snd line_width line_height bw_red page]
      in Hj.
    num_unfold. injection Hj as Hx Hy.
    assert (INR j = 0) as Hj0 by lra.
    change 0 with (INR 0) in Hj0. apply INR_eq in Hj0. subst j.
    pose proof shade_red_tint_1. lra.
Qed.

(** ** [renderChart] *)

Lemma foldM_app {S : Type} (body : nat -> S -> result S) (l1 l2 : list nat)
    (s : S) :
  foldM body (l1 ++ l2) s = s' ← foldM body l1 s; foldM body l2 s'.
Proof.
  revert s. induction l1 as [|i l1 IH]; intros s; [done|].
  cbn [app foldM]. destruct (body i s) as [s1|e]; [|done].
  cbn [mbind result_bind]. apply IH.
Qed.

Lemma put4_lookup (data : list Z) (idx k : nat) (a b c d : Z) :
  (idx + 3 < length data)%nat ->
  <[(idx + 3)%nat := d]>
    (<[(idx + 2)%nat := c]> (<[(idx + 1)%nat := b]> (<[idx := a]> data))) !! k
  = if decide (k = idx + 3)%nat then Some d
    else if decide (k = idx + 2)%nat then Some c
    else if decide (k = idx + 1)%nat then Some b
    else if decide (k = idx) then Some a
    else data !! k.
Proof.
  intros Hlen.
  repeat case_decide; subst;
    repeat first
      [ rewrite list_lookup_insert_eq by (rewrite ?length_insert; lia)
      | rewrite list_lookup_insert_ne by lia ];
    reflexivity.
Qed.

Lemma put_pixel_ok (tints : list tint) (i j : nat) (data : list Z)
    (tr tg tb : num) :
  tints !! j = Some (tr, tg, tb) ->
  put_pixel tints
    (map (fun '(r, g, b) => (r / 255, g / 255, b / 255)%num) tints) i j data
  = Ok (<[(pixel_index i j + 3)%nat := 255%Z]>
          (<[(pixel_index i j + 2)%nat := chart_channel tb i]>
             (<[(pixel_index i j + 1)%nat := chart_channel tg i]>
                (<[pixel_index i j := chart_channel tr i]> data)))).
Proof.
  intros Hj. unfold put_pixel.
  assert (Ht : tint_at tints j = Ok (tr, tg, tb))
    by (unfold tint_at; by rewrite Hj).
  assert (Hd : tint_at
                 (map (fun '(r, g, b) => (r / 255, g / 255, b / 255)%num)
                    tints) j
               = Ok (tr / 255, tg / 255, tb / 255)%num)
    by (unfold tint_at; by rewrite list_lookup_fmap, Hj).
  rewrite Ht. cbn [mbind result_bind]. rewrite Hd. reflexivity.
Qed.

Section Chart.

Variable tints : list tint.
Hypothesis tints_length : length tints = 256%nat.

Let deltas : list tint :=
  map (fun '(r, g, b) => (r / 255, g / 255, b / 255)%num) tints.

Lemma chart_row (i n : nat) (data : list Z) :
  (n <= 256)%nat -> (pixel_index i 256 <= length data)%nat ->
  exists data' : list Z,
    foldM (put_pixel tints deltas i) (seq 0 n) data = Ok data'
    /\ length data' = length data
    /\ (forall (j : nat) (t : tint),
          (j < n)%nat -> tints !! j = Some t ->
          pixel_is data' (pixel_index i j) t i)
    /\ (forall k : nat,
          (k < pixel_index i 0 \/ pixel_index i n <= k)%nat ->
          data' !! k = data !! k).
Proof using tints_length.
  unfold pixel_index. intros Hn Hlen. induction n as [|n IH].
  - exists data. repeat split. intros; lia.
  - destruct IH as (d1 & Hd1 & Hl1 & Hpix & Hframe); [lia|].
    destruct (lookup_lt_is_Some_2 tints n) as [[[tr tg] tb] Ht]; [lia|].
    rewrite seq_S, foldM_app, Hd1. cbn [mbind result_bind foldM plus].
    unfold deltas. rewrite (put_pixel_ok _ _ _ _ _ _ _ Ht).
    cbn [mbind result_bind]. unfold pixel_index.
    eexists. split; [reflexivity|]. split; [|split].
    + by rewrite !length_insert.
    + intros j t Hj Hjt. destruct (decide (j = n)) as [->|Hne].
      * rewrite Ht in Hjt. injection Hjt as <-. unfold pixel_is.
        rewrite !put4_lookup by lia.
        repeat split; repeat case_decide; try lia; reflexivity.
      * specialize (Hpix j t ltac:(lia) Hjt). destruct t as [[r g] b].
        unfold pixel_is in *. rewrite !put4_lookup by lia.
        repeat split; repeat case_decide; try lia; apply Hpix.
    + intros k Hk. rewrite put4_lookup by lia.
      repeat case_decide; try lia. apply Hframe. lia.
Qed.

Lemma chart_rows (m : nat) (data : list Z) :
  (m <= 256)%nat -> (pixel_index 256 0 <= length data)%nat ->
  exists data' : list Z,
    foldM (fun i => for_upto_m 256 (put_pixel tints deltas i)) (seq 0 m)
      data = Ok data'
    /\ length data' = length data
    /\ (forall (i j : nat) (t : tint),
          (i < m)%nat -> (j < 256)%nat -> tints !! j = Some t ->
          pixel_is data' (pixel_index i j) t i)
    /\ (forall k : nat,
          (pixel_index m 0 <= k)%nat -> data' !! k = data !! k).
Proof using tints_length.
  intros Hm Hlen. induction m as [|m IH].
  - exists data. repeat split. intros; lia.
  - destruct IH as (d1 & Hd1 & Hl1 & Hpix & Hframe); [lia|].
    destruct (chart_row m 256 d1) as (d2 & Hd2 & Hl2 & Hpix2 & Hframe2);
      [lia | unfold pixel_index in *; lia |].
    rewrite seq_S, foldM_app, Hd1. cbn [mbind result_bind foldM plus].
    unfold for_upto_m. rewrite Hd2. cbn [mbind result_bind].
    exists d2. split; [reflexivity|]. split; [congruence|]. split.
    + intros i j t Hi Hj Hjt. destruct (decide (i = m)) as [->|Hne].
      * by apply Hpix2.
      * specialize (Hpix i j t ltac:(lia) Hj Hjt). destruct t as [[r g] b].
        unfold pixel_is, pixel_index in *.
        rewrite !Hframe2 by lia. exact Hpix.
    + intros k Hk. unfold pixel_index in *.
      rewrite Hframe2 by lia. apply Hframe. lia.
Qed.

Lemma chart_data_pixels :
  exists data : list Z,
    chart_data tints = Ok data
    /\ length data = (256 * 256 * 4)%nat
    /\ forall (i j : nat) (t : tint),
         (i < 256)%nat -> (j < 256)%nat -> tints !! j = Some t ->
         pixel_is data (pixel_index i j) t i.
Proof using tints_length.
  destruct (chart_rows 256 (createImageData 256 256))
    as (d & Hd & Hl & Hpix & _).
  - lia.
  - unfold createImageData, pixel_index. rewrite length_replicate.
    generalize (256 * 256)%nat. intros a. lia.
  - exists d. split; [exact Hd|]. split; [|exact Hpix].
    rewrite Hl. unfold createImageData. apply length_replicate.
Qed.

End Chart.

Lemma chart_channel_scaled (t : num) (i : nat) :
  chart_channel t i
  = toUint8Clamp (t * (1 - Num.of_nat i / 255) * 255)%num.
Proof.
  unfold chart_channel. f_equal. destruct t as [x|]; [|reflexivity].
  num_cases.
Qed.

Lemma chart_channel_row_0 (t : num) :
  chart_channel t 0 = toUint8Clamp (t * 255)%num.
Proof.
  unfold chart_channel. f_equal. destruct t as [x|]; [|reflexivity].
  num_cases; cbn [INR]; f_equal; lra.
Qed.

Lemma chart_channel_row_255 (t : num) : chart_channel t 255 = 0%Z.
Proof.
  unfold chart_channel. destruct t as [x|]; [|reflexivity].
  unfold Num.of_nat. rewrite INR_IZR_INZ. change (Z.of_nat 255) with 255%Z.
  num_cases. unfold toUint8Clamp. case_decide; [reflexivity|]. lra.
Qed.

(** The bytes [renderChart] leaves in the image, with the expression of the
    source for each channel. *)
Lemma renderChart_bytes (s : picker) :
  length (current_tints s) = 256%nat ->
  exists s' : picker,
    renderChart s = Ok s'
    /\ length (chart_image s') = (256 * 256 * 4)%nat
    /\ forall (i j : nat) (t : tint),
         (i < 256)%nat -> (j < 256)%nat -> current_tints s !! j = Some t ->
         pixel_is (chart_image s') (pixel_index i j) t i.
Proof.
  intros Hlen. unfold renderChart.
  destruct (chart_data_pixels (current_tints s) Hlen) as (d & -> & Hl & Hpix).
  cbn [mbind result_bind]. eexists. split; [reflexivity|].
  cbn [chart_image set_chart]. split; [exact Hl | exact Hpix].
Qed.

(** C7.  [renderChart] puts a 256 x 256 image of four bytes per pixel; for
    every row [i] and column [j] the three colour bytes of the pixel are the
    channels of [current_tints[j]] scaled by [1 - i / 255] (times 255, stored
    in the clamped byte array), and the alpha byte is 255. *)
Theorem renderChart_pixels (s : picker) :
  length (current_tints s) = 256%nat ->
  exists s' : picker,
    renderChart s = Ok s'
    /\ length (chart_image s') = (256 * 256 * 4)%nat
    /\ forall (i j : nat) (tr tg tb : num),
         (i < 256)%nat -> (j < 256)%nat ->
         current_tints s !! j = Some (tr, tg, tb) ->
         chart_image s' !! pixel_index i j
         = Some (toUint8Clamp (tr * (1 - Num.of_nat i / 255) * 255)%num)
         /\ chart_image s' !! (pixel_index i j + 1)%nat
            = Some (toUint8Clamp (tg * (1 - Num.of_nat i / 255) * 255)%num)
         /\ chart_image s' !! (pixel_index i j + 2)%nat
            = Some (toUint8Clamp (tb * (1 - Num.of_nat i / 255) * 255)%num)
         /\ chart_image s' !! (pixel_index i j + 3)%nat = Some 255%Z.
Proof.
  intros Hlen. destruct (renderChart_bytes s Hlen) as (s' & Hs' & Hl & Hpix).
  exists s'. split; [exact Hs'|]. split; [exact Hl|].
  intros i j tr tg tb Hi Hj Ht. specialize (Hpix i j _ Hi Hj Ht).
  unfold pixel_is in Hpix. rewrite <- !chart_channel_scaled. exact Hpix.
Qed.

Lemma red_chart_tints : length (current_tints red_chart) = 256%nat.
Proof.
  cbn [current_tints red_chart page]. rewrite length_map. apply length_seq.
Defined.

Lemma renderChart_pixels_witness :
  length (current_tints red_chart) = 256%nat /\
  exists s' : picker,
    renderChart red_chart = Ok s'
    /\ length (chart_image s') = (256 * 256 * 4)%nat
    /\ forall (i j : nat) (tr tg tb : num),
         (i < 256)%nat -> (j < 256)%nat ->
         current_tints red_chart !! j = Some (tr, tg, tb) ->
         chart_image s' !! pixel_index i j
         = Some (toUint8Clamp (tr * (1 - Num.of_nat i / 255) * 255)%num)
         /\ chart_image s' !! (pixel_index i j + 1)%nat
            = Some (toUint8Clamp (tg * (1 - Num.of_nat i / 255) * 255)%num)
         /\ chart_image s' !! (pixel_index i j + 2)%nat
            = Some (toUint8Clamp (tb * (1 - Num.of_nat i / 255) * 255)%num)
         /\ chart_image s' !! (pixel_index i j + 3)%nat = Some 255%Z.
Proof.
  split; [exact red_chart_tints|].
  exact (renderChart_pixels red_chart red_chart_tints).
Defined.

(** Row 0 holds the tint's own colour and row 255 is black. *)
Lemma renderChart_first_and_last_row (s s' : picker) (j : nat)
    (tr tg tb : num) :
  length (current_tints s) = 256%nat -> renderChart s = Ok s' ->
  (j < 256)%nat -> current_tints s !! j = Some (tr, tg, tb) ->
  (chart_image s' !! pixel_index 0 j = Some (toUint8Clamp (tr * 255)%num)
   /\ chart_image s' !! (pixel_index 0 j + 1)%nat
      = Some (toUint8Clamp (tg * 255)%num)
   /\ chart_image s' !! (pixel_index 0 j + 2)%nat
      = Some (toUint8Clamp (tb * 255)%num))
  /\ (chart_image s' !! pixel_index 255 j = Some 0%Z
      /\ chart_image s' !! (pixel_index 255 j + 1)%nat = Some 0%Z
      /\ chart_image s' !! (pixel_index 255 j + 2)%nat = Some 0%Z).
Proof.
  intros Hlen Hs' Hj Ht.
  destruct (renderChart_bytes s Hlen) as (s'' & Hs'' & _ & Hpix).
  rewrite Hs' in Hs''. apply Ok_inj in Hs''. subst s''.
  pose proof (Hpix 0%nat j _ ltac:(lia) Hj Ht) as (H0 & H1 & H2 & _).
  pose proof (Hpix 255%nat j _ ltac:(lia) Hj Ht) as (H3 & H4 & H5 & _).
  rewrite !chart_channel_row_0 in *. rewrite !chart_channel_row_255 in *.
  repeat split; assumption.
Qed.

(** ** What the guards reject and what they let through *)

Lemma check_unit_rejects (name : string) (v : value) :
  rejected v -> check_unit name v = Throw (range_error name).
Proof.
  intros [Hty | (x & -> & Hx)].
  - destruct v; try reflexivity. by destruct Hty.
  - by apply check_unit_out.
Qed.

Lemma check_unit_throws (name : string) (v : value) (msg : string) :
  check_unit name v = Throw msg -> rejected v /\ msg = range_error name.
Proof.
  destruct v as [[x|]| | | |]; unfold check_unit;
    try (intros [= <-]; split; [by left | reflexivity]).
  - num_cases; intros [= <-]; (split; [|reflexivity]);
      right; exists x; (split; [reflexivity | lra]).
  - discriminate.
Qed.

Lemma check_unit_ok_not_rejected (name : string) (v : value) (n : num) :
  check_unit name v = Ok n -> rejected v -> False.
Proof. intros Hok H. by rewrite (check_unit_rejects _ _ H) in Hok. Qed.

Lemma linearize_throws_iff (v : value) : throws (linearize v) <-> rejected v.
Proof.
  unfold linearize. split.
  - intros [msg H]. destruct (check_unit "colourValue" v) as [c|e] eqn:Hc.
    + cbn [mbind result_bind] in H. by destruct (c <=? 0.03928)%num.
    + by apply check_unit_throws in Hc as [? _].
  - intros H. rewrite (check_unit_rejects _ _ H). by eexists.
Qed.

Lemma calcLuminance_rejects (red green blue : value) :
  rejected red \/ rejected green \/ rejected blue ->
  throws (calcLuminance red green blue).
Proof.
  intros H. unfold calcLuminance.
  destruct (check_unit "red" red) as [r|e] eqn:Hr; [|by eexists].
  destruct (check_unit "green" green) as [g|e] eqn:Hg; [|by eexists].
  destruct (check_unit "blue" blue) as [b|e] eqn:Hb; [|by eexists].
  destruct H as [H | [H | H]];
    exfalso; eauto using check_unit_ok_not_rejected.
Qed.

Lemma interpolateTints_rejects (red green blue : value) :
  rejected red \/ rejected green \/ rejected blue ->
  throws (interpolateTints red green blue).
Proof.
  intros H. unfold interpolateTints.
  destruct (check_unit "red" red) as [r|e] eqn:Hr; [|by eexists].
  destruct (check_unit "green" green) as [g|e] eqn:Hg; [|by eexists].
  destruct (check_unit "blue" blue) as [b|e] eqn:Hb; [|by eexists].
  destruct H as [H | [H | H]];
    exfalso; eauto using check_unit_ok_not_rejected.
Qed.

Lemma interpolateTints_rejects_shape (r g b : R) :
  0 <= r <= 1 -> 0 <= g <= 1 -> 0 <= b <= 1 -> ~ pure_hue r g b ->
  interpolateTints (VNum (Fin r)) (VNum (Fin g)) (VNum (Fin b))
  = Throw hue_error.
Proof.
  intros Hr Hg Hb Hn. unfold interpolateTints.
  rewrite !check_unit_fin by assumption. cbn [mbind result_bind].
  replace (_ || _ || _) with true; [reflexivity|].
  num_cases; exfalso; apply Hn; unfold pure_hue; intuition lra.
Qed.

Lemma shadeToLuminance_rejects (target red green blue : value) :
  rejected target \/ rejected red \/ rejected green \/ rejected blue ->
  throws (shadeToLuminance target red green blue).
Proof.
  intros H. unfold shadeToLuminance.
  destruct (check_unit "targetLuminance" target) as [t|e] eqn:Ht;
    [|by eexists].
  destruct (check_unit "red" red) as [r|e] eqn:Hr; [|by eexists].
  destruct (check_unit "green" green) as [g|e] eqn:Hg; [|by eexists].
  destruct (check_unit "blue" blue) as [b|e] eqn:Hb; [|by eexists].
  destruct H as [H | [H | [H | H]]];
    exfalso; eauto using check_unit_ok_not_rejected.
Qed.

Lemma shadeToLuminance_rejects_shape (t r g b : R) :
  0 <= t <= 1 -> 0 <= r <= 1 -> 0 <= g <= 1 -> 0 <= b <= 1 ->
  r <> 1 -> g <> 1 -> b <> 1 ->
  shadeToLuminance (VNum (Fin t)) (VNum (Fin r)) (VNum (Fin g)) (VNum (Fin b))
  = Throw tint_error.
Proof.
  intros Ht Hr Hg Hb Hr1 Hg1 Hb1. unfold shadeToLuminance.
  rewrite !check_unit_fin by assumption. cbn [mbind result_bind].
  replace (_ && _ && _) with true; [reflexivity|]. num_cases.
Qed.

(** Accepted input is not refused because the result is large: the shade of
    pure red for the target luminance 1 is returned, and it exceeds 1. *)
Lemma shadeToLuminance_above_1 :
  exists x : R,
    shadeToLuminance (VNum (Fin 1)) (VNum (Fin 1)) (VNum (Fin 0))
      (VNum (Fin 0)) = Ok (Fin x)
    /\ 1 < x.
Proof.
  assert (Hp : pure_tint 1 0 0) by (unfold pure_tint; lra).
  eexists. split; [apply shadeToLuminance_fin; [lra | exact Hp]|].
  pose proof (shade_darker_tint 1 1 1 1 1 0 0) as H.
  rewrite luminance_white in H.
  assert (H1 : shade 1 1 1 1 = 1).
  { unfold shade. cbv zeta. rewrite luminance_white.
    replace (1 / 1) with 1 by lra. case_decide; [exfalso; lra|].
    rewrite Rpower_1_l. lra. }
  rewrite H1 in H. apply H; try lra.
  unfold luminance. rewrite linear_1, linear_0. lra.
Qed.

(** C8.  The code at the failing input NaN: each of the four functions lets
    a NaN argument through its guard ([typeof NaN] is ["number"] and both
    [NaN < 0] and [NaN > 1] are false) and returns instead of throwing. *)
Theorem guards_let_NaN_through :
  linearize (VNum NaN) = Ok NaN
  /\ calcLuminance (VNum NaN) (VNum (Fin 0)) (VNum (Fin 0)) = Ok NaN
  /\ returns (interpolateTints (VNum NaN) (VNum (Fin 0)) (VNum (Fin 1)))
  /\ shadeToLuminance (VNum NaN) (VNum (Fin 1)) (VNum (Fin 1)) (VNum (Fin 1))
     = Ok NaN
  /\ shadeToLuminance (VNum (Fin 0.5)) (VNum NaN) (VNum (Fin 1))
       (VNum (Fin 1)) = Ok NaN.
Proof.
  split; [reflexivity|]. split.
  { unfold calcLuminance. rewrite check_unit_nan, !check_unit_fin by lra.
    cbn [mbind result_bind]. rewrite !linearize_fin by lra. reflexivity. }
  split.
  { unfold interpolateTints.
    rewrite check_unit_nan, !check_unit_fin by lra. cbn [mbind result_bind].
    replace (_ || _ || _) with false; [by eexists|]. num_cases. }
  split.
  { apply shadeToLuminance_nan. exact pure_tint_white. }
  unfold shadeToLuminance.
  rewrite check_unit_nan, !check_unit_fin by lra. cbn [mbind result_bind].
  replace (_ && _ && _) with false by num_cases.
  unfold calcLuminance. rewrite check_unit_nan, !check_unit_fin by lra.
  cbn [mbind result_bind]. rewrite !linearize_fin by lra. reflexivity.
Qed.

(** * Further properties of the code *)

(** ** Powers with the exponents 2.4 and 1 / 2.4 *)

Lemma Rpower_24_inv (x : R) : 0 < x -> Rpower (Rpower x 2.4) (1 / 2.4) = x.
Proof.
  intros Hx. rewrite Rpower_mult. replace (2.4 * (1 / 2.4)) with 1 by lra.
  by apply Rpower_1.
Qed.

Lemma Rpower_24_pow (a : R) : 0 < a -> Rpower (Rpower a 2.4) 5 = a ^ 12.
Proof.
  intros Ha. rewrite Rpower_mult. replace (2.4 * 5) with (INR 12).
  - by apply Rpower_pow.
  - rewrite INR_IZR_INZ. change (Z.of_nat 12) with 12%Z. lra.
Qed.

Lemma Rpower_5_pow (x : R) : 0 < x -> Rpower x 5 = x ^ 5.
Proof.
  intros Hx. replace 5 with (INR 5).
  - by apply Rpower_pow.
  - rewrite INR_IZR_INZ. reflexivity.
Qed.

(** Comparing [a ^ 2.4] with [k] through the integer powers [a ^ 12] and
    [k ^ 5]. *)
Lemma Rpower_24_lt (a k : R) :
  0 < a -> 0 < k -> a ^ 12 < k ^ 5 -> Rpower a 2.4 < k.
Proof.
  intros Ha Hk H. destruct (Rlt_le_dec (Rpower a 2.4) k) as [|Hle]; [done|].
  exfalso. assert (Rpower k 5 <= Rpower (Rpower a 2.4) 5)
    by (apply Rle_Rpower_l; lra).
  rewrite Rpower_24_pow, Rpower_5_pow in * by assumption. lra.
Qed.




(** The power branch of [shadeToLuminance] starts above 0.03928, the value
    the linear branch ends at. *)
Lemma shade_threshold_gap (x : R) :
  0.03928 / 12.92 <= x ->
  (0.03928 + 0.055) / 1.055 < Rpower x (1 / 2.4).
Proof.
  intros Hx.
  assert (Hlt : Rpower ((0.03928 + 0.055) / 1.055) 2.4 < x).
  { eapply Rlt_le_trans; [|exact Hx]. apply Rpower_24_lt; lra. }
  rewrite <- (Rpower_24_inv ((0.03928 + 0.055) / 1.055)) at 1 by lra.
  apply Rlt_Rpower_l; [lra|]. split; [apply exp_pos | exact Hlt].
Qed.

(** ** [linearize] and [calcLuminance]: range, extremes and order *)



(** X1.  On a real of the unit interval [linearize] returns a real of the
    unit interval, 0 at 0 and 1 at 1. *)
Theorem linearize_range (c : R) :
  0 <= c <= 1 ->
  exists y : R,
    linearize (VNum (Fin c)) = Ok (Fin y)
    /\ 0 <= y <= 1 /\ (c = 0 -> y = 0) /\ (c = 1 -> y = 1).
Proof.
  intros H. exists (linear c). split; [by apply linearize_fin|].
  split; [by apply linear_bounds|].
  split; intros ->; [apply linear_0 | apply linear_1].
Qed.

Lemma linearize_range_witness :
  0 <= 1 <= 1 /\
  exists y : R,
    linearize (VNum (Fin 1)) = Ok (Fin y)
    /\ 0 <= y <= 1 /\ (1 = 0 -> y = 0) /\ (1 = 1 -> y = 1).
Proof.
  assert (H : 0 <= 1 <= 1) by lra.
  split; [exact H | exact (linearize_range 1 H)].
Defined.





(** X4.  On reals of the unit interval [calcLuminance] returns a real of the
    unit interval, 0 for black and 1 for white. *)
Theorem calcLuminance_range (r g b : R) :
  0 <= r <= 1 -> 0 <= g <= 1 -> 0 <= b <= 1 ->
  exists L : R,
    calcLuminance (VNum (Fin r)) (VNum (Fin g)) (VNum (Fin b)) = Ok (Fin L)
    /\ 0 <= L <= 1
    /\ (r = 0 /\ g = 0 /\ b = 0 -> L = 0)
    /\ (r = 1 /\ g = 1 /\ b = 1 -> L = 1).
Proof.
  intros Hr Hg Hb. exists (luminance r g b).
  split; [by apply calcLuminance_fin|].
  split; [by apply luminance_bounds|].
  split; intros (-> & -> & ->); [apply luminance_black | apply luminance_white].
Qed.

Lemma calcLuminance_range_witness :
  0 <= 1 <= 1 /\
  exists L : R,
    calcLuminance (VNum (Fin 1)) (VNum (Fin 1)) (VNum (Fin 1)) = Ok (Fin L)
    /\ 0 <= L <= 1
    /\ (1 = 0 /\ 1 = 0 /\ 1 = 0 -> L = 0)
    /\ (1 = 1 /\ 1 = 1 /\ 1 = 1 -> L = 1).
Proof.
  assert (H : 0 <= 1 <= 1) by lra.
  split; [exact H | exact (calcLuminance_range 1 1 1 H H H)].
Defined.

(** ** [shadeToLuminance]: sign, reachability and order *)

(** The shade as a function of the scaled luminance [x = t / L]. *)
Lemma shade_cases (t r g b : R) :
  let x := t / luminance r g b in
  (x < 0.03928 / 12.92 /\ shade t r g b = x * 12.92)
  \/ (0.03928 / 12.92 <= x
      /\ shade t r g b = Rpower x (1 / 2.4) * 1.055 - 0.055
      /\ 0.03928 < shade t r g b).
Proof.
  cbv zeta. unfold shade. cbv zeta. case_decide as Hx; [left; done|].
  right. split; [lra|]. split; [reflexivity|].
  pose proof (shade_threshold_gap (t / luminance r g b)). lra.
Qed.

Lemma scaled_order (t1 t2 L : R) :
  0 < L -> t1 < t2 -> t1 / L < t2 / L.
Proof.
  intros HL H. unfold Rdiv. apply Rmult_lt_compat_r; [|exact H].
  by apply Rinv_0_lt_compat.
Qed.

Lemma scaled_sign (t L : R) : 0 < L -> 0 <= t -> 0 <= t / L.
Proof.
  intros HL Ht. unfold Rdiv. apply Rmult_le_pos; [exact Ht|].
  left. by apply Rinv_0_lt_compat.
Qed.

Lemma scaled_le_1 (t L : R) : 0 < L -> t / L <= 1 <-> t <= L.
Proof.
  intros HL. split; intros H.
  - apply (Rmult_le_compat_r L) in H; [|lra].
    unfold Rdiv in H. rewrite Rmult_assoc, Rinv_l in H; lra.
  - apply (Rmult_le_reg_r L); [exact HL|].
    unfold Rdiv. rewrite Rmult_assoc, Rinv_l; lra.
Qed.

Lemma scaled_eq_0 (t L : R) : 0 < L -> t / L = 0 <-> t = 0.
Proof.
  intros HL. split; intros H; [|subst; unfold Rdiv; lra].
  apply (Rmult_eq_compat_r L) in H.
  unfold Rdiv in H. rewrite Rmult_assoc, Rinv_l in H; lra.
Qed.

Lemma shade_sign_reach (t r g b : R) :
  0 <= t <= 1 -> pure_tint r g b ->
  0 <= shade t r g b
  /\ (shade t r g b = 0 <-> t = 0)
  /\ (shade t r g b <= 1 <-> t <= luminance r g b).
Proof.
  intros Ht Hp. pose proof (calcLuminance_pure_tint r g b Hp) as HL.
  pose proof (scaled_sign t _ (proj1 HL) (proj1 Ht)) as Hx0.
  pose proof (scaled_le_1 t _ (proj1 HL)) as Hx1.
  pose proof (scaled_eq_0 t _ (proj1 HL)) as Hxz.
  destruct (shade_cases t r g b) as [[Hx ->] | (Hx & Hs & Hgap)].
  - split; [lra|]. split; [split; intros; [apply Hxz|]; lra|].
    split; intros; [apply Hx1|]; lra.
  - split; [lra|]. split.
    { split; intros H; [lra|]. apply Hxz in H. lra. }
    rewrite Hs. rewrite <- Hx1. split; intros H.
    + destruct (Rle_lt_dec (t / luminance r g b) 1) as [|Hgt]; [done|].
      assert (Rpower 1 (1 / 2.4) < Rpower (t / luminance r g b) (1 / 2.4))
        by (apply Rlt_Rpower_l; lra).
      rewrite Rpower_1_l in *. lra.
    + assert (Rpower (t / luminance r g b) (1 / 2.4) <= Rpower 1 (1 / 2.4))
        by (apply Rle_Rpower_l; lra).
      rewrite Rpower_1_l in *. lra.
Qed.

Lemma shade_lt (t1 t2 r g b : R) :
  0 <= t1 -> t1 < t2 -> pure_tint r g b ->
  shade t1 r g b < shade t2 r g b.
Proof.
  intros H0 H12 Hp. pose proof (calcLuminance_pure_tint r g b Hp) as HL.
  pose proof (scaled_order t1 t2 _ (proj1 HL) H12) as Hx.
  pose proof (scaled_sign t1 _ (proj1 HL) H0) as Hx0.
  destruct (shade_cases t1 r g b) as [[Hx1 ->] | (Hx1 & Hs1 & Hg1)];
    destruct (shade_cases t2 r g b) as [[Hx2 ->] | (Hx2 & Hs2 & Hg2)];
    try lra.
  rewrite Hs1, Hs2.
  assert (Rpower (t1 / luminance r g b) (1 / 2.4)
          < Rpower (t2 / luminance r g b) (1 / 2.4))
    by (apply Rlt_Rpower_l; lra).
  lra.
Qed.

(** X5.  For a target in the unit interval and a pure tint,
    [shadeToLuminance] returns a shade that is never negative, is 0 only for
    the target 0, and is at most 1 whenever the target does not exceed the
    luminance of the tint: a shade above 1 means that the tint cannot reach
    the target. *)
Theorem shadeToLuminance_reachable (t r g b : R) :
  0 <= t <= 1 -> pure_tint r g b ->
  exists s L : R,
    shadeToLuminance (VNum (Fin t)) (VNum (Fin r)) (VNum (Fin g))
      (VNum (Fin b)) = Ok (Fin s)
    /\ calcLuminance (VNum (Fin r)) (VNum (Fin g)) (VNum (Fin b)) = Ok (Fin L)
    /\ 0 <= s /\ (s = 0 <-> t = 0) /\ (t <= L -> s <= 1).
Proof.
  intros Ht Hp. exists (shade t r g b), (luminance r g b).
  split; [by apply shadeToLuminance_fin|].
  split; [destruct Hp as [(? & ? & ?) _]; by apply calcLuminance_fin|].
  destruct (shade_sign_reach t r g b Ht Hp) as (H0 & Hz & Hle).
  split; [exact H0|]. split; [exact Hz | apply Hle].
Qed.

Lemma pure_tint_red : pure_tint 1 0 0.
Proof. unfold pure_tint. lra. Defined.

Lemma shadeToLuminance_reachable_witness :
  0 <= 0.1795 <= 1 /\ pure_tint 1 0 0 /\
  exists s L : R,
    shadeToLuminance (VNum (Fin 0.1795)) (VNum (Fin 1)) (VNum (Fin 0))
      (VNum (Fin 0)) = Ok (Fin s)
    /\ calcLuminance (VNum (Fin 1)) (VNum (Fin 0)) (VNum (Fin 0)) = Ok (Fin L)
    /\ 0 <= s /\ (s = 0 <-> 0.1795 = 0) /\ (0.1795 <= L -> s <= 1).
Proof.
  assert (Ht : 0 <= 0.1795 <= 1) by lra.
  split; [exact Ht|]. split; [exact pure_tint_red|].
  exact (shadeToLuminance_reachable 0.1795 1 0 0 Ht pure_tint_red).
Defined.

(** X6.  For a fixed pure tint the shade does not decrease when the target
    luminance grows. *)
Theorem shadeToLuminance_increasing (t1 t2 r g b : R) :
  0 <= t1 -> t1 <= t2 -> t2 <= 1 -> pure_tint r g b ->
  exists s1 s2 : R,
    shadeToLuminance (VNum (Fin t1)) (VNum (Fin r)) (VNum (Fin g))
      (VNum (Fin b)) = Ok (Fin s1)
    /\ shadeToLuminance (VNum (Fin t2)) (VNum (Fin r)) (VNum (Fin g))
         (VNum (Fin b)) = Ok (Fin s2)
    /\ s1 <= s2.
Proof.
  intros H0 H12 H1 Hp. exists (shade t1 r g b), (shade t2 r g b).
  split; [apply shadeToLuminance_fin; [lra | done]|].
  split; [apply shadeToLuminance_fin; [lra | done]|].
  destruct H12 as [H12 | ->]; [|apply Rle_refl].
  apply Rlt_le. by apply shade_lt.
Qed.

Lemma shadeToLuminance_increasing_witness :
  0 <= 0.1 /\ 0.1 <= 0.2 /\ 0.2 <= 1 /\ pure_tint 1 0 0 /\
  exists s1 s2 : R,
    shadeToLuminance (VNum (Fin 0.1)) (VNum (Fin 1)) (VNum (Fin 0))
      (VNum (Fin 0)) = Ok (Fin s1)
    /\ shadeToLuminance (VNum (Fin 0.2)) (VNum (Fin 1)) (VNum (Fin 0))
         (VNum (Fin 0)) = Ok (Fin s2)
    /\ s1 <= s2.
Proof.
  assert (H0 : 0 <= 0.1) by lra. assert (H12 : 0.1 <= 0.2) by lra.
  assert (H1 : 0.2 <= 1) by lra.
  repeat (split; [assumption || exact pure_tint_red|]).
  exact (shadeToLuminance_increasing 0.1 0.2 1 0 0 H0 H12 H1 pure_tint_red).
Defined.

(** ** The errors of the four functions *)

Lemma check_unit_accepts (name : string) (v : value) :
  ~ rejected v ->
  exists n : num, v = VNum n /\ passes_guard n /\ check_unit name v = Ok n.
Proof.
  intros Hn. destruct v as [[x|]| | | |];
    try (exfalso; apply Hn; left; discriminate).
  - exists (Fin x). split; [done|].
    assert (0 <= x <= 1).
    { destruct (Rlt_le_dec x 0); [exfalso; apply Hn; right; eauto|].
      destruct (Rlt_le_dec 1 x); [exfalso; apply Hn; right; eauto|]. lra. }
    split; [right; eauto | by apply check_unit_fin].
  - exists NaN. split; [done|]. split; [by left | done].
Qed.

Lemma linearize_passes (n : num) :
  passes_guard n -> returns (linearize (VNum n)).
Proof.
  intros [-> | (x & -> & Hx)]; [by eexists|].
  rewrite linearize_fin by done. by eexists.
Qed.

(** X8.  [calcLuminance] throws exactly when an argument is not of type
    number or is a real outside [0, 1]; the message names the first such
    argument in the order red, green, blue. *)
Theorem calcLuminance_errors (red green blue : value) :
  (rejected red ->
   calcLuminance red green blue = Throw (range_error "red"))
  /\ (~ rejected red -> rejected green ->
      calcLuminance red green blue = Throw (range_error "green"))
  /\ (~ rejected red -> ~ rejected green -> rejected blue ->
      calcLuminance red green blue = Throw (range_error "blue"))
  /\ (~ rejected red -> ~ rejected green -> ~ rejected blue ->
      returns (calcLuminance red green blue)).
Proof.
  unfold calcLuminance. repeat split.
  - intros H. by rewrite (check_unit_rejects _ _ H).
  - intros Hr Hg. destruct (check_unit_accepts "red" _ Hr) as (r & _ & _ & ->).
    by rewrite (check_unit_rejects _ _ Hg).
  - intros Hr Hg Hb.
    destruct (check_unit_accepts "red" _ Hr) as (r & _ & _ & ->).
    destruct (check_unit_accepts "green" _ Hg) as (g & _ & _ & ->).
    by rewrite (check_unit_rejects _ _ Hb).
  - intros Hr Hg Hb.
    destruct (check_unit_accepts "red" _ Hr) as (r & _ & Pr & ->).
    destruct (check_unit_accepts "green" _ Hg) as (g & _ & Pg & ->).
    destruct (check_unit_accepts "blue" _ Hb) as (b & _ & Pb & ->).
    cbn [mbind result_bind].
    destruct (linearize_passes r Pr) as [lr ->].
    destruct (linearize_passes g Pg) as [lg ->].
    destruct (linearize_passes b Pb) as [lb ->].
    by eexists.
Qed.

(** X9.  [interpolateTints] reports a range error for the first argument
    that is not a number or is a real outside [0, 1]; on reals of the unit
    interval it returns exactly when one component is 1 and another is 0,
    and throws the pure-hue error otherwise. *)
Theorem interpolateTints_errors :
  (forall red green blue : value,
     (rejected red ->
      interpolateTints red green blue = Throw (range_error "red"))
     /\ (~ rejected red -> rejected green ->
         interpolateTints red green blue = Throw (range_error "green"))
     /\ (~ rejected red -> ~ rejected green -> rejected blue ->
         interpolateTints red green blue = Throw (range_error "blue")))
  /\ (forall r g b : R,
        0 <= r <= 1 -> 0 <= g <= 1 -> 0 <= b <= 1 ->
        (pure_hue r g b ->
         returns (interpolateTints (VNum (Fin r)) (VNum (Fin g))
                    (VNum (Fin b))))
        /\ (~ pure_hue r g b ->
            interpolateTints (VNum (Fin r)) (VNum (Fin g)) (VNum (Fin b))
            = Throw hue_error)).
Proof.
  split.
  - intros red green blue. unfold interpolateTints. repeat split.
    + intros H. by rewrite (check_unit_rejects _ _ H).
    + intros Hr Hg.
      destruct (check_unit_accepts "red" _ Hr) as (r & _ & _ & ->).
      by rewrite (check_unit_rejects _ _ Hg).
    + intros Hr Hg Hb.
      destruct (check_unit_accepts "red" _ Hr) as (r & _ & _ & ->).
      destruct (check_unit_accepts "green" _ Hg) as (g & _ & _ & ->).
      by rewrite (check_unit_rejects _ _ Hb).
  - intros r g b Hr Hg Hb. split.
    + intros H. rewrite interpolateTints_fin by done. by eexists.
    + by apply interpolateTints_rejects_shape.
Qed.

(** X10.  [shadeToLuminance] checks the ranges before the shape: the first
    argument that is not a number or is a real outside [0, 1] is named in
    the error, in the order targetLuminance, red, green, blue; on reals of
    the unit interval it returns exactly when a colour component is 1 and
    throws the pure-tint error otherwise. *)
Theorem shadeToLuminance_errors :
  (forall target red green blue : value,
     (rejected target ->
      shadeToLuminance target red green blue
      = Throw (range_error "targetLuminance"))
     /\ (~ rejected target -> rejected red ->
         shadeToLuminance target red green blue = Throw (range_error "red"))
     /\ (~ rejected target -> ~ rejected red -> rejected green ->
         shadeToLuminance target red green blue
         = Throw (range_error "green"))
     /\ (~ rejected target -> ~ rejected red -> ~ rejected green ->
         rejected blue ->
         shadeToLuminance target red green blue
         = Throw (range_error "blue")))
  /\ (forall t r g b : R,
        0 <= t <= 1 -> 0 <= r <= 1 -> 0 <= g <= 1 -> 0 <= b <= 1 ->
        (r = 1 \/ g = 1 \/ b = 1 ->
         returns (shadeToLuminance (VNum (Fin t)) (VNum (Fin r))
                    (VNum (Fin g)) (VNum (Fin b))))
        /\ (~ (r = 1 \/ g = 1 \/ b = 1) ->
            shadeToLuminance (VNum (Fin t)) (VNum (Fin r)) (VNum (Fin g))
              (VNum (Fin b)) = Throw tint_error)).
Proof.
  split.
  - intros target red green blue. unfold shadeToLuminance. repeat split.
    + intros H. by rewrite (check_unit_rejects _ _ H).
    + intros Ht Hr.
      destruct (check_unit_accepts "targetLuminance" _ Ht) as (t & _ & _ & ->).
      by rewrite (check_unit_rejects _ _ Hr).
    + intros Ht Hr Hg.
      destruct (check_unit_accepts "targetLuminance" _ Ht) as (t & _ & _ & ->).
      destruct (check_unit_accepts "red" _ Hr) as (r & _ & _ & ->).
      by rewrite (check_unit_rejects _ _ Hg).
    + intros Ht Hr Hg Hb.
      destruct (check_unit_accepts "targetLuminance" _ Ht) as (t & _ & _ & ->).
      destruct (check_unit_accepts "red" _ Hr) as (r & _ & _ & ->).
      destruct (check_unit_accepts "green" _ Hg) as (g & _ & _ & ->).
      by rewrite (check_unit_rejects _ _ Hb).
  - intros t r g b Ht Hr Hg Hb. split.
    + intros H. rewrite shadeToLuminance_fin by done. by eexists.
    + intros H. apply shadeToLuminance_rejects_shape; try done; lra.
Qed.

(** ** [recalculateColour] over the whole field *)

Lemma blend_bounds (h p q : R) :
  0 <= h <= 1 -> 0 <= p <= 1 -> 0 <= q <= 1 -> 0 <= blend h p q <= 1.
Proof.
  intros Hh Hp Hq. unfold blend.
  assert (Ha : 0 <= 1 + (h - 1) * p <= 1).
  { assert (0 <= (1 - h) * p) by (apply Rmult_le_pos; lra).
    assert (0 <= (1 - h) * (1 - p)) by (apply Rmult_le_pos; lra). lra. }
  split; [apply Rmult_le_pos; lra|].
  assert (0 <= (1 - (1 + (h - 1) * p)) * (1 - q))
    by (apply Rmult_le_pos; lra).
  lra.
Qed.

Lemma clamp8_byte (x : R) :
  0 <= x <= 1 ->
  (0 <= Zfloor (x * 255 + / 2) <= 255)%Z /\ 0 <= clamp8 x <= 1.
Proof.
  intros Hx. pose proof (Zfloor_bound (x * 255 + / 2)) as [Hlo Hhi].
  assert (Hz : (0 <= Zfloor (x * 255 + / 2) <= 255)%Z).
  { split.
    - apply Z.lt_succ_r, lt_IZR. rewrite succ_IZR. lra.
    - apply Z.lt_succ_r, lt_IZR. rewrite succ_IZR. lra. }
  split; [exact Hz|]. unfold clamp8. destruct Hz as [H0 H255].
  apply IZR_le in H0, H255. lra.
Qed.

Lemma clamp8_of_byte (k : Z) : clamp8 (IZR k / 255) = IZR k / 255.
Proof.
  unfold clamp8. f_equal. f_equal. apply Zfloor_eq. lra.
Qed.

Lemma clamp_fin (x : R) :
  (Num.round (Fin x * 255) / 255)%num = Fin (clamp8 x).
Proof. unfold Num.round, clamp8. num_cases. Qed.

Lemma recalculateColour_fin (s : picker) (hr hg hb p q : R) :
  current_hue s = (Fin hr, Fin hg, Fin hb) ->
  position_left s = Fin p -> position_bottom s = Fin q ->
  0 <= clamp8 (blend hr p q) <= 1 -> 0 <= clamp8 (blend hg p q) <= 1 ->
  0 <= clamp8 (blend hb p q) <= 1 ->
  let red := clamp8 (blend hr p q) in
  let green := clamp8 (blend hg p q) in
  let blue := clamp8 (blend hb p q) in
  recalculateColour s
  = Ok (set_colour s (Fin red, Fin green, Fin blue)
          (Fin (luminance red green blue))
          (Fin (red * 255), Fin (green * 255), Fin (blue * 255))
          (Fixed (Fin (luminance red green blue)) 5)
          (if decide (luminance red green blue < 0.1792)
           then "white" else "black")).
Proof.
  intros Hh Hl Hb Br Bg Bb. cbv zeta. unfold recalculateColour.
  rewrite Hh, Hl, Hb. cbv zeta.
  change (1 + (Fin hr - 1) * Fin p)%num with (Fin (1 + (hr - 1) * p)).
  change (1 + (Fin hg - 1) * Fin p)%num with (Fin (1 + (hg - 1) * p)).
  change (1 + (Fin hb - 1) * Fin p)%num with (Fin (1 + (hb - 1) * p)).
  change (Fin (1 + (hr - 1) * p) * (1 - Fin q))%num with (Fin (blend hr p q)).
  change (Fin (1 + (hg - 1) * p) * (1 - Fin q))%num with (Fin (blend hg p q)).
  change (Fin (1 + (hb - 1) * p) * (1 - Fin q))%num with (Fin (blend hb p q)).
  rewrite !clamp_fin. rewrite calcLuminance_fin by assumption.
  cbn [mbind result_bind]. do 2 f_equal.
  unfold Num.ltb. case_bool_decide; case_decide; done.
Qed.

(** X11.  For a hue of the unit cube and a pointer position of the unit
    square [recalculateColour] returns; the current colour is 8-bit (each
    component is [k / 255] for an integer [k] of 0..255, the number shown in
    [rgb(...)]), the current luminance is the luminance of that colour and
    lies in the unit interval, and no other variable changes. *)
Theorem recalculateColour_eight_bit (s : picker) (hr hg hb p q : R) :
  current_hue s = (Fin hr, Fin hg, Fin hb) ->
  0 <= hr <= 1 -> 0 <= hg <= 1 -> 0 <= hb <= 1 ->
  position_left s = Fin p -> 0 <= p <= 1 ->
  position_bottom s = Fin q -> 0 <= q <= 1 ->
  exists (s' : picker) (kr kg kb : Z) (L : R),
    recalculateColour s = Ok s'
    /\ (0 <= kr <= 255)%Z /\ (0 <= kg <= 255)%Z /\ (0 <= kb <= 255)%Z
    /\ current_colour s'
       = (Fin (IZR kr / 255), Fin (IZR kg / 255), Fin (IZR kb / 255))
    /\ selected_colour s' = (Fin (IZR kr), Fin (IZR kg), Fin (IZR kb))
    /\ current_luminance s' = Fin L /\ 0 <= L <= 1
    /\ calcLuminance (VNum (Fin (IZR kr / 255))) (VNum (Fin (IZR kg / 255)))
         (VNum (Fin (IZR kb / 255))) = Ok (Fin L)
    /\ current_hue s' = current_hue s
    /\ current_tints s' = current_tints s
    /\ position_left s' = position_left s
    /\ position_bottom s' = position_bottom s
    /\ line_mode s' = line_mode s
    /\ contrast_ratio s' = contrast_ratio s
    /\ contrast_upper_luminance s' = contrast_upper_luminance s
    /\ contrast_lower_luminance s' = contrast_lower_luminance s
    /\ chart_image s' = chart_image s
    /\ line_calls s' = line_calls s.
Proof.
  intros Hh Br Bg Bb Hl Bp Hq Bq.
  destruct (clamp8_byte _ (blend_bounds hr p q Br Bp Bq)) as [Zr Cr].
  destruct (clamp8_byte _ (blend_bounds hg p q Bg Bp Bq)) as [Zg Cg].
  destruct (clamp8_byte _ (blend_bounds hb p q Bb Bp Bq)) as [Zb Cb].
  rewrite (recalculateColour_fin s hr hg hb p q) by assumption.
  eexists. exists (Zfloor (blend hr p q * 255 + / 2)),
    (Zfloor (blend hg p q * 255 + / 2)), (Zfloor (blend hb p q * 255 + / 2)).
  eexists. split; [reflexivity|].
  cbn [current_colour selected_colour current_luminance set_colour
       current_hue current_tints position_left position_bottom line_mode
       contrast_ratio contrast_upper_luminance contrast_lower_luminance
       chart_image line_calls].
  do 3 (split; [assumption|]). split; [reflexivity|].
  split; [unfold clamp8; repeat f_equal; lra|].
  split; [reflexivity|]. split; [by apply luminance_bounds|].
  split; [by apply calcLuminance_fin|]. repeat split.
Qed.

Lemma recalculateColour_eight_bit_witness :
  exists (s' : picker) (kr kg kb : Z) (L : R),
    recalculateColour red_at_left_0 = Ok s'
    /\ (0 <= kr <= 255)%Z /\ (0 <= kg <= 255)%Z /\ (0 <= kb <= 255)%Z
    /\ current_colour s'
       = (Fin (IZR kr / 255), Fin (IZR kg / 255), Fin (IZR kb / 255))
    /\ selected_colour s' = (Fin (IZR kr), Fin (IZR kg), Fin (IZR kb))
    /\ current_luminance s' = Fin L /\ 0 <= L <= 1
    /\ calcLuminance (VNum (Fin (IZR kr / 255))) (VNum (Fin (IZR kg / 255)))
         (VNum (Fin (IZR kb / 255))) = Ok (Fin L)
    /\ current_hue s' = current_hue red_at_left_0
    /\ current_tints s' = current_tints red_at_left_0
    /\ position_left s' = position_left red_at_left_0
    /\ position_bottom s' = position_bottom red_at_left_0
    /\ line_mode s' = line_mode red_at_left_0
    /\ contrast_ratio s' = contrast_ratio red_at_left_0
    /\ contrast_upper_luminance s' = contrast_upper_luminance red_at_left_0
    /\ contrast_lower_luminance s' = contrast_lower_luminance red_at_left_0
    /\ chart_image s' = chart_image red_at_left_0
    /\ line_calls s' = line_calls red_at_left_0.
Proof.
  apply (recalculateColour_eight_bit red_at_left_0 1 0 0 0 0);
    first [reflexivity | lra].
Defined.

Lemma blend_left_0 (h : R) : blend h 0 0 = 255 / 255.
Proof. unfold blend. lra. Qed.

Lemma blend_left_1 (h : R) : blend h 1 0 = h.
Proof. unfold blend. lra. Qed.

Lemma blend_bottom_1 (h p : R) : blend h p 1 = 0 / 255.
Proof. unfold blend. lra. Qed.

(** X12.  The corners of the field, for an 8-bit hue: the pointer at left = 0,
    bottom = 0 selects white, at left = 1, bottom = 0 it selects the hue
    itself, and anywhere on bottom = 1 it selects black, with luminance 0 and
    a white indicator border. *)
Theorem recalculateColour_corners (s : picker) (kr kg kb : Z) (p q : R) :
  (0 <= kr <= 255)%Z -> (0 <= kg <= 255)%Z -> (0 <= kb <= 255)%Z ->
  current_hue s = (Fin (IZR kr / 255), Fin (IZR kg / 255), Fin (IZR kb / 255)) ->
  position_left s = Fin p -> 0 <= p <= 1 ->
  position_bottom s = Fin q -> 0 <= q <= 1 ->
  exists s' : picker,
    recalculateColour s = Ok s'
    /\ (p = 0 -> q = 0 -> current_colour s' = (Fin 1, Fin 1, Fin 1))
    /\ (p = 1 -> q = 0 -> current_colour s' = current_hue s)
    /\ (q = 1 ->
        current_colour s' = (Fin 0, Fin 0, Fin 0)
        /\ current_luminance s' = Fin 0
        /\ indicator_border s' = "white"%string).
Proof.
  intros Zr Zg Zb Hh Hl Bp Hq Bq.
  assert (Br : 0 <= IZR kr / 255 <= 1)
    by (destruct Zr as [H0 H1]; apply IZR_le in H0, H1; lra).
  assert (Bg : 0 <= IZR kg / 255 <= 1)
    by (destruct Zg as [H0 H1]; apply IZR_le in H0, H1; lra).
  assert (Bb : 0 <= IZR kb / 255 <= 1)
    by (destruct Zb as [H0 H1]; apply IZR_le in H0, H1; lra).
  destruct (clamp8_byte _ (blend_bounds _ p q Br Bp Bq)) as [_ Cr].
  destruct (clamp8_byte _ (blend_bounds _ p q Bg Bp Bq)) as [_ Cg].
  destruct (clamp8_byte _ (blend_bounds _ p q Bb Bp Bq)) as [_ Cb].
  rewrite (recalculateColour_fin s _ _ _ p q Hh Hl Hq Cr Cg Cb).
  eexists. split; [reflexivity|].
  cbn [current_colour current_luminance indicator_border set_colour].
  split; [|split].
  - intros -> ->. rewrite !blend_left_0, !clamp8_of_byte.
    repeat f_equal; lra.
  - intros -> ->. rewrite !blend_left_1, !clamp8_of_byte. by rewrite Hh.
  - intros ->. rewrite !blend_bottom_1, !clamp8_of_byte.
    replace (0 / 255) with 0 by lra. rewrite luminance_black.
    split; [reflexivity|]. split; [reflexivity|]. case_decide; [done | lra].
Qed.

Lemma recalculateColour_corners_witness :
  exists s' : picker,
    recalculateColour orange_at_top_right = Ok s'
    /\ (1 = 0 -> 0 = 0 -> current_colour s' = (Fin 1, Fin 1, Fin 1))
    /\ (1 = 1 -> 0 = 0 -> current_colour s' = current_hue orange_at_top_right)
    /\ (0 = 1 ->
        current_colour s' = (Fin 0, Fin 0, Fin 0)
        /\ current_luminance s' = Fin 0
        /\ indicator_border s' = "white"%string).
Proof.
  apply (recalculateColour_corners orange_at_top_right 255 128 0 1 0);
    first [reflexivity | lia | lra].
Defined.

(** ** [recalculateContrast]: the bounds and the text it accepts *)

(** X13.  When the three components of the reference colour parse and the
    ratio lies in [1, 21], [recalculateContrast] stores
    [0.05 * (20 * L * ratio + ratio - 1)] and
    [(L - 0.05 * ratio + 0.05) / ratio] for the luminance [L] of the
    components clamped to 0..255; the upper bound lies in [0, 22] and the
    lower bound in [-0.05, 1], so the upper bound is never negative and the
    lower bound never exceeds 1. *)
Theorem recalculateContrast_ratio_bounds (s : picker) (zr zg zb : Z)
    (ratio : R) :
  parseInt16 (slice 1 3 (contrast_colour_input s)) = Num.of_Z zr ->
  parseInt16 (slice 3 5 (contrast_colour_input s)) = Num.of_Z zg ->
  parseInt16 (slice 5 7 (contrast_colour_input s)) = Num.of_Z zb ->
  contrast_ratio s = Fin ratio -> 1 <= ratio <= 21 ->
  Forall is_pure_tint (current_tints s) ->
  (1 < length (current_tints s))%nat ->
  exists (s' : picker) (L upper lower : R),
    calcLuminance (VNum (Fin (Rmax 0 (Rmin 255 (IZR zr)) / 255)))
      (VNum (Fin (Rmax 0 (Rmin 255 (IZR zg)) / 255)))
      (VNum (Fin (Rmax 0 (Rmin 255 (IZR zb)) / 255))) = Ok (Fin L)
    /\ recalculateContrast s = Ok s'
    /\ contrast_upper_luminance s' = Fin upper
    /\ contrast_lower_luminance s' = Fin lower
    /\ upper = 0.05 * (20 * L * ratio + ratio - 1)
    /\ lower = (L - 0.05 * ratio + 0.05) / ratio
    /\ 0 <= upper <= 22
    /\ -0.05 <= lower <= 1.
Proof.
  intros Hr Hg Hb Hratio Bratio Hall Hlen.
  destruct (recalculateContrast_bounds s zr zg zb ratio)
    as (s' & L & HL & Hs' & Hu & Hl); try assumption; [lra|].
  assert (BL : 0 <= L <= 1)
    by (subst L; apply luminance_bounds; apply clamp_component_bounds).
  exists s', L, (0.05 * (20 * L * ratio + ratio - 1)),
    ((L - 0.05 * ratio + 0.05) / ratio).
  split; [subst L; apply calcLuminance_fin; apply clamp_component_bounds|].
  split; [exact Hs'|]. split; [exact Hu|]. split; [exact Hl|].
  split; [reflexivity|]. split; [reflexivity|].
  assert (HLR : 0 <= L * ratio <= 21).
  { split; [apply Rmult_le_pos; lra|].
    replace 21 with (1 * 21) by lra. apply Rmult_le_compat; lra. }
  split; [lra|].
  set (W := (L - 0.05 * ratio + 0.05) / ratio).
  assert (HW : ratio * W = L - 0.05 * ratio + 0.05) by (unfold W; field; lra).
  assert (HWlow : -0.05 <= W).
  { destruct (Rle_lt_dec (-0.05) W) as [|Hneg]; [done|]. exfalso.
    assert (ratio * (W + 0.05) < 0).
    { replace 0 with (ratio * 0) by lra. apply Rmult_lt_compat_l; lra. }
    lra. }
  split; [exact HWlow|].
  assert (H2 : 0 <= (ratio - 1) * (W + 0.05)) by (apply Rmult_le_pos; lra).
  lra.
Qed.

Lemma recalculateContrast_ratio_bounds_witness :
  exists (s' : picker) (L upper lower : R),
    calcLuminance (VNum (Fin (Rmax 0 (Rmin 255 255) / 255)))
      (VNum (Fin (Rmax 0 (Rmin 255 255) / 255)))
      (VNum (Fin (Rmax 0 (Rmin 255 255) / 255))) = Ok (Fin L)
    /\ recalculateContrast white_reference_21 = Ok s'
    /\ contrast_upper_luminance s' = Fin upper
    /\ contrast_lower_luminance s' = Fin lower
    /\ upper = 0.05 * (20 * L * 21 + 21 - 1)
    /\ lower = (L - 0.05 * 21 + 0.05) / 21
    /\ 0 <= upper <= 22
    /\ -0.05 <= lower <= 1.
Proof.
  apply (recalculateContrast_ratio_bounds white_reference_21 255 255 255 21);
    first [reflexivity | lra | exact (proj1 white_reference_21_tints)
          | exact (proj2 white_reference_21_tints)].
Defined.

Lemma substring_short (n m : nat) (s : string) :
  (String.length s <= n)%nat -> substring n m s = ""%string.
Proof.
  revert n. induction s as [|c s IH]; intros n Hn.
  - by destruct n, m.
  - destruct n as [|n]; cbn [String.length] in Hn; [lia|].
    cbn [substring]. apply IH. lia.
Qed.

(** X14.  A text of fewer than six characters (the empty text, or a
    three-digit [#RGB]) leaves no blue component to parse:
    [recalculateContrast] returns without changing the state. *)
Theorem recalculateContrast_short_input (s : picker) :
  (String.length (contrast_colour_input s) <= 5)%nat ->
  recalculateContrast s = Ok s.
Proof.
  intros Hn. unfold recalculateContrast. cbv zeta.
  unfold slice at 3. rewrite substring_short by exact Hn.
  change (parseInt16 "") with NaN. cbn [Num.max Num.min Num.lift2 Num.isNaN].
  by rewrite !orb_true_r.
Qed.

Lemma recalculateContrast_short_input_witness :
  (String.length (contrast_colour_input short_reference) <= 5)%nat /\
  recalculateContrast short_reference = Ok short_reference.
Proof.
  assert (H : (String.length (contrast_colour_input short_reference) <= 5)%nat)
    by (cbn; lia).
  split; [exact H | exact (recalculateContrast_short_input _ H)].
Defined.










(** ** [renderLines]: the filled region and the position of the curves *)

Lemma fill_back_tints (r g b target : R) (width height : num)
    (calls : list canvas_op) :
  pure_hue r g b -> 0 <= target <= 1 ->
  for_downto_m 256
    (line_to_column (map (tint_entry r g b) (seq 0 256)) width height
       (Fin target)) calls
  = Ok (calls
        ++ map (fun j => line_to_point
                           (overlay_point r g b target width height j))
             (rev (seq 0 256))).
Proof.
  intros H Ht. unfold for_downto_m. apply foldM_push.
  intros i acc Hi.
  apply list_elem_of_In, in_rev, list_elem_of_In, elem_of_seq in Hi.
  apply line_to_column_tints; [assumption..|lia].
Qed.

(** X16.  In colour mode over the tints of a pure hue, with real bounds
    [upper] and [lower]: nothing is drawn when [upper <= 0] or [lower >= 1];
    otherwise the filled path runs along the top edge (when [upper >= 1]) or
    along the upper curve from column 0 to column 255, preceded by the
    [moveTo] vertex taken from column 1, and comes back along the bottom
    edge (when [lower <= 0]) or along the lower curve from column 255 to
    column 0; it is closed and filled.  Only the canvas calls change. *)
Theorem renderLines_colour_path (s : picker) (r g b upper lower : R) :
  pure_hue r g b ->
  current_tints s = map (tint_entry r g b) (seq 0 256) ->
  line_mode s = "COLOUR"%string ->
  contrast_upper_luminance s = Fin upper ->
  contrast_lower_luminance s = Fin lower ->
  exists calls : list canvas_op,
    renderLines s = Ok (set_lines s calls)
    /\ path_points calls
       = (if decide (upper <= 0 \/ 1 <= lower) then []
          else
            (if decide (1 <= upper)
             then [(Fin 0, Fin 0); (line_width s, Fin 0)]
             else (Fin 0,
                   (overlay_point r g b upper (line_width s) (line_height s)
                      1).2)
                  :: map (overlay_point r g b upper (line_width s)
                            (line_height s)) (seq 0 256))
            ++ (if decide (lower <= 0)
                then [(line_width s, line_height s); (Fin 0, line_height s)]
                else map (overlay_point r g b lower (line_width s)
                            (line_height s)) (rev (seq 0 256))))
    /\ (~ (upper <= 0 \/ 1 <= lower) ->
        exists before : list canvas_op,
          calls = before ++ [ClosePath; Fill]).
Proof.
  intros H Ht Hm Hu Hl. unfold renderLines, line_calls_of.
  rewrite Ht, Hm, Hu, Hl. cbv zeta. cbn [String.eqb Ascii.eqb Bool.eqb].
  rewrite length_map, length_seq.
  unfold Num.geb, Num.leb.
  destruct (decide (upper <= 0 \/ 1 <= lower)) as [Hout|Hin].
  { replace (bool_decide (upper <= 0) || bool_decide (1 <= lower)) with true
      by (symmetry; destruct Hout;
          [rewrite bool_decide_eq_true_2 by done; done
          |rewrite (bool_decide_eq_true_2 (1 <= lower)) by done;
           apply orb_true_r]).
    cbn [mbind result_bind]. eexists. split; [reflexivity|].
    split; [reflexivity | done]. }
  rewrite (bool_decide_eq_false_2 (upper <= 0)) by tauto.
  rewrite (bool_decide_eq_false_2 (1 <= lower)) by tauto.
  cbn [orb].
  destruct (decide (1 <= upper)) as [Htop|Hcurve].
  - rewrite (bool_decide_eq_true_2 (1 <= upper)) by done.
    cbn [mbind result_bind].
    destruct (decide (lower <= 0)) as [Hbot|Hlow].
    + rewrite (bool_decide_eq_true_2 (lower <= 0)) by done.
      cbn [mbind result_bind]. eexists. split; [reflexivity|].
      split; [reflexivity|]. intros _. by eexists.
    + rewrite (bool_decide_eq_false_2 (lower <= 0)) by done.
      rewrite fill_back_tints by (done || lra).
      cbn [mbind result_bind]. eexists. split; [reflexivity|].
      split; [|intros _; by eexists].
      rewrite !path_points_app.
      rewrite <- (map_map _ line_to_point), path_points_lines.
      reflexivity.
  - rewrite (bool_decide_eq_false_2 (1 <= upper)) by done.
    rewrite trace_curve_tints by (done || lra).
    cbn [mbind result_bind].
    destruct (decide (lower <= 0)) as [Hbot|Hlow].
    + rewrite (bool_decide_eq_true_2 (lower <= 0)) by done.
      cbn [mbind result_bind]. eexists. split; [reflexivity|].
      split; [|intros _; by eexists].
      rewrite !path_points_app.
      rewrite <- (map_map _ line_to_point), path_points_lines.
      reflexivity.
    + rewrite (bool_decide_eq_false_2 (lower <= 0)) by done.
      rewrite fill_back_tints by (done || lra).
      cbn [mbind result_bind]. eexists. split; [reflexivity|].
      split; [|intros _; by eexists].
      rewrite !path_points_app.
      rewrite <- (map_map (overlay_point r g b upper _ _) line_to_point).
      rewrite <- (map_map (overlay_point r g b lower _ _) line_to_point).
      rewrite !path_points_lines. reflexivity.
Qed.

Lemma renderLines_colour_path_witness :
  exists calls : list canvas_op,
    renderLines colour_red = Ok (set_lines colour_red calls)
    /\ path_points calls
       = (if decide (0.5 <= 0 \/ 1 <= 0.1) then []
          else
            (if decide (1 <= 0.5)
             then [(Fin 0, Fin 0); (line_width colour_red, Fin 0)]
             else (Fin 0,
                   (overlay_point 1 0 0 0.5 (line_width colour_red)
                      (line_height colour_red) 1).2)
                  :: map (overlay_point 1 0 0 0.5 (line_width colour_red)
                            (line_height colour_red)) (seq 0 256))
            ++ (if decide (0.1 <= 0)
                then [(line_width colour_red, line_height colour_red);
                      (Fin 0, line_height colour_red)]
                else map (overlay_point 1 0 0 0.1 (line_width colour_red)
                            (line_height colour_red)) (rev (seq 0 256))))
    /\ (~ (0.5 <= 0 \/ 1 <= 0.1) ->
        exists before : list canvas_op,
          calls = before ++ [ClosePath; Fill]).
Proof.
  exact (renderLines_colour_path colour_red 1 0 0 0.5 0.1 pure_hue_red
           eq_refl eq_refl eq_refl eq_refl).
Defined.

Lemma column_abscissa (width : R) (i : nat) :
  0 <= width -> (i <= 255)%nat -> 0 <= INR i / 255 * width <= width.
Proof.
  intros Hw Hi. pose proof (pos_INR i) as H0.
  assert (H1 : INR i <= 255).
  { replace 255 with (INR 255) by (rewrite INR_IZR_INZ; reflexivity).
    by apply le_INR. }
  split; [apply Rmult_le_pos; lra|].
  assert (0 <= (1 - INR i / 255) * width) by (apply Rmult_le_pos; lra).
  lra.
Qed.

(** X17.  On every column of a canvas of non-negative size the vertex drawn
    for the larger target luminance is not lower on the screen than the
    vertex drawn for the smaller one: same abscissa, within the width, and
    an ordinate that is at most the other's.  The upper curve of the filled
    region never passes under the lower curve. *)
Theorem curves_do_not_cross (r g b lower upper width height : R) (i : nat)
    (calls : list canvas_op) :
  pure_hue r g b -> 0 <= lower -> lower <= upper -> upper <= 1 ->
  0 <= width -> 0 <= height -> (i <= 255)%nat ->
  exists x y_upper y_lower : R,
    line_to_column (map (tint_entry r g b) (seq 0 256)) (Fin width)
      (Fin height) (Fin upper) i calls
    = Ok (calls ++ [LineTo (Fin x) (Fin y_upper)])
    /\ line_to_column (map (tint_entry r g b) (seq 0 256)) (Fin width)
         (Fin height) (Fin lower) i calls
       = Ok (calls ++ [LineTo (Fin x) (Fin y_lower)])
    /\ 0 <= x <= width /\ y_upper <= y_lower.
Proof.
  intros H H0 Hlu H1 Hw Hh Hi.
  rewrite !line_to_column_tints by (done || lra).
  unfold overlay_point. cbn [fst snd Num.mul Num.lift2].
  do 3 eexists. split; [reflexivity|]. split; [reflexivity|].
  split; [by apply column_abscissa|].
  pose proof (tint_channels_pure r g b i H) as Hp.
  assert (shade lower (tint_channel r i) (tint_channel g i) (tint_channel b i)
          <= shade upper (tint_channel r i) (tint_channel g i)
               (tint_channel b i)).
  { destruct (Rle_lt_or_eq_dec _ _ Hlu) as [Hlt| ->]; [|lra].
    left. by apply shade_lt. }
  apply Rmult_le_compat_r; lra.
Qed.

Lemma curves_do_not_cross_witness :
  exists x y_upper y_lower : R,
    line_to_column (map (tint_entry 1 0 0) (seq 0 256)) (Fin 256)
      (Fin 256) (Fin 0.5) 7 []
    = Ok ([] ++ [LineTo (Fin x) (Fin y_upper)])
    /\ line_to_column (map (tint_entry 1 0 0) (seq 0 256)) (Fin 256)
         (Fin 256) (Fin 0.1) 7 []
       = Ok ([] ++ [LineTo (Fin x) (Fin y_lower)])
    /\ 0 <= x <= 256 /\ y_upper <= y_lower.
Proof.
  apply (curves_do_not_cross 1 0 0 0.1 0.5 256 256 7 []);
    first [exact pure_hue_red | lra | lia].
Defined.



(** ** [renderChart] on the tints of a hue, and the colour under the pointer *)

Lemma toUint8Clamp_byte (k : Z) :
  (0 <= k <= 255)%Z -> toUint8Clamp (Fin (IZR k)) = k.
Proof.
  intros [H0 H255]. unfold toUint8Clamp.
  pose proof (IZR_le _ _ H0) as R0. pose proof (IZR_le _ _ H255) as R255.
  case_decide as Hle.
  { assert (IZR k = 0) as E by lra. by apply eq_IZR in E. }
  case_decide as Hge.
  { assert (IZR k = 255) as E by lra. by apply eq_IZR in E. }
  cbv zeta. rewrite ZfloorZ. repeat case_decide; lra || reflexivity.
Qed.

(** Away from the half-way points the clamped byte store and [Math.round]
    agree. *)
Lemma toUint8Clamp_round (y : R) :
  0 <= y <= 255 -> (forall n : Z, y <> IZR n + / 2) ->
  toUint8Clamp (Fin y) = Zfloor (y + / 2).
Proof.
  intros Hy Hhalf. unfold toUint8Clamp.
  pose proof (Zfloor_bound y) as [Flo Fhi].
  case_decide as Hle.
  { symmetry. apply Zfloor_eq. lra. }
  case_decide as Hge.
  { symmetry. apply Zfloor_eq. lra. }
  cbv zeta. case_decide as Hup.
  { symmetry. apply Zfloor_eq. rewrite plus_IZR. lra. }
  case_decide as Hdown.
  { symmetry. apply Zfloor_eq. lra. }
  exfalso. apply (Hhalf (Zfloor y)). lra.
Qed.

Lemma INR_byte (k : nat) : (k <= 255)%nat -> 0 <= INR k <= 255.
Proof.
  intros Hk. split; [apply pos_INR|].
  replace 255 with (INR 255) by (rewrite INR_IZR_INZ; reflexivity).
  by apply le_INR.
Qed.

Lemma tint_channel_blend (h : R) (i j : nat) :
  0 <= h <= 1 -> (j <= 255)%nat ->
  (tint_channel h j - tint_channel h j / 255 * INR i) * 255
  = blend h (INR j / 255) (INR i / 255) * 255.
Proof.
  intros Hh Hj. pose proof (INR_byte j Hj) as Bj.
  unfold tint_channel, blend. rewrite Rmax_right.
  - field.
  - assert (0 <= (1 - h) * (1 - INR j / 255)) by (apply Rmult_le_pos; lra).
    lra.
Qed.

Lemma chart_channel_blend (h : R) (i j : nat) :
  0 <= h <= 1 -> (j <= 255)%nat ->
  chart_channel (Fin (tint_channel h j)) i
  = toUint8Clamp (Fin (blend h (INR j / 255) (INR i / 255) * 255)).
Proof.
  intros Hh Hj. unfold chart_channel. f_equal.
  rewrite <- tint_channel_blend by assumption. num_cases.
Qed.

(** For an 8-bit hue component [k / 255] the blended value times 255 is an
    integer over [255 * 255], which is odd: it is never half-way between two
    integers. *)
Lemma blend_never_half (k i j : nat) (n : Z) :
  (k <= 255)%nat -> (i <= 255)%nat -> (j <= 255)%nat ->
  blend (INR k / 255) (INR j / 255) (INR i / 255) * 255 <> IZR n + / 2.
Proof.
  intros Hk Hi Hj Heq.
  assert (E : 2 * ((65025 - (255 - INR k) * INR j) * (255 - INR i))
              = (2 * IZR n + 1) * 65025).
  { unfold blend in Heq.
    replace ((65025 - (255 - INR k) * INR j) * (255 - INR i))
      with ((1 + (INR k / 255 - 1) * (INR j / 255)) * (1 - INR i / 255)
            * 255 * 65025) by field.
    rewrite Heq. lra. }
  rewrite !INR_IZR_INZ in E.
  rewrite <- !minus_IZR, <- !mult_IZR, <- !minus_IZR, <- !mult_IZR in E.
  rewrite <- plus_IZR, <- mult_IZR in E. apply eq_IZR in E.
  set (N := ((65025 - (255 - Z.of_nat k) * Z.of_nat j)
             * (255 - Z.of_nat i))%Z) in E.
  lia.
Qed.

Lemma chart_channel_white (i : nat) :
  (i <= 255)%nat -> chart_channel (Fin 1) i = (255 - Z.of_nat i)%Z.
Proof.
  intros Hi. pose proof (INR_byte i Hi) as Bi. unfold chart_channel.
  replace ((Fin 1 - Fin 1 / 255 * Num.of_nat i) * 255)%num
    with (Fin (IZR (255 - Z.of_nat i))).
  - apply toUint8Clamp_byte. lia.
  - rewrite minus_IZR, <- INR_IZR_INZ. num_cases.
Qed.

Lemma chart_channel_top (k : nat) :
  (k <= 255)%nat -> chart_channel (Fin (INR k / 255)) 0 = Z.of_nat k.
Proof.
  intros Hk. unfold chart_channel.
  replace ((Fin (INR k / 255) - Fin (INR k / 255) / 255 * Num.of_nat 0)
           * 255)%num with (Fin (IZR (Z.of_nat k))).
  - apply toUint8Clamp_byte. lia.
  - rewrite <- INR_IZR_INZ. num_cases. cbn [INR]. f_equal. lra.
Qed.

(** X19.  The chart of an 8-bit pure hue: the left column is the grey ramp
    [255 - i], the top right pixel is the hue itself, the bottom row is
    black, every alpha byte of these pixels is 255, and [renderChart] changes
    nothing but the image. *)
Theorem renderChart_of_hue (s : picker) (kr kg kb : nat) :
  (kr <= 255)%nat -> (kg <= 255)%nat -> (kb <= 255)%nat ->
  current_tints s
  = map (tint_entry (INR kr / 255) (INR kg / 255) (INR kb / 255))
      (seq 0 256) ->
  exists image : list Z,
    renderChart s = Ok (set_chart s image)
    /\ length image = (256 * 256 * 4)%nat
    /\ (forall (i : nat) (c : nat),
          (i <= 255)%nat -> (c < 3)%nat ->
          image !! (pixel_index i 0 + c)%nat = Some (255 - Z.of_nat i)%Z)
    /\ (image !! pixel_index 0 255 = Some (Z.of_nat kr)
        /\ image !! (pixel_index 0 255 + 1)%nat = Some (Z.of_nat kg)
        /\ image !! (pixel_index 0 255 + 2)%nat = Some (Z.of_nat kb))
    /\ (forall (j : nat) (c : nat),
          (j <= 255)%nat -> (c < 3)%nat ->
          image !! (pixel_index 255 j + c)%nat = Some 0%Z)
    /\ (forall i j : nat,
          (i <= 255)%nat -> (j <= 255)%nat ->
          image !! (pixel_index i j + 3)%nat = Some 255%Z).
Proof.
  intros Hr Hg Hb Ht.
  assert (Hlen : length (current_tints s) = 256%nat)
    by (rewrite Ht, length_map; apply length_seq).
  destruct (renderChart_bytes s Hlen) as (s' & Hs' & Hl & Hpix).
  assert (Hs'' : s' = set_chart s (chart_image s')).
  { unfold renderChart in Hs'. destruct (chart_data (current_tints s));
      cbn [mbind result_bind] in Hs'; [|discriminate].
    apply Ok_inj in Hs'. by subst s'. }
  exists (chart_image s'). split; [by rewrite <- Hs''|].
  split; [exact Hl|].
  assert (B : forall k : nat, (k <= 255)%nat -> 0 <= INR k / 255 <= 1)
    by (intros k Hk; pose proof (INR_byte k Hk); lra).
  assert (Hlook : forall j : nat, (j <= 255)%nat ->
            current_tints s !! j
            = Some (tint_entry (INR kr / 255) (INR kg / 255) (INR kb / 255) j))
    by (intros j Hj; rewrite Ht; by apply interpolateTints_lookup).
  split; [|split; [|split]].
  - intros i c Hi Hc.
    pose proof (Hpix i 0%nat _ ltac:(lia) ltac:(lia) (Hlook 0%nat ltac:(lia)))
      as Hp.
    rewrite tint_entry_first in Hp by auto.
    unfold pixel_is in Hp. rewrite !chart_channel_white in Hp by done.
    destruct Hp as (P0 & P1 & P2 & _).
    destruct c as [|[|[|c]]];
      [rewrite Nat.add_0_r; exact P0 | exact P1 | exact P2 | lia].
  - pose proof (Hpix 0%nat 255%nat _ ltac:(lia) ltac:(lia)
                  (Hlook 255%nat ltac:(lia))) as Hp.
    rewrite tint_entry_last in Hp. unfold pixel_is in Hp.
    rewrite !chart_channel_top in Hp by done.
    destruct Hp as (P0 & P1 & P2 & _).
    split; [exact P0|]. split; [exact P1 | exact P2].
  - intros j c Hj Hc.
    pose proof (Hpix 255%nat j _ ltac:(lia) ltac:(lia) (Hlook j Hj)) as Hp.
    unfold tint_entry, pixel_is in Hp.
    rewrite !chart_channel_row_255 in Hp. destruct Hp as (P0 & P1 & P2 & _).
    destruct c as [|[|[|c]]];
      [rewrite Nat.add_0_r; exact P0 | exact P1 | exact P2 | lia].
  - intros i j Hi Hj.
    pose proof (Hpix i j _ ltac:(lia) ltac:(lia) (Hlook j Hj)) as Hp.
    unfold tint_entry, pixel_is in Hp. apply Hp.
Qed.

Lemma renderChart_of_hue_witness :
  exists image : list Z,
    renderChart orange_field = Ok (set_chart orange_field image)
    /\ length image = (256 * 256 * 4)%nat
    /\ (forall (i : nat) (c : nat),
          (i <= 255)%nat -> (c < 3)%nat ->
          image !! (pixel_index i 0 + c)%nat = Some (255 - Z.of_nat i)%Z)
    /\ (image !! pixel_index 0 255 = Some (Z.of_nat 255)
        /\ image !! (pixel_index 0 255 + 1)%nat = Some (Z.of_nat 128)
        /\ image !! (pixel_index 0 255 + 2)%nat = Some (Z.of_nat 0))
    /\ (forall (j : nat) (c : nat),
          (j <= 255)%nat -> (c < 3)%nat ->
          image !! (pixel_index 255 j + c)%nat = Some 0%Z)
    /\ (forall i j : nat,
          (i <= 255)%nat -> (j <= 255)%nat ->
          image !! (pixel_index i j + 3)%nat = Some 255%Z).
Proof.
  apply (renderChart_of_hue orange_field 255 128 0);
    first [lia | reflexivity].
Defined.

(** X20.  The chart shows under the pointer the colour the pointer selects:
    for an 8-bit hue and the pointer on column [j] and row [i] of the
    256 x 256 grid, the three bytes [renderChart] stores for pixel (i, j) are
    the components of the colour [recalculateColour] selects (the numbers of
    [rgb(...)], and 255 times the current colour). *)
Theorem chart_matches_pointer (s : picker) (kr kg kb i j : nat) :
  (kr <= 255)%nat -> (kg <= 255)%nat -> (kb <= 255)%nat ->
  (i <= 255)%nat -> (j <= 255)%nat ->
  current_hue s = (Fin (INR kr / 255), Fin (INR kg / 255), Fin (INR kb / 255)) ->
  current_tints s
  = map (tint_entry (INR kr / 255) (INR kg / 255) (INR kb / 255))
      (seq 0 256) ->
  position_left s = Fin (INR j / 255) ->
  position_bottom s = Fin (INR i / 255) ->
  exists (s1 s2 : picker) (cr cg cb : Z),
    recalculateColour s = Ok s1
    /\ renderChart s = Ok s2
    /\ selected_colour s1 = (Fin (IZR cr), Fin (IZR cg), Fin (IZR cb))
    /\ current_colour s1
       = (Fin (IZR cr / 255), Fin (IZR cg / 255), Fin (IZR cb / 255))
    /\ chart_image s2 !! pixel_index i j = Some cr
    /\ chart_image s2 !! (pixel_index i j + 1)%nat = Some cg
    /\ chart_image s2 !! (pixel_index i j + 2)%nat = Some cb.
Proof.
  intros Hr Hg Hb Hi Hj Hh Ht Hl Hq.
  assert (B : forall k : nat, (k <= 255)%nat -> 0 <= INR k / 255 <= 1)
    by (intros k Hk; pose proof (INR_byte k Hk); lra).
  pose proof (B i Hi) as Bi. pose proof (B j Hj) as Bj.
  pose proof (blend_bounds _ _ _ (B kr Hr) Bj Bi) as Xr.
  pose proof (blend_bounds _ _ _ (B kg Hg) Bj Bi) as Xg.
  pose proof (blend_bounds _ _ _ (B kb Hb) Bj Bi) as Xb.
  destruct (clamp8_byte _ Xr) as [_ Cr]. destruct (clamp8_byte _ Xg) as [_ Cg].
  destruct (clamp8_byte _ Xb) as [_ Cb].
  assert (Hlen : length (current_tints s) = 256%nat)
    by (rewrite Ht, length_map; apply length_seq).
  destruct (renderChart_bytes s Hlen) as (s2 & Hs2 & _ & Hpix).
  assert (Hlook : current_tints s !! j
            = Some (tint_entry (INR kr / 255) (INR kg / 255) (INR kb / 255) j))
    by (rewrite Ht; by apply interpolateTints_lookup).
  pose proof (Hpix i j _ ltac:(lia) ltac:(lia) Hlook) as Hp.
  unfold tint_entry, pixel_is in Hp.
  rewrite !chart_channel_blend in Hp by auto.
  rewrite !toUint8Clamp_round in Hp
    by (first [lra | intros n; by apply blend_never_half]).
  destruct Hp as (P0 & P1 & P2 & _).
  eexists. exists s2. do 3 eexists.
  split; [by apply (recalculateColour_fin s _ _ _ _ _ Hh Hl Hq)|].
  split; [exact Hs2|].
  cbn [selected_colour current_colour set_colour].
  split; [|split; [reflexivity|]].
  - unfold clamp8. repeat f_equal; lra.
  - split; [exact P0|]. split; [exact P1 | exact P2].
Qed.

Lemma chart_matches_pointer_witness :
  exists (s1 s2 : picker) (cr cg cb : Z),
    recalculateColour orange_field = Ok s1
    /\ renderChart orange_field = Ok s2
    /\ selected_colour s1 = (Fin (IZR cr), Fin (IZR cg), Fin (IZR cb))
    /\ current_colour s1
       = (Fin (IZR cr / 255), Fin (IZR cg / 255), Fin (IZR cb / 255))
    /\ chart_image s2 !! pixel_index 50 100 = Some cr
    /\ chart_image s2 !! (pixel_index 50 100 + 1)%nat = Some cg
    /\ chart_image s2 !! (pixel_index 50 100 + 2)%nat = Some cb.
Proof.
  apply (chart_matches_pointer orange_field 255 128 0 50 100);
    first [lia | reflexivity].
Defined.

(** ** The handlers keep the page valid *)

Lemma tints_of_hue_pure (s : picker) :
  tints_of_hue s ->
  Forall is_pure_tint (current_tints s)
  /\ length (current_tints s) = 256%nat.
Proof.
  intros (r & g & b & H & _ & ->). split.
  - by apply interpolateTints_pure.
  - rewrite length_map. apply length_seq.
Qed.

Lemma renderLines_set_lines (s : picker) :
  tints_of_hue s ->
  exists calls : list canvas_op, renderLines s = Ok (set_lines s calls).
Proof.
  intros H. destruct (tints_of_hue_pure s H) as [Hall Hlen].
  unfold renderLines.
  destruct (line_calls_of_returns s Hall) as [c ->]; [lia|]. by eexists.
Qed.

Lemma renderChart_set_chart (s : picker) :
  tints_of_hue s ->
  exists image : list Z,
    renderChart s = Ok (set_chart s image)
    /\ length image = (256 * 256 * 4)%nat.
Proof.
  intros H. destruct (tints_of_hue_pure s H) as [_ Hlen].
  unfold renderChart.
  destruct (chart_data_pixels (current_tints s) Hlen) as (d & -> & Hl & _).
  by eexists.
Qed.

Lemma pure_hue_unit (r g b : R) :
  pure_hue r g b -> 0 <= r <= 1 /\ 0 <= g <= 1 /\ 0 <= b <= 1.
Proof. by intros [? _]. Qed.

Lemma recalculateColour_set_colour (s : picker) :
  tints_of_hue s -> pointer_in_field s ->
  exists (colour css : tint) (luminance : num) (shown : text)
         (border : string),
    recalculateColour s = Ok (set_colour s colour luminance css shown border)
    /\ colour_consistent (set_colour s colour luminance css shown border).
Proof.
  intros (r & g & b & H & Hh & _) (p & q & Hp & Bp & Hq & Bq).
  destruct (pure_hue_unit r g b H) as (Br & Bg & Bb).
  destruct (clamp8_byte _ (blend_bounds r p q Br Bp Bq)) as [Zr Cr].
  destruct (clamp8_byte _ (blend_bounds g p q Bg Bp Bq)) as [Zg Cg].
  destruct (clamp8_byte _ (blend_bounds b p q Bb Bp Bq)) as [Zb Cb].
  do 5 eexists. split.
  - by apply (recalculateColour_fin s r g b p q).
  - exists (Zfloor (blend r p q * 255 + / 2)),
      (Zfloor (blend g p q * 255 + / 2)), (Zfloor (blend b p q * 255 + / 2)).
    do 3 (split; [assumption|]).
    cbn [current_colour current_luminance set_colour].
    split; [reflexivity|]. by apply calcLuminance_fin.
Qed.

Lemma parseInt16_cases (s : string) :
  parseInt16 s = NaN \/ exists z : Z, parseInt16 s = Num.of_Z z.
Proof.
  unfold parseInt16.
  destruct (match trim_start s with
            | String "-" rest => (true, rest)
            | String "+" rest => (false, rest)
            | _ => (false, trim_start s)
            end) as [negative s2].
  destruct (hex_digits _ None) as [z|]; [right; by eexists | by left].
Qed.

Lemma recalculateContrast_frame (s : picker) :
  tints_of_hue s ->
  exists s' : picker,
    recalculateContrast s = Ok s'
    /\ current_hue s' = current_hue s
    /\ current_tints s' = current_tints s
    /\ current_colour s' = current_colour s
    /\ current_luminance s' = current_luminance s
    /\ position_left s' = position_left s
    /\ position_bottom s' = position_bottom s
    /\ contrast_ratio s' = contrast_ratio s
    /\ line_mode s' = line_mode s
    /\ chart_image s' = chart_image s
    /\ contrast_colour_input s' = contrast_colour_input s.
Proof.
  intros H. unfold recalculateContrast. cbv zeta.
  destruct (parseInt16_cases (slice 1 3 (contrast_colour_input s)))
    as [-> | [zr ->]]; [exists s; by repeat split|].
  destruct (parseInt16_cases (slice 3 5 (contrast_colour_input s)))
    as [-> | [zg ->]]; [exists s; by repeat split|].
  destruct (parseInt16_cases (slice 5 7 (contrast_colour_input s)))
    as [-> | [zb ->]]; [exists s; by repeat split|].
  cbn [Num.max Num.min Num.of_Z Num.lift2 Num.isNaN orb].
  assert (Hdiv : forall x : R, (Fin x / 255)%num = Fin (x / 255))
    by (intros x; num_cases).
  rewrite !Hdiv. rewrite calcLuminance_fin by apply clamp_component_bounds.
  cbn [mbind result_bind].
  match goal with
  | |- context [renderLines ?t] =>
      destruct (renderLines_set_lines t) as [c ->]; [exact H|]
  end.
  eexists. split; [reflexivity|]. by repeat split.
Qed.

Lemma valid_ext (s s' : picker) :
  current_hue s' = current_hue s ->
  current_tints s' = current_tints s ->
  current_colour s' = current_colour s ->
  current_luminance s' = current_luminance s ->
  position_left s' = position_left s ->
  position_bottom s' = position_bottom s ->
  contrast_ratio s' = contrast_ratio s ->
  valid s -> valid s'.
Proof.
  intros Hh Ht Hc Hl Hp Hq Hr (V1 & V2 & V3 & V4).
  unfold valid, tints_of_hue, pointer_in_field, ratio_in_range,
    colour_consistent in *.
  rewrite Hh, Ht, Hc, Hl, Hp, Hq, Hr. done.
Qed.

Lemma recalculateContrast_valid (s : picker) :
  valid s -> exists s' : picker, recalculateContrast s = Ok s' /\ valid s'.
Proof.
  intros V. destruct (recalculateContrast_frame s (proj1 V))
    as (s' & Hs' & F1 & F2 & F3 & F4 & F5 & F6 & F7 & _).
  exists s'. split; [exact Hs'|]. by apply (valid_ext s s').
Qed.

Lemma renderLines_valid (s : picker) :
  valid s -> exists s' : picker, renderLines s = Ok s' /\ valid s'.
Proof.
  intros V. destruct (renderLines_set_lines s (proj1 V)) as [c Hc].
  eexists. split; [exact Hc|]. by apply (valid_ext s).
Qed.

Lemma recalculateColour_valid (s : picker) :
  tints_of_hue s -> pointer_in_field s -> ratio_in_range s ->
  exists s' : picker,
    recalculateColour s = Ok s' /\ valid s'
    /\ current_hue s' = current_hue s
    /\ position_left s' = position_left s
    /\ position_bottom s' = position_bottom s
    /\ contrast_ratio s' = contrast_ratio s
    /\ line_mode s' = line_mode s.
Proof.
  intros V1 V2 V3.
  destruct (recalculateColour_set_colour s V1 V2)
    as (c & css & L & shown & border & Hs' & Hc).
  eexists. split; [exact Hs'|]. split; [|by repeat split].
  split; [exact V1|]. split; [exact V2|]. split; [exact V3 | exact Hc].
Qed.

Lemma clamp_unit (v : R) :
  0 <= Rmax (Rmin v 1) 0 <= 1
  /\ (0 <= v <= 1 -> Rmax (Rmin v 1) 0 = v)
  /\ (v <= 0 -> Rmax (Rmin v 1) 0 = 0)
  /\ (1 <= v -> Rmax (Rmin v 1) 0 = 1).
Proof.
  split; [split; [apply Rmax_r | apply Rmax_lub; [apply Rmin_r | lra]]|].
  split; [intros H; rewrite Rmin_left, Rmax_left by lra; reflexivity|].
  split; [intros H; rewrite Rmin_left, Rmax_right by lra; reflexivity|].
  intros H. rewrite Rmin_right, Rmax_left by lra. reflexivity.
Qed.

Lemma relative_position (x lo hi : R) :
  lo < hi ->
  Num.max (Num.min ((Fin x - Fin lo) / (Fin hi - Fin lo))%num 1) 0
  = Fin (Rmax (Rmin ((x - lo) / (hi - lo)) 1) 0).
Proof. intros H. num_cases. Qed.

Lemma relative_position_cases (x lo hi : R) :
  lo < hi ->
  (lo <= x <= hi -> 0 <= (x - lo) / (hi - lo) <= 1)
  /\ (x <= lo -> (x - lo) / (hi - lo) <= 0)
  /\ (hi <= x -> 1 <= (x - lo) / (hi - lo)).
Proof.
  intros H. assert (Hinv : 0 < / (hi - lo)) by (apply Rinv_0_lt_compat; lra).
  assert (Hone : (hi - lo) * / (hi - lo) = 1) by (apply Rinv_r; lra).
  unfold Rdiv. split; [|split]; intros Hx.
  - assert (0 <= (x - lo) * / (hi - lo)) by (apply Rmult_le_pos; lra).
    assert (0 <= (hi - x) * / (hi - lo)) by (apply Rmult_le_pos; lra). lra.
  - assert (0 <= (lo - x) * / (hi - lo)) by (apply Rmult_le_pos; lra). lra.
  - assert (0 <= (x - hi) * / (hi - lo)) by (apply Rmult_le_pos; lra). lra.
Qed.

Lemma moveIndicator_result (d : document) (x y rl rr rt rb : R) :
  tints_of_hue (vars d) -> rl < rr -> rt < rb ->
  let p := Rmax (Rmin ((x - rl) / (rr - rl)) 1) 0 in
  let q := Rmax (Rmin ((y - rt) / (rb - rt)) 1) 0 in
  exists (colour css : tint) (luminance : num) (shown : text)
         (border : string),
    moveIndicator {| clientX := Fin x; clientY := Fin y |}
      {| rect_left := Fin rl; rect_right := Fin rr;
         rect_top := Fin rt; rect_bottom := Fin rb |} d
    = Ok (with_vars (with_position_style d (Fin (p * 100)) (Fin (q * 100)))
            (set_colour (set_position (vars d) (Fin p) (Fin q)) colour
               luminance css shown border))
    /\ colour_consistent
         (set_colour (set_position (vars d) (Fin p) (Fin q)) colour
            luminance css shown border).
Proof.
  intros V Hw Hh p q. unfold moveIndicator. cbv zeta.
  cbn [clientX clientY rect_left rect_right rect_top rect_bottom].
  rewrite !relative_position by assumption. fold p q.
  destruct (clamp_unit ((x - rl) / (rr - rl))) as (Bp & _).
  destruct (clamp_unit ((y - rt) / (rb - rt))) as (Bq & _).
  destruct (recalculateColour_set_colour (set_position (vars d) (Fin p) (Fin q)))
    as (c & css & L & shown & border & -> & Hc).
  { exact V. }
  { exists p, q. split; [reflexivity|]. split; [exact Bp|].
    split; [reflexivity | exact Bq]. }
  cbn [mbind result_bind]. do 5 eexists. split; [reflexivity | exact Hc].
Qed.

(** X21.  [moveIndicator] over a rectangle of positive size: the new
    position is the position of the mouse relative to the rectangle when the
    mouse is inside, and the nearest edge (0 or 1) when it is outside, on
    each axis; the style of the indicator receives the same position in
    percent; the colour is recomputed without an error and is consistent. *)
Theorem moveIndicator_clamps (d : document) (x y rl rr rt rb : R) :
  tints_of_hue (vars d) -> rl < rr -> rt < rb ->
  exists (d' : document) (p q : R),
    moveIndicator {| clientX := Fin x; clientY := Fin y |}
      {| rect_left := Fin rl; rect_right := Fin rr;
         rect_top := Fin rt; rect_bottom := Fin rb |} d = Ok d'
    /\ position_left (vars d') = Fin p
    /\ position_bottom (vars d') = Fin q
    /\ position_style d' = (Fin (p * 100), Fin (q * 100))
    /\ 0 <= p <= 1 /\ 0 <= q <= 1
    /\ (rl <= x <= rr -> p = (x - rl) / (rr - rl))
    /\ (x <= rl -> p = 0) /\ (rr <= x -> p = 1)
    /\ (rt <= y <= rb -> q = (y - rt) / (rb - rt))
    /\ (y <= rt -> q = 0) /\ (rb <= y -> q = 1)
    /\ colour_consistent (vars d')
    /\ current_hue (vars d') = current_hue (vars d)
    /\ current_tints (vars d') = current_tints (vars d).
Proof.
  intros V Hw Hh.
  destruct (moveIndicator_result d x y rl rr rt rb V Hw Hh)
    as (c & css & L & shown & border & -> & Hc).
  destruct (clamp_unit ((x - rl) / (rr - rl))) as (Bp & Pin & Plo & Phi).
  destruct (clamp_unit ((y - rt) / (rb - rt))) as (Bq & Qin & Qlo & Qhi).
  destruct (relative_position_cases x rl rr Hw) as (Xin & Xlo & Xhi).
  destruct (relative_position_cases y rt rb Hh) as (Yin & Ylo & Yhi).
  eexists. exists (Rmax (Rmin ((x - rl) / (rr - rl)) 1) 0),
    (Rmax (Rmin ((y - rt) / (rb - rt)) 1) 0).
  split; [reflexivity|].
  cbn [vars with_vars with_position_style position_style position_left
       position_bottom current_hue current_tints set_colour set_position].
  split; [reflexivity|]. split; [reflexivity|]. split; [reflexivity|].
  split; [exact Bp|]. split; [exact Bq|].
  split; [intros; apply Pin; auto|]. split; [intros; apply Plo; auto|].
  split; [intros; apply Phi; auto|].
  split; [intros; apply Qin; auto|]. split; [intros; apply Qlo; auto|].
  split; [intros; apply Qhi; auto|].
  split; [exact Hc|]. split; reflexivity.
Qed.

Lemma orange_field_tints : tints_of_hue orange_field.
Proof.
  exists (INR 255 / 255), (INR 128 / 255), (INR 0 / 255).
  split; [|split; reflexivity].
  unfold pure_hue. cbn [INR]. lra.
Defined.

Lemma moveIndicator_clamps_witness :
  exists (d' : document) (p q : R),
    moveIndicator {| clientX := Fin 300; clientY := Fin 120 |}
      {| rect_left := Fin 100; rect_right := Fin 500;
         rect_top := Fin 50; rect_bottom := Fin 450 |}
      (page_of orange_field "30") = Ok d'
    /\ position_left (vars d') = Fin p
    /\ position_bottom (vars d') = Fin q
    /\ position_style d' = (Fin (p * 100), Fin (q * 100))
    /\ 0 <= p <= 1 /\ 0 <= q <= 1
    /\ (100 <= 300 <= 500 -> p = (300 - 100) / (500 - 100))
    /\ (300 <= 100 -> p = 0) /\ (500 <= 300 -> p = 1)
    /\ (50 <= 120 <= 450 -> q = (120 - 50) / (450 - 50))
    /\ (120 <= 50 -> q = 0) /\ (450 <= 120 -> q = 1)
    /\ colour_consistent (vars d')
    /\ current_hue (vars d') = current_hue (vars (page_of orange_field "30"))
    /\ current_tints (vars d')
       = current_tints (vars (page_of orange_field "30")).
Proof.
  apply (moveIndicator_clamps (page_of orange_field "30") 300 120 100 500 50
           450 orange_field_tints); lra.
Defined.

Lemma clamp_ratio (x : R) :
  1 <= Rmax 1 (Rmin 21 x) <= 21
  /\ (1 <= x <= 21 -> Rmax 1 (Rmin 21 x) = x)
  /\ (x <= 1 -> Rmax 1 (Rmin 21 x) = 1)
  /\ (21 <= x -> Rmax 1 (Rmin 21 x) = 21).
Proof.
  split; [split; [apply Rmax_l | apply Rmax_lub; [lra | apply Rmin_l]]|].
  split; [intros H; rewrite Rmin_right, Rmax_right by lra; reflexivity|].
  split; [intros H; rewrite Rmin_right, Rmax_left by lra; reflexivity|].
  intros H. rewrite Rmin_left, Rmax_right by lra. reflexivity.
Qed.

(** X22.  The ratio field: a text that [parseFloat] cannot read changes no
    variable; a number is clamped to [1, 21], written back to the field and
    stored, and the contrast bounds are recomputed without an error, the
    other variables staying as they were. *)
Theorem ratio_oninput_clamps (d : document) :
  tints_of_hue (vars d) ->
  ratio_oninput NaN d = Ok (with_ratio_field d NaN)
  /\ forall x : R,
       exists (d' : document) (ratio : R),
         ratio_oninput (Fin x) d = Ok d'
         /\ contrast_ratio (vars d') = Fin ratio
         /\ contrast_ratio_field d' = Fin ratio
         /\ 1 <= ratio <= 21
         /\ (1 <= x <= 21 -> ratio = x)
         /\ (x <= 1 -> ratio = 1) /\ (21 <= x -> ratio = 21)
         /\ current_hue (vars d') = current_hue (vars d)
         /\ current_tints (vars d') = current_tints (vars d)
         /\ current_colour (vars d') = current_colour (vars d)
         /\ position_left (vars d') = position_left (vars d)
         /\ position_bottom (vars d') = position_bottom (vars d).
Proof.
  intros V. split; [reflexivity|]. intros x.
  unfold ratio_oninput. cbv zeta. cbn [Num.isNaN negb].
  change (Num.max 1 (Num.min 21 (Fin x))) with (Fin (Rmax 1 (Rmin 21 x))).
  destruct (clamp_ratio x) as (B & Hin & Hlo & Hhi).
  destruct (recalculateContrast_frame
              (set_ratio (vars (with_ratio_field d (Fin x)))
                 (Fin (Rmax 1 (Rmin 21 x)))))
    as (s' & -> & F1 & F2 & F3 & F4 & F5 & F6 & F7 & _); [exact V|].
  cbn [mbind result_bind]. eexists. exists (Rmax 1 (Rmin 21 x)).
  split; [reflexivity|].
  cbn [vars with_vars with_ratio_field contrast_ratio_field].
  rewrite F1, F2, F3, F5, F6, F7.
  split; [reflexivity|]. split; [reflexivity|]. split; [exact B|].
  split; [exact Hin|]. split; [exact Hlo|]. split; [exact Hhi|].
  by repeat split.
Qed.

Lemma ratio_oninput_clamps_witness :
  ratio_oninput NaN (page_of orange_field "30")
  = Ok (with_ratio_field (page_of orange_field "30") NaN)
  /\ forall x : R,
       exists (d' : document) (ratio : R),
         ratio_oninput (Fin x) (page_of orange_field "30") = Ok d'
         /\ contrast_ratio (vars d') = Fin ratio
         /\ contrast_ratio_field d' = Fin ratio
         /\ 1 <= ratio <= 21
         /\ (1 <= x <= 21 -> ratio = x)
         /\ (x <= 1 -> ratio = 1) /\ (21 <= x -> ratio = 21)
         /\ current_hue (vars d')
            = current_hue (vars (page_of orange_field "30"))
         /\ current_tints (vars d')
            = current_tints (vars (page_of orange_field "30"))
         /\ current_colour (vars d')
            = current_colour (vars (page_of orange_field "30"))
         /\ position_left (vars d')
            = position_left (vars (page_of orange_field "30"))
         /\ position_bottom (vars d')
            = position_bottom (vars (page_of orange_field "30")).
Proof.
  exact (ratio_oninput_clamps (page_of orange_field "30") orange_field_tints).
Defined.

Section Events.

Variable computed_hue : string -> option (nat * nat * nat).
Variable slider_takes : string -> string.
Variable input_takes : string -> string.

Lemma moves_ignored (d : document) (moves : list (mouse * rect)) :
  onmousemove d = false ->
  run computed_hue slider_takes input_takes
    (map (fun m => MouseMove m.1 m.2) moves) d = Ok d.
Proof using Type.
  intros Hoff. induction moves as [|[e r] moves IH]; [reflexivity|].
  cbn [map run handle fst snd]. unfold document_mousemove. rewrite Hoff.
  cbn [mbind result_bind]. exact IH.
Qed.

(** X23.  The pointer follows the mouse only while a button is held: once
    the release handler has run, [document.onmousemove] is unset, no
    variable has changed, and any number of mouse moves leaves the page
    exactly as it is; the same holds before the first press. *)
Theorem moves_need_the_button (d : document) (moves : list (mouse * rect)) :
  (onmousemove d = false ->
   run computed_hue slider_takes input_takes
     (map (fun m => MouseMove m.1 m.2) moves) d = Ok d)
  /\ (onmouseup d = true ->
      exists d' : document,
        handle computed_hue slider_takes input_takes MouseUp d = Ok d'
        /\ vars d' = vars d
        /\ onmousemove d' = false
        /\ run computed_hue slider_takes input_takes
             (map (fun m => MouseMove m.1 m.2) moves) d' = Ok d').
Proof using Type.
  split; [apply moves_ignored|].
  intros Hup. exists (released d). cbn [handle]. unfold document_mouseup.
  rewrite Hup. split; [reflexivity|]. split; [reflexivity|].
  split; [reflexivity|]. by apply moves_ignored.
Qed.

End Events.

Lemma pure_captures_hue (r g b : nat) :
  (r <= 255)%nat -> (g <= 255)%nat -> (b <= 255)%nat ->
  (r = 0 \/ g = 0 \/ b = 0)%nat -> (r = 255 \/ g = 255 \/ b = 255)%nat ->
  pure_hue (INR r / 255) (INR g / 255) (INR b / 255).
Proof.
  intros Hr Hg Hb H0 H255.
  pose proof (INR_byte r Hr). pose proof (INR_byte g Hg).
  pose proof (INR_byte b Hb).
  assert (E255 : INR 255 / 255 = 1)
    by (rewrite INR_IZR_INZ; change (Z.of_nat 255) with 255%Z; lra).
  assert (E0 : INR 0 / 255 = 0) by (cbn [INR]; lra).
  split; [repeat split; lra|]. split.
  - destruct H0 as [-> | [-> | ->]]; rewrite E0; auto.
  - destruct H255 as [-> | [-> | ->]]; rewrite E255; auto.
Qed.

Lemma recalculateHue_valid (captures : option (nat * nat * nat))
    (s : picker) :
  pure_captures captures -> pointer_in_field s -> ratio_in_range s ->
  exists (s' : picker) (r g b : nat),
    captures = Some (r, g, b)
    /\ recalculateHue captures s = Ok s'
    /\ valid s'
    /\ current_hue s' = (Fin (INR r / 255), Fin (INR g / 255), Fin (INR b / 255))
    /\ length (chart_image s') = (256 * 256 * 4)%nat
    /\ position_left s' = position_left s
    /\ position_bottom s' = position_bottom s
    /\ contrast_ratio s' = contrast_ratio s
    /\ line_mode s' = line_mode s.
Proof.
  intros (r & g & b & -> & Hr & Hg & Hb & H0 & H255) Vp Vr.
  pose proof (pure_captures_hue r g b Hr Hg Hb H0 H255) as Hpure.
  unfold recalculateHue. cbv zeta.
  assert (Hdiv : forall k : nat, (Num.of_nat k / 255)%num = Fin (INR k / 255))
    by (intros k; num_cases).
  rewrite !Hdiv. rewrite interpolateTints_fin by exact Hpure.
  cbn [mbind result_bind].
  set (s0 := set_hue s _ _).
  assert (V0 : tints_of_hue s0).
  { exists (INR r / 255), (INR g / 255), (INR b / 255).
    split; [exact Hpure|]. split; reflexivity. }
  destruct (recalculateColour_valid s0 V0 Vp Vr)
    as (s1 & -> & V1 & F1 & F2 & F3 & F4 & F5).
  cbn [mbind result_bind].
  destruct (renderChart_set_chart s1 (proj1 V1)) as (image & -> & Hlen).
  cbn [mbind result_bind].
  destruct (renderLines_set_lines (set_chart s1 image) (proj1 V1))
    as [calls ->].
  exists (set_lines (set_chart s1 image) calls), r, g, b.
  split; [reflexivity|]. split; [reflexivity|].
  split; [by apply (valid_ext s1)|].
  cbn [current_hue chart_image position_left position_bottom contrast_ratio
       line_mode set_lines set_chart].
  rewrite F1, F2, F3, F4, F5. by repeat split.
Qed.

Lemma recalculateColour_top_right (s : picker) (kr kg kb : Z) :
  (0 <= kr <= 255)%Z -> (0 <= kg <= 255)%Z -> (0 <= kb <= 255)%Z ->
  current_hue s = (Fin (IZR kr / 255), Fin (IZR kg / 255), Fin (IZR kb / 255)) ->
  position_left s = Fin 1 -> position_bottom s = Fin 0 ->
  exists s' : picker,
    recalculateColour s = Ok s' /\ current_colour s' = current_hue s.
Proof.
  intros Zr Zg Zb Hh Hl Hq.
  assert (Br : 0 <= IZR kr / 255 <= 1)
    by (destruct Zr as [H0 H1]; apply IZR_le in H0, H1; lra).
  assert (Bg : 0 <= IZR kg / 255 <= 1)
    by (destruct Zg as [H0 H1]; apply IZR_le in H0, H1; lra).
  assert (Bb : 0 <= IZR kb / 255 <= 1)
    by (destruct Zb as [H0 H1]; apply IZR_le in H0, H1; lra).
  assert (B1 : 0 <= 1 <= 1) by lra. assert (B0 : 0 <= 0 <= 1) by lra.
  destruct (clamp8_byte _ (blend_bounds _ 1 0 Br B1 B0)) as [_ Cr].
  destruct (clamp8_byte _ (blend_bounds _ 1 0 Bg B1 B0)) as [_ Cg].
  destruct (clamp8_byte _ (blend_bounds _ 1 0 Bb B1 B0)) as [_ Cb].
  rewrite (recalculateColour_fin s _ _ _ 1 0 Hh Hl Hq Cr Cg Cb).
  eexists. split; [reflexivity|]. cbn [current_colour set_colour].
  rewrite !blend_left_1, !clamp8_of_byte. by rewrite Hh.
Qed.

Section Page.

Variable computed_hue : string -> option (nat * nat * nat).
Variable slider_takes : string -> string.
Variable input_takes : string -> string.

Lemma moveIndicator_valid (e : mouse) (r : rect) (d : document) :
  valid (vars d) -> over_field e r ->
  exists d' : document,
    moveIndicator e r d = Ok d'
    /\ valid (vars d')
    /\ hue_slider_value d' = hue_slider_value d.
Proof using Type.
  intros (V1 & V2 & V3 & V4) Hev.
  destruct e as [ex ey], r as [rl rr rt rb].
  destruct Hev as (x & y & l & r' & t & b & Hx & Hy & Hl & Hr & Ht & Hb
                   & Hw & Hh).
  cbn [clientX clientY rect_left rect_right rect_top rect_bottom] in *.
  subst.
  destruct (moveIndicator_result d x y l r' t b V1 Hw Hh)
    as (c & css & L & shown & border & -> & Hc).
  destruct (clamp_unit ((x - l) / (r' - l))) as (Bp & _).
  destruct (clamp_unit ((y - t) / (b - t))) as (Bq & _).
  eexists. split; [reflexivity|]. split; [|reflexivity].
  cbn [vars with_vars]. split; [exact V1|]. split; [|split; [exact V3|exact Hc]].
  do 2 eexists. split; [reflexivity|]. split; [exact Bp|].
  split; [reflexivity | exact Bq].
Qed.

Lemma handle_valid (ev : event) (d : document) :
  valid_document computed_hue d ->
  well_formed computed_hue slider_takes ev ->
  exists d' : document,
    handle computed_hue slider_takes input_takes ev d = Ok d'
    /\ valid_document computed_hue d'.
Proof using Type.
  intros [V Hs] Hev. pose proof V as (V1 & V2 & V3 & V4).
  destruct ev as [e r|e r| |value|text|value|value|value]; cbn [handle].
  - unfold onmousedown.
    destruct (moveIndicator_valid e r d V Hev) as (d' & -> & V' & Hs').
    cbn [mbind result_bind]. eexists. split; [reflexivity|].
    split; [exact V'|]. cbn [hue_slider_value pressed]. by rewrite Hs'.
  - unfold document_mousemove. destruct (onmousemove d).
    + destruct (moveIndicator_valid e r d V Hev) as (d' & -> & V' & Hs').
      eexists. split; [reflexivity|]. split; [exact V'|]. by rewrite Hs'.
    + exists d. by repeat split.
  - unfold document_mouseup. destruct (onmouseup d).
    + eexists. split; [reflexivity|]. by split.
    + exists d. by repeat split.
  - unfold ratio_oninput. cbv zeta. destruct value as [x|].
    + cbn [Num.isNaN negb].
      change (Num.max 1 (Num.min 21 (Fin x)))
        with (Fin (Rmax 1 (Rmin 21 x))).
      destruct (clamp_ratio x) as (B & _).
      destruct (recalculateContrast_valid
                  (set_ratio (vars (with_ratio_field d (Fin x)))
                     (Fin (Rmax 1 (Rmin 21 x))))) as (s' & -> & V').
      { split; [exact V1|]. split; [exact V2|]. split; [|exact V4].
        eexists. split; [reflexivity | exact B]. }
      eexists. split; [reflexivity|]. by split.
    + eexists. split; [reflexivity|]. by split.
  - unfold colour_oninput.
    destruct (recalculateContrast_valid (set_reference (vars d) text))
      as (s' & -> & V'); [by apply (valid_ext (vars d))|].
    eexists. split; [reflexivity|]. by split.
  - unfold radio_onchange.
    destruct (renderLines_valid (set_mode (vars d) value))
      as (s' & -> & V'); [by apply (valid_ext (vars d))|].
    eexists. split; [reflexivity|]. by split.
  - unfold hue_slider_oninput. cbv zeta.
    cbn [hue_slider_value with_hue_slider vars].
    destruct (recalculateHue_valid (computed_hue value) (vars d) Hev V2 V3)
      as (s' & r & g & b & _ & -> & V' & _).
    eexists. split; [reflexivity|]. by split.
  - unfold hue_input_oninput. cbv zeta.
    cbn [hue_slider_value with_hue_input vars].
    destruct (recalculateHue_valid (computed_hue (hue_slider_value d))
                (vars d) Hs V2 V3) as (s' & r & g & b & _ & -> & V' & _).
    eexists. split; [reflexivity|]. by split.
Qed.

(** X24.  From a valid page every sequence of events is handled without an
    exception and leaves a valid page, provided each mouse event has real
    coordinates over a rectangle of positive size and the style engine
    yields the bytes of a pure hue for each slider text: the hue is pure and
    the tints are its tints, the pointer is in the unit square, the ratio is
    in [1, 21], the colour is 8-bit and the luminance is its luminance. *)
Theorem run_valid (evs : list event) (d : document) :
  valid_document computed_hue d ->
  Forall (well_formed computed_hue slider_takes) evs ->
  exists d' : document,
    run computed_hue slider_takes input_takes evs d = Ok d'
    /\ valid_document computed_hue d'.
Proof using Type.
  intros V Hall. revert d V.
  induction Hall as [|ev evs Hev _ IH]; intros d V.
  - exists d. by split.
  - cbn [run]. destruct (handle_valid ev d V Hev) as (d1 & -> & V1).
    cbn [mbind result_bind]. by apply IH.
Qed.

(** X25.  The start of the page: when the style engine yields the bytes of
    a pure hue for the slider's text, the five calls that end the listener
    return; the page is valid, the hue is the one computed, the chart is
    drawn, and, the pointer starting in the top right corner, the current
    colour is the hue itself. *)
Theorem startup_valid (reference slider : string) (width height : num)
    (minimum maximum shown : text) (border : string) (d : document) :
  vars d = initial_picker reference width height minimum maximum shown border ->
  hue_slider_value d = slider ->
  pure_captures (computed_hue slider) ->
  exists (d' : document) (r g b : nat),
    computed_hue slider = Some (r, g, b)
    /\ startup computed_hue input_takes d = Ok d'
    /\ valid_document computed_hue d'
    /\ current_hue (vars d')
       = (Fin (INR r / 255), Fin (INR g / 255), Fin (INR b / 255))
    /\ current_colour (vars d') = current_hue (vars d')
    /\ length (chart_image (vars d')) = (256 * 256 * 4)%nat
    /\ hue_input_value d' = input_takes slider.
Proof using Type.
  intros Hv Hsl Hc. unfold startup. cbv zeta.
  cbn [hue_slider_value with_hue_input vars]. rewrite Hsl, Hv.
  destruct (recalculateHue_valid (computed_hue slider)
              (initial_picker reference width height minimum maximum shown
                 border)) as (s1 & r & g & b & E & -> & V1 & Hh & _ & Fp & Fq
                              & Fr & _); [exact Hc| | |].
  { exists 1, 0. cbn [position_left position_bottom initial_picker].
    repeat split; lra. }
  { exists 4.5. cbn [contrast_ratio initial_picker]. split; [reflexivity|lra]. }
  cbn [mbind result_bind].
  pose proof Hc as (r' & g' & b' & E' & Hr & Hg & Hb & _).
  rewrite E in E'. injection E' as <- <- <-.
  assert (Bytes : forall k : nat, (k <= 255)%nat ->
            (0 <= Z.of_nat k <= 255)%Z /\ INR k / 255 = IZR (Z.of_nat k) / 255)
    by (intros k Hk; split; [lia | by rewrite INR_IZR_INZ]).
  destruct (Bytes r Hr) as [Zr Er]. destruct (Bytes g Hg) as [Zg Eg].
  destruct (Bytes b Hb) as [Zb Eb].
  assert (Hcorner : exists s2 : picker,
            recalculateColour s1 = Ok s2
            /\ current_colour s2 = current_hue s1).
  { apply (recalculateColour_top_right s1 (Z.of_nat r) (Z.of_nat g)
             (Z.of_nat b) Zr Zg Zb).
    - rewrite Hh. by rewrite Er, Eg, Eb.
    - by rewrite Fp.
    - by rewrite Fq. }
  destruct Hcorner as (s2 & Hs2 & Hcorner).
  destruct (recalculateColour_valid s1 (proj1 V1) (proj1 (proj2 V1))
              (proj1 (proj2 (proj2 V1))))
    as (s2' & Hs2' & V2 & F1 & _).
  rewrite Hs2 in Hs2'. apply Ok_inj in Hs2'. subst s2'. rewrite Hs2.
  cbn [mbind result_bind].
  destruct (recalculateContrast_frame s2 (proj1 V2))
    as (s3 & -> & G1 & G2 & G3 & G4 & G5 & G6 & G7 & _).
  cbn [mbind result_bind].
  assert (V3 : valid s3) by (by apply (valid_ext s2)).
  destruct (renderChart_set_chart s3 (proj1 V3)) as (image & -> & Hlen).
  cbn [mbind result_bind].
  destruct (renderLines_set_lines (set_chart s3 image) (proj1 V3))
    as [calls ->].
  cbn [mbind result_bind]. eexists. exists r, g, b.
  split; [exact E|]. split; [reflexivity|].
  cbn [vars with_vars hue_input_value with_hue_input current_hue
       current_colour chart_image set_lines set_chart].
  split; [|rewrite G1, G3, F1, Hh; rewrite Hcorner, Hh;
           by repeat split].
  split; [by apply (valid_ext s3)|].
  cbn [hue_slider_value with_vars with_hue_input]. rewrite Hsl. exact Hc.
Qed.

(** X26.  Typing in the hue number field recomputes the hue from the text
    the slider held before the event: [recalculateHue] runs before the
    slider is given the new text, so the variables after the event are the
    same whatever was typed, while the slider takes the typed text. *)
Theorem hue_field_input_is_stale (d : document) :
  valid_document computed_hue d ->
  exists (s' : picker) (r g b : nat),
    computed_hue (hue_slider_value d) = Some (r, g, b)
    /\ current_hue s'
       = (Fin (INR r / 255), Fin (INR g / 255), Fin (INR b / 255))
    /\ forall value : string,
         exists d' : document,
           hue_input_oninput computed_hue slider_takes value d = Ok d'
           /\ vars d' = s'
           /\ hue_input_value d' = value
           /\ hue_slider_value d' = slider_takes value.
Proof using Type.
  intros [(V1 & V2 & V3 & V4) Hs].
  destruct (recalculateHue_valid (computed_hue (hue_slider_value d)) (vars d)
              Hs V2 V3) as (s' & r & g & b & E & Hs' & _ & Hh & _).
  exists s', r, g, b. split; [exact E|]. split; [exact Hh|].
  intros value. unfold hue_input_oninput. cbv zeta.
  cbn [hue_slider_value with_hue_input vars]. rewrite Hs'.
  eexists. split; [reflexivity|]. by repeat split.
Qed.

End Page.


(** The variables as the listener initialises them are already valid: the
    tints are those of aqua, and white has luminance 1. *)
Lemma initial_picker_valid (reference : string) (width height : num)
    (minimum maximum shown : text) (border : string) :
  valid (initial_picker reference width height minimum maximum shown border).
Proof.
  split; [|split; [|split]].
  - exists 0, 1, 1. split; [exact pure_hue_aqua|]. split; [reflexivity|].
    cbn [current_tints initial_picker].
    by rewrite (interpolateTints_fin 0 1 1 pure_hue_aqua).
  - exists 1, 0. cbn [position_left position_bottom initial_picker].
    repeat split; lra.
  - exists 4.5. cbn [contrast_ratio initial_picker]. split; [reflexivity|lra].
  - exists 255%Z, 255%Z, 255%Z.
    cbn [current_colour current_luminance initial_picker].
    replace (255 / 255) with 1 by lra.
    split; [lia|]. split; [lia|]. split; [lia|]. split; [reflexivity|].
    rewrite calcLuminance_fin by lra. by rewrite luminance_white.
Defined.

Lemma always_aqua_pure (v : string) : pure_captures (always_aqua v).
Proof.
  exists 0%nat, 255%nat, 255%nat. split; [reflexivity|].
  split; [lia|]. split; [lia|]. split; [lia|]. split; [by left | by right; left].
Defined.

Lemma sample_click_over_field : over_field sample_click sample_rect.
Proof.
  exists 300, 120, 100, 500, 50, 450.
  do 6 (split; [reflexivity|]). split; lra.
Defined.

Lemma run_valid_witness :
  exists d' : document,
    run always_aqua (fun v => v) (fun v => v)
      [MouseMove sample_click sample_rect;
       MouseDown sample_click sample_rect;
       MouseMove sample_click sample_rect;
       MouseUp;
       RatioInput (Fin 30);
       RatioInput NaN;
       ColourInput "#336699";
       ColourInput "zz";
       RadioChange "BW";
       HueSliderInput "200";
       HueFieldInput "10"]
      (page_of
         (initial_picker "#FFFFFF" (Fin 256) (Fin 256) (Fixed (Fin 0) 5)
            (Fixed (Fin 1) 5) (Fixed (Fin 1) 5) "black") "180")
    = Ok d'
    /\ valid_document always_aqua d'.
Proof.
  apply (run_valid always_aqua (fun v => v) (fun v => v)).
  - split; [apply initial_picker_valid | apply always_aqua_pure].
  - repeat constructor;
      first [ exact sample_click_over_field | apply always_aqua_pure ].
Defined.

Lemma startup_valid_witness :
  exists (d' : document) (r g b : nat),
    always_aqua "180" = Some (r, g, b)
    /\ startup always_aqua (fun v => v)
         (page_of
            (initial_picker "#FFFFFF" (Fin 256) (Fin 256) (Fixed (Fin 0) 5)
               (Fixed (Fin 1) 5) (Fixed (Fin 1) 5) "black") "180") = Ok d'
    /\ valid_document always_aqua d'
    /\ current_hue (vars d')
       = (Fin (INR r / 255), Fin (INR g / 255), Fin (INR b / 255))
    /\ current_colour (vars d') = current_hue (vars d')
    /\ length (chart_image (vars d')) = (256 * 256 * 4)%nat
    /\ hue_input_value d' = "180"%string.
Proof.
  apply (startup_valid always_aqua (fun v => v) "#FFFFFF" "180" (Fin 256)
           (Fin 256) (Fixed (Fin 0) 5) (Fixed (Fin 1) 5) (Fixed (Fin 1) 5)
           "black").
  - reflexivity.
  - reflexivity.
  - apply always_aqua_pure.
Defined.

Lemma hue_field_input_is_stale_witness :
  exists (s' : picker) (r g b : nat),
    always_aqua "180" = Some (r, g, b)
    /\ current_hue s'
       = (Fin (INR r / 255), Fin (INR g / 255), Fin (INR b / 255))
    /\ forall value : string,
         exists d' : document,
           hue_input_oninput always_aqua (fun v => v) value
             (page_of
                (initial_picker "#FFFFFF" (Fin 256) (Fin 256)
                   (Fixed (Fin 0) 5) (Fixed (Fin 1) 5) (Fixed (Fin 1) 5)
                   "black") "180") = Ok d'
           /\ vars d' = s'
           /\ hue_input_value d' = value
           /\ hue_slider_value d' = value.
Proof.
  apply (hue_field_input_is_stale always_aqua (fun v => v)
           (page_of
              (initial_picker "#FFFFFF" (Fin 256) (Fin 256)
                 (Fixed (Fin 0) 5) (Fixed (Fin 1) 5) (Fixed (Fin 1) 5)
                 "black") "180")).
  split; [apply initial_picker_valid | apply always_aqua_pure].
Defined.
